(** * create_tsv_from_wmt24_esa: a shallow embedding and its properties

    The development follows [src/jsonl/create_tsv_from_wmt24_esa.py]:
    - JSON scalars as a small tagged type ([pyval]), Python exceptions as
      an error type ([exn]) threaded through a result monad;
    - the span helpers [assert_span_type], [correct_span] and
      [is_invalid_span];
    - [correct_span] a second time over an object store, to speak about
      the [copy.deepcopy] it starts with;
    - the three nested loops of [main] with explicit state passing.

    Modelling conventions.  A Python [str] is a [string], one [ascii] per
    character, so that [len] is [String.length] and the order of [str]
    is [String.compare].  Span bounds and the ids of a record range over
    JSON integers, strings and [null]; the severity of a span and the
    texts of a record are strings; JSON booleans, floats and containers
    are outside the model.  [Counter] objects are finite maps read with
    default 0; the insertion-ordered dictionaries that [main] iterates
    over are association lists; the columns of the output table, which
    grow in lockstep, are one list of rows. *)

From Stdlib Require Import ZArith String Ascii List Bool Lia.
From stdpp Require Import base option list strings gmap fin_maps pretty.

Open Scope string_scope.
Open Scope Z_scope.
Open Scope list_scope.

(** ** Python values and exceptions *)

Inductive pyval : Type :=
  | PInt (z : Z)
  | PStr (s : string)
  | PNone.

Inductive exn : Type :=
  | AssertionError
  | TypeError
  | ValueError
  | IndexError.

Inductive result (A : Type) : Type :=
  | Ok (a : A)
  | Raise (e : exn).

Arguments Ok {A} a.
Arguments Raise {A} e.

#[global] Instance result_ret : MRet result := fun A a => Ok a.

#[global] Instance result_bind : MBind result := fun A B k r =>
  match r with
  | Ok a => k a
  | Raise e => Raise e
  end.

(** [assert b] *)
Definition py_assert (b : bool) : result unit :=
  if b then Ok tt else Raise AssertionError.

(** [isinstance(v, int)] and [isinstance(v, str)] *)
Definition is_int (v : pyval) : bool :=
  match v with PInt _ => true | _ => false end.

Definition is_str (v : pyval) : bool :=
  match v with PStr _ => true | _ => false end.

(** [v == w]: total, values of different types are unequal. *)
Definition py_eq (v w : pyval) : bool :=
  match v, w with
  | PInt a, PInt b => a =? b
  | PStr s, PStr t => String.eqb s t
  | PNone, PNone => true
  | _, _ => false
  end.

(** [v > w]: defined between two integers and between two strings
    (lexicographic on characters); every other pairing raises
    [TypeError]. *)
Definition str_gt (s t : string) : bool :=
  match String.compare s t with Gt => true | _ => false end.

Definition py_gt (v w : pyval) : result bool :=
  match v, w with
  | PInt a, PInt b => Ok (a >? b)
  | PStr s, PStr t => Ok (str_gt s t)
  | _, _ => Raise TypeError
  end.

(** [f"{v}"] *)
Definition py_str (v : pyval) : string :=
  match v with
  | PInt z => pretty z
  | PStr s => s
  | PNone => "None"
  end.

(** [len(s)] *)
Definition len (s : string) : Z := Z.of_nat (String.length s).

(** ** Error spans *)

Record span : Type := mkSpan {
  start_i : pyval;
  end_i : pyval;
  severity : string
}.

Definition set_start_i (v : pyval) (s : span) : span :=
  mkSpan v (end_i s) (severity s).
Definition set_end_i (v : pyval) (s : span) : span :=
  mkSpan (start_i s) v (severity s).
Definition set_severity (v : string) (s : span) : span :=
  mkSpan (start_i s) (end_i s) v.

Definition missing : pyval := PStr "missing".

(** [x in (a, b, c)] on strings *)
Definition str_in (x : string) (l : list string) : bool :=
  existsb (String.eqb x) l.

Definition assert_span_type (esa_span : span) : result unit :=
  py_assert (is_int (start_i esa_span)
             || (py_eq (start_i esa_span) missing
                 && py_eq (end_i esa_span) missing)) ;;
  py_assert (is_int (end_i esa_span)
             || (py_eq (end_i esa_span) missing
                 && py_eq (start_i esa_span) missing)) ;;
  py_assert (str_in (severity esa_span) ["major"; "minor"; "undecided"]).

(** [min(max(0, i), len(hypothesis))] on integers *)
Definition clamp (i : Z) (hypothesis : string) : Z :=
  Z.min (Z.max 0 i) (len hypothesis).

(** The value [correct_span] returns, as a function of the value of its
    argument: each rebinding of [error_span] below is one of the
    in-place updates the source performs on its private copy. *)
Definition correct_span (error_span : span) (hypothesis : string) : result span :=
  let error_span :=
    if String.eqb (severity error_span) "critical"
    then set_severity "major" error_span else error_span in
  let error_span :=
    match start_i error_span, end_i error_span with
    | PInt s, PInt e =>
        set_end_i (PInt (clamp e hypothesis))
                  (set_start_i (PInt (clamp s hypothesis)) error_span)
    | _, _ => error_span
    end in
  gt ← py_gt (start_i error_span) (end_i error_span) ;
  let error_span :=
    if (gt : bool)
    then set_end_i (start_i error_span) (set_start_i (end_i error_span) error_span)
    else error_span in
  let error_span :=
    if py_eq (start_i error_span) (end_i error_span)
    then set_end_i missing (set_start_i missing error_span)
    else error_span in
  Ok error_span.

(** The severity after the first statement of [correct_span]. *)
Definition downgraded (sev : string) : string :=
  if String.eqb sev "critical" then "major" else sev.

(** [isinstance(v, int) and p(v)]: the comparison is evaluated only on
    an integer. *)
Definition int_and (v : pyval) (p : Z -> bool) : bool :=
  match v with PInt z => p z | _ => false end.

Definition is_invalid_span (error_span : span) (hypothesis : string) : bool :=
  let start_i := start_i error_span in
  let end_i := end_i error_span in
  let severity := severity error_span in
  if is_str start_i && negb (py_eq start_i missing) then true
  else if is_str end_i && negb (py_eq end_i missing) then true
  else if int_and start_i (fun s => (s <? 0) || (len hypothesis <? s)) then true
  else if int_and end_i (fun e => (e <? 0) || (len hypothesis <? e)) then true
  else if int_and start_i (fun s => int_and end_i (fun e => s >? e)) then true
  else if negb (str_in severity ["major"; "minor"; "critical"]) then true
  else false.

(** ** [correct_span] over an object store

    The source copies its argument ([copy.deepcopy]) and then assigns to
    the keys of the copy.  Objects live at addresses of a store; the
    copy is allocated at a fresh address and every assignment is an
    [alter] at that address. *)

#[global] Instance span_inhabited : Inhabited span :=
  populate (mkSpan PNone PNone EmptyString).

Definition deepcopy (l : nat) (σ : gmap nat span) : nat * gmap nat span :=
  let l' := fresh (dom σ) in (l', <[l' := σ !!! l]> σ).

(** [if error_span["severity"] == "critical": ...] *)
Definition st_severity (l : nat) (σ : gmap nat span) : gmap nat span :=
  if String.eqb (severity (σ !!! l)) "critical"
  then alter (set_severity "major") l σ else σ.

(** [if isinstance(start_i, int) and isinstance(end_i, int): ...] *)
Definition st_clamp (l : nat) (hypothesis : string) (σ : gmap nat span)
    : gmap nat span :=
  match start_i (σ !!! l), end_i (σ !!! l) with
  | PInt _, PInt _ =>
      let σ := alter (fun o => match start_i o with
                               | PInt s => set_start_i (PInt (clamp s hypothesis)) o
                               | _ => o end) l σ in
      alter (fun o => match end_i o with
                      | PInt e => set_end_i (PInt (clamp e hypothesis)) o
                      | _ => o end) l σ
  | _, _ => σ
  end.

(** [if start_i > end_i: start_i, end_i = end_i, start_i]: the right-hand
    tuple is read before either key is assigned. *)
Definition st_swap (l : nat) (σ : gmap nat span) : result (gmap nat span) :=
  gt ← py_gt (start_i (σ !!! l)) (end_i (σ !!! l)) ;
  if (gt : bool)
  then let '(a, b) := (end_i (σ !!! l), start_i (σ !!! l)) in
       Ok (alter (set_end_i b) l (alter (set_start_i a) l σ))
  else Ok σ.

(** [if start_i == end_i: start_i = end_i = "missing"] *)
Definition st_collapse (l : nat) (σ : gmap nat span) : gmap nat span :=
  if py_eq (start_i (σ !!! l)) (end_i (σ !!! l))
  then alter (set_end_i missing) l (alter (set_start_i missing) l σ)
  else σ.

(** The store after the call, and the address returned or the exception
    raised. *)
Definition correct_span_st (error_span : nat) (hypothesis : string)
    (σ : gmap nat span) : gmap nat span * result nat :=
  let '(error_span, σ) := deepcopy error_span σ in
  let σ := st_severity error_span σ in
  let σ := st_clamp error_span hypothesis σ in
  match st_swap error_span σ with
  | Raise e => (σ, Raise e)
  | Ok σ => (st_collapse error_span σ, Ok error_span)
  end.

(** ** Records of the pipeline *)

(** One decoded line of the input file. *)
Record annotation : Type := mkAnnotation {
  src : string;
  tgt : string;
  langs : string;
  doc_id : pyval;
  line_id : pyval;
  system : pyval;
  domain : pyval;
  esa_spans : list span
}.

(** One entry of the reference corpus. *)
Record ref_entry : Type := mkRef {
  source : string;
  target : string;
  is_bad_source : bool
}.

(** One row of the output table: the fourteen columns of [data], which
    the source appends to in lockstep. *)
Module OutputRow.
Record t : Type := mk {
  doc_id : pyval;
  segment_id : pyval;
  source_lang : string;
  target_lang : string;
  set_id : string;
  system_id : pyval;
  source_segment : string;
  hypothesis_segment : string;
  reference_segment : string;
  domain_name : pyval;
  method : string;
  start_indices : string;
  end_indices : string;
  error_types : string
}.
End OutputRow.

(** ** Containers *)

(** [Counter]: reading an absent key gives 0 and does not insert it. *)
Definition cget (c : gmap string Z) (k : string) : Z := default 0 (c !! k).

(** [c[k] += n] *)
Definition cadd (k : string) (n : Z) (c : gmap string Z) : gmap string Z :=
  <[k := cget c k + n]> c.

(** [langs_to_statistics[langs][k]] on a [defaultdict(Counter)] *)
Definition sget (m : gmap string (gmap string Z)) (langs k : string) : Z :=
  cget (default ∅ (m !! langs)) k.

(** [d[k] = f(d[k])] on an insertion-ordered [defaultdict] whose default
    value is [dflt]: an existing key keeps its position, a new key goes
    to the end. *)
Fixpoint od_update {V : Type} (k : string) (dflt : V) (f : V -> V)
    (d : list (string * V)) : list (string * V) :=
  match d with
  | [] => [(k, f dflt)]
  | (k', v) :: d' =>
      if String.eqb k k' then (k', f v) :: d'
      else (k', v) :: od_update k dflt f d'
  end.

(** [d[k]] on an association list, for the statements. *)
Fixpoint od_get {V : Type} (k : string) (d : list (string * V)) : option V :=
  match d with
  | [] => None
  | (k', v) :: d' => if String.eqb k k' then Some v else od_get k d'
  end.

(** [s.split(c)] for a one-character separator. *)
Fixpoint split_on (c : ascii) (s : string) : list string :=
  match s with
  | EmptyString => [EmptyString]
  | String a s' =>
      if Ascii.eqb a c then EmptyString :: split_on c s'
      else match split_on c s' with
           | w :: ws => String a w :: ws
           | [] => [String a EmptyString]
           end
  end.

(** [" ".join(l)] *)
Definition join_sp (l : list string) : string := String.concat " " l.

(** The tokens of a space-joined column. *)
Definition tokens (s : string) : list string := split_on " " s.

(** ** Stage 1: ingestion and grouping *)

Definition signature (datum : annotation) : string :=
  py_str (doc_id datum) +:+ "-" +:+ py_str (line_id datum)
  +:+ "-" +:+ py_str (system datum).

(** [langs_to_data[langs][signature].append(datum)] *)
Definition group_append (datum : annotation)
    (langs_to_data : list (string * list (string * list annotation)))
    : list (string * list (string * list annotation)) :=
  od_update (langs datum) []
    (od_update (signature datum) [] (fun l => l ++ [datum])) langs_to_data.

(** The first loop of [main] over the decoded lines. *)
Fixpoint ingest (lines : list annotation) (log_counter : gmap string Z)
    (langs_to_data : list (string * list (string * list annotation)))
    : result (gmap string Z * list (string * list (string * list annotation))) :=
  match lines with
  | [] => Ok (log_counter, langs_to_data)
  | datum :: lines =>
      py_assert (len (src datum) >? 0) ;;
      if len (tgt datum) =? 0
      then ingest lines (cadd "target segment is empty" 1 log_counter) langs_to_data
      else ingest lines log_counter (group_append datum langs_to_data)
  end.

(** [valid_signature_counter[langs] = len(langs_to_data[langs])] for
    every key. *)
Definition valid_signature_counter
    (langs_to_data : list (string * list (string * list annotation)))
    : gmap string Z :=
  fold_left (fun c '(langs, groups) => <[langs := Z.of_nat (length groups)]> c)
            langs_to_data ∅.

(** ** Stage 2: reference join and row construction *)

Definition langs_to_wmt24pp_code : gmap string string :=
  list_to_map
    [("en-cs", "en-cs_CZ"); ("en-ja", "en-ja_JP"); ("en-zh", "en-zh_CN");
     ("en-is", "en-is_IS"); ("en-uk", "en-uk_UA"); ("en-ru", "en-ru_RU")].

(** The lookup built from the corpus: bad sources are skipped, a later
    entry overwrites an earlier one with the same source. *)
Definition build_src_to_tgt (wmt24pp : list ref_entry) : gmap string string :=
  fold_left (fun m datum =>
               if is_bad_source datum then m
               else <[source datum := target datum]> m)
            wmt24pp ∅.

(** Locals of the loop over [datum["esa_spans"]]. *)
Record span_acc : Type := mkAcc {
  start_indices : list string;
  end_indices : list string;
  error_types : list string;
  esa_counter : gmap string Z
}.

Definition empty_acc : span_acc := mkAcc [] [] [] ∅.

(** The body of the span loop after the two checks. *)
Definition push_span (esa_span : span) (acc : span_acc) : span_acc :=
  let esa_counter :=
    if py_eq (start_i esa_span) (end_i esa_span)
    then cadd "missing" 1 (esa_counter acc)
    else cadd (severity esa_span) 1 (esa_counter acc) in
  mkAcc (start_indices acc ++ [py_str (start_i esa_span)])
        (end_indices acc ++ [py_str (end_i esa_span)])
        (error_types acc ++ [severity esa_span])
        esa_counter.

(** The loop over [datum["esa_spans"]]; the boolean is
    [has_invalid_span], [true] exactly when the loop was left by
    [break]. *)
Fixpoint span_loop (filter_data_with_invalid_span : bool) (hypothesis : string)
    (spans : list span) (acc : span_acc) : result (bool * span_acc) :=
  match spans with
  | [] => Ok (false, acc)
  | esa_span :: spans =>
      assert_span_type esa_span ;;
      if filter_data_with_invalid_span && is_invalid_span esa_span hypothesis
      then Ok (true, acc)
      else span_loop filter_data_with_invalid_span hypothesis spans
             (push_span esa_span acc)
  end.

(** State threaded through the second stage. *)
Record pstate : Type := mkState {
  log_counter : gmap string Z;
  langs_to_statistics : gmap string (gmap string Z);
  data : list OutputRow.t
}.

(** The sentinel step: [if len(start_indices) == 0: ...]. *)
Definition add_sentinel (acc : span_acc) : span_acc :=
  if (length (start_indices acc) =? 0)%nat
  then mkAcc (start_indices acc ++ ["-1"]) (end_indices acc ++ ["-1"])
             (error_types acc ++ ["no-error"]) (esa_counter acc)
  else acc.

(** The fourteen appends to [data]. *)
Definition make_row (datum : annotation) (reference : string) (acc : span_acc)
    : result OutputRow.t :=
  match split_on "-" (langs datum) with
  | [source_lang; target_lang] =>
      Ok (OutputRow.mk (doc_id datum) (line_id datum) source_lang target_lang
                 "official" (system datum) (src datum) (tgt datum) reference
                 (domain datum) "ESA"
                 (join_sp (start_indices acc)) (join_sp (end_indices acc))
                 (join_sp (error_types acc)))
  | _ => Raise ValueError
  end.

(** The updates of [langs_to_statistics[langs]] after a row. *)
Definition update_statistics (langs : string) (acc : span_acc)
    (stats : gmap string (gmap string Z))
    : result (gmap string (gmap string Z)) :=
  match error_types acc with
  | [] => Raise IndexError
  | first :: _ =>
      let c := default ∅ (stats !! langs) in
      let c := if String.eqb first "no-error" then cadd "no-error" 1 c else c in
      let c := cadd "major" (cget (esa_counter acc) "major") c in
      let c := cadd "minor" (cget (esa_counter acc) "minor") c in
      let c := cadd "missing" (cget (esa_counter acc) "missing") c in
      Ok (<[langs := c]> stats)
  end.

(** The loop over the records of one signature.  [continue] goes on with
    the rest of the list, [break] returns. *)
Fixpoint datum_loop (filter_data_with_invalid_span : bool)
    (src_to_tgt : gmap string string) (langs : string)
    (datums : list annotation) (st : pstate) (num_langs_data : Z)
    : result (pstate * Z) :=
  match datums with
  | [] => Ok (st, num_langs_data)
  | datum :: datums =>
      match src_to_tgt !! src datum with
      | None =>
          datum_loop filter_data_with_invalid_span src_to_tgt langs datums
            st num_langs_data
      | Some reference =>
          '(has_invalid_span, acc) ←
            span_loop filter_data_with_invalid_span (tgt datum)
              (esa_spans datum) empty_acc ;
          if (has_invalid_span : bool)
          then datum_loop filter_data_with_invalid_span src_to_tgt langs datums
                 (mkState (cadd "skip_datum_with_invalid_span" 1 (log_counter st))
                          (langs_to_statistics st) (data st))
                 num_langs_data
          else
            let acc := add_sentinel acc in
            row ← make_row datum reference acc ;
            stats ← update_statistics langs acc (langs_to_statistics st) ;
            Ok (mkState (log_counter st) stats (data st ++ [row]),
                num_langs_data + 1)
      end
  end.

(** The loop over the signatures of one language pair. *)
Fixpoint signature_loop (filter_data_with_invalid_span : bool)
    (src_to_tgt : gmap string string) (langs : string)
    (groups : list (string * list annotation)) (st : pstate) (num_langs_data : Z)
    : result (pstate * Z) :=
  match groups with
  | [] => Ok (st, num_langs_data)
  | (_, datums) :: groups =>
      '(st, num_langs_data) ←
        datum_loop filter_data_with_invalid_span src_to_tgt langs datums
          st num_langs_data ;
      signature_loop filter_data_with_invalid_span src_to_tgt langs groups
        st num_langs_data
  end.

(** The loop over the language pairs.  [load_dataset] stands for the
    corpus collaborator: the entries of the ["train"] split for a corpus
    code.  The logging calls are left out; the only state they touch is
    the creation of an empty [langs_to_statistics[langs]], which reads
    through [sget] do not see. *)
Fixpoint langs_loop (load_dataset : string -> list ref_entry)
    (filter_data_with_invalid_span : bool)
    (valid_signature_counter : gmap string Z)
    (langs_to_data : list (string * list (string * list annotation)))
    (st : pstate) : result pstate :=
  match langs_to_data with
  | [] => Ok st
  | (langs, groups) :: rest =>
      match langs_to_wmt24pp_code !! langs with
      | None =>
          langs_loop load_dataset filter_data_with_invalid_span
            valid_signature_counter rest st
      | Some code =>
          let src_to_tgt := build_src_to_tgt (load_dataset code) in
          '(st, num_langs_data) ←
            signature_loop filter_data_with_invalid_span src_to_tgt langs
              groups st 0 ;
          let st :=
            mkState (cadd "num_skipped_valid_signatures"
                       (cget valid_signature_counter langs - num_langs_data)
                       (log_counter st))
                    (langs_to_statistics st) (data st) in
          langs_loop load_dataset filter_data_with_invalid_span
            valid_signature_counter rest st
      end
  end.

(** [main]: the decoded lines of the input file in, the final counters,
    statistics and table out.  The output path and the seed do not
    enter the computation. *)
Definition main (load_dataset : string -> list ref_entry)
    (wmt24_esa_jsonl : list annotation) (filter_data_with_invalid_span : bool)
    : result pstate :=
  '(log_counter, langs_to_data) ← ingest wmt24_esa_jsonl ∅ [] ;
  langs_loop load_dataset filter_data_with_invalid_span
    (valid_signature_counter langs_to_data) langs_to_data
    (mkState log_counter ∅ []).

(** ** Notions used in the statements *)

(** The four reasons for which [is_invalid_span] answers [True]. *)
Definition invalid_reason (s : span) (h : string) : Prop :=
  (exists t, (start_i s = PStr t \/ end_i s = PStr t) /\ t <> "missing")
  \/ (exists z, (start_i s = PInt z \/ end_i s = PInt z) /\ (z < 0 \/ len h < z))
  \/ (exists a b, start_i s = PInt a /\ end_i s = PInt b /\ a > b)
  \/ ~ In (severity s) ["major"; "minor"; "critical"].

(** The conditions of the two [assert]s and the test of the first loop. *)
Definition has_src (datum : annotation) : bool := len (src datum) >? 0.
Definition has_tgt (datum : annotation) : bool := negb (len (tgt datum) =? 0).

(** The records that reach the grouping, and the dictionary the first
    loop builds from them. *)
Definition kept (lines : list annotation) : list annotation :=
  List.filter has_tgt lines.

Definition grouped (lines : list annotation)
    : list (string * list (string * list annotation)) :=
  fold_left (fun ltd d => group_append d ltd) (kept lines) [].

(** [langs_to_data[langs][signature]], the empty list for absent keys. *)
Definition group_at (langs sig : string)
    (langs_to_data : list (string * list (string * list annotation)))
    : list annotation :=
  default [] (groups ← od_get langs langs_to_data; od_get sig groups).

(** The conditions [assert_span_type] asserts. *)
Definition span_type_ok (esa_span : span) : bool :=
  (is_int (start_i esa_span)
   || (py_eq (start_i esa_span) missing && py_eq (end_i esa_span) missing))
  && (is_int (end_i esa_span)
      || (py_eq (end_i esa_span) missing && py_eq (start_i esa_span) missing))
  && str_in (severity esa_span) ["major"; "minor"; "undecided"].

(** The locals of a span loop that ran through all spans. *)
Definition spans_acc (spans : list span) : span_acc :=
  fold_left (fun acc sp => push_span sp acc) spans empty_acc.

(** No span of the record is invalid, or the filter is off. *)
Definition no_invalid_span (filter_on : bool) (datum : annotation) : bool :=
  negb filter_on
  || forallb (fun sp => negb (is_invalid_span sp (tgt datum))) (esa_spans datum).

(** A record qualifies for output: its source has a reference and it
    passes the filter. *)
Definition qualifies (filter_on : bool) (src_to_tgt : gmap string string)
    (datum : annotation) : bool :=
  match src_to_tgt !! src datum with
  | Some _ => no_invalid_span filter_on datum
  | None => false
  end.

(** The record a signature contributes: the first that qualifies. *)
Definition chosen (filter_on : bool) (src_to_tgt : gmap string string)
    (datums : list annotation) : list annotation :=
  match find (qualifies filter_on src_to_tgt) datums with
  | Some d => [d]
  | None => []
  end.

(** The records of [langs_to_data] sit under their own keys, come from
    the input, have a target, and no key occurs twice. *)
Definition group_ok (lines : list annotation) (lp : string)
    (groups : list (string * list annotation)) : Prop :=
  List.NoDup (map fst groups)
  /\ Forall (fun g => Forall (fun d => lp = langs d
                                       /\ signature d = fst g
                                       /\ In d lines /\ has_tgt d = true)
                             (snd g)) groups.

Definition well_grouped (lines : list annotation)
    (langs_to_data : list (string * list (string * list annotation))) : Prop :=
  List.NoDup (map fst langs_to_data)
  /\ Forall (fun e => group_ok lines (fst e) (snd e)) langs_to_data.

(** The records of one language pair and signature, in input order. *)
Definition same_key (lp sig : string) (datum : annotation) : bool :=
  String.eqb (langs datum) lp && String.eqb (signature datum) sig.

(** What a record needs for its row to be built: spans of the asserted
    types and a language pair that splits in two. *)
Definition emit_ok (datum : annotation) : bool :=
  forallb span_type_ok (esa_spans datum)
  && (length (split_on "-" (langs datum)) =? 2)%nat.

(** The row built from a record whose spans all went through the loop. *)
Definition row_of (src_to_tgt : gmap string string) (datum : annotation)
    : OutputRow.t :=
  let acc := add_sentinel (spans_acc (esa_spans datum)) in
  let parts := split_on "-" (langs datum) in
  OutputRow.mk (doc_id datum) (line_id datum) (nth 0 parts EmptyString) (nth 1 parts EmptyString)
         "official" (system datum) (src datum) (tgt datum)
         (default EmptyString (src_to_tgt !! src datum)) (domain datum) "ESA"
         (join_sp (start_indices acc)) (join_sp (end_indices acc))
         (join_sp (error_types acc)).

(** What one emitted record adds to [langs_to_statistics[langs][k]]. *)
Definition acc_delta (acc : span_acc) (k : string) : Z :=
  (if String.eqb (hd EmptyString (error_types acc)) "no-error" && String.eqb "no-error" k
   then 1 else 0)
  + (if String.eqb "major" k then cget (esa_counter acc) "major" else 0)
  + (if String.eqb "minor" k then cget (esa_counter acc) "minor" else 0)
  + (if String.eqb "missing" k then cget (esa_counter acc) "missing" else 0).

Definition stat_delta (datum : annotation) (k : string) : Z :=
  acc_delta (add_sentinel (spans_acc (esa_spans datum))) k.

Definition zsum (l : list Z) : Z := fold_right Z.add 0 l.

(** The records and rows one language pair contributes. *)
Definition chosen_groups (filter_on : bool) (src_to_tgt : gmap string string)
    (groups : list (string * list annotation)) : list annotation :=
  flat_map (fun g => chosen filter_on src_to_tgt (snd g)) groups.

Definition ref_map (load_dataset : string -> list ref_entry) (lp : string)
    : gmap string string :=
  match langs_to_wmt24pp_code !! lp with
  | Some code => build_src_to_tgt (load_dataset code)
  | None => ∅
  end.

Definition chosen_langs (load_dataset : string -> list ref_entry)
    (filter_on : bool) (e : string * list (string * list annotation))
    : list annotation :=
  match langs_to_wmt24pp_code !! fst e with
  | Some _ => chosen_groups filter_on (ref_map load_dataset (fst e)) (snd e)
  | None => []
  end.

Definition rows_langs (load_dataset : string -> list ref_entry)
    (filter_on : bool) (e : string * list (string * list annotation))
    : list OutputRow.t :=
  map (row_of (ref_map load_dataset (fst e)))
      (chosen_langs load_dataset filter_on e).

(** What the loops over the records of one language pair do to the
    state when they emit the rows of [sel]. *)
Definition step_ok (src_to_tgt : gmap string string) (lp : string)
    (sel : list annotation) (st : pstate) (n : Z) (st' : pstate) (n' : Z)
    : Prop :=
  forallb emit_ok sel = true
  /\ data st' = data st ++ map (row_of src_to_tgt) sel
  /\ (forall lp' k,
        sget (langs_to_statistics st') lp' k
        = sget (langs_to_statistics st) lp' k
          + (if String.eqb lp' lp
             then zsum (map (fun d => stat_delta d k) sel) else 0))
  /\ n' = n + Z.of_nat (length sel)
  /\ (forall k, k <> "skip_datum_with_invalid_span" ->
                cget (log_counter st') k = cget (log_counter st) k).

(** What one language pair adds to [langs_to_statistics[lp][k]]. *)
Definition langs_delta (load_dataset : string -> list ref_entry)
    (filter_on : bool) (lp k : string)
    (e : string * list (string * list annotation)) : Z :=
  if String.eqb lp (fst e)
  then zsum (map (fun d => stat_delta d k) (chosen_langs load_dataset filter_on e))
  else 0.

(** What the second stage does to the state when it does not raise. *)
Definition stage2_ok (load_dataset : string -> list ref_entry)
    (filter_on : bool)
    (langs_to_data : list (string * list (string * list annotation)))
    (st st' : pstate) : Prop :=
  forallb emit_ok (flat_map (chosen_langs load_dataset filter_on) langs_to_data)
  = true
  /\ data st' = data st ++ flat_map (rows_langs load_dataset filter_on) langs_to_data
  /\ (forall lp k,
        sget (langs_to_statistics st') lp k
        = sget (langs_to_statistics st) lp k
          + zsum (map (langs_delta load_dataset filter_on lp k) langs_to_data))
  /\ (forall k, k <> "skip_datum_with_invalid_span" ->
                k <> "num_skipped_valid_signatures" ->
                cget (log_counter st') k = cget (log_counter st) k).

(** The language pair and the signature a row carries. *)
Definition row_langs (r : OutputRow.t) : string :=
  OutputRow.source_lang r +:+ "-" +:+ OutputRow.target_lang r.

Definition row_signature (r : OutputRow.t) : string :=
  py_str (OutputRow.doc_id r) +:+ "-" +:+ py_str (OutputRow.segment_id r)
  +:+ "-" +:+ py_str (OutputRow.system_id r).

(** The character [c] does not occur in [s]. *)
Fixpoint free_of (c : ascii) (s : string) : bool :=
  match s with
  | EmptyString => true
  | String a s' => negb (Ascii.eqb a c) && free_of c s'
  end.

(** The records chosen for a language pair, in output order. *)
Definition emitted (load_dataset : string -> list ref_entry)
    (filter_on : bool) (lines : list annotation) (lp : string)
    : list annotation :=
  match od_get lp (grouped lines) with
  | Some groups => chosen_langs load_dataset filter_on (lp, groups)
  | None => []
  end.

(** The key of [esa_counter] a span is counted under. *)
Definition bucket (esa_span : span) : string :=
  if py_eq (start_i esa_span) (end_i esa_span) then "missing"
  else severity esa_span.

(** The number of elements of [l] that satisfy [p]. *)
Definition count_if {A : Type} (p : A -> bool) (l : list A) : Z :=
  Z.of_nat (length (List.filter p l)).

(** Both bounds are integers, or both are strings. *)
Definition uniform_bounds (s : span) : bool :=
  (is_int (start_i s) && is_int (end_i s))
  || (is_str (start_i s) && is_str (end_i s)).

(** Two runs end alike: the same exception, or the same table and
    statistics and log counters that differ by [c] under the key of the
    empty targets only. *)
Definition agree_upto (c : Z) (st1 st2 : pstate) : Prop :=
  data st1 = data st2
  /\ langs_to_statistics st1 = langs_to_statistics st2
  /\ forall k, cget (log_counter st1) k
               = cget (log_counter st2) k
                 + (if String.eqb "target segment is empty" k then c else 0).

Definition agree_res {A : Type} (R : A -> A -> Prop) (r1 r2 : result A) : Prop :=
  match r1, r2 with
  | Ok a, Ok b => R a b
  | Raise e1, Raise e2 => e1 = e2
  | _, _ => False
  end.

Definition agree_pair (c : Z) (p1 p2 : pstate * Z) : Prop :=
  agree_upto c (fst p1) (fst p2) /\ snd p1 = snd p2.

(** The rows that carry a given (doc_id, line_id, system) triple. *)
Definition row_has_triple (a b c : pyval) (r : OutputRow.t) : bool :=
  py_eq (OutputRow.doc_id r) a && py_eq (OutputRow.segment_id r) b
  && py_eq (OutputRow.system_id r) c.

(** ** A small corpus and input file for the examples *)

Definition example_corpus (code : string) : list ref_entry :=
  [mkRef "hello" "ahoj" false; mkRef "bad" "spatny" true;
   mkRef "bye" "cau" false].

(** Four lines under one language pair; the first three share a
    signature.  The first has no reference, the second has a reversed,
    out-of-range span and two zero-length spans, the third has no span,
    the fourth has no target. *)
Definition line_unjoinable : annotation :=
  mkAnnotation "nope" "t1" "en-cs" (PStr "doc1") (PInt 3) (PStr "sysA")
    (PStr "news") [].

Definition line_with_spans : annotation :=
  mkAnnotation "hello" "t2abc" "en-cs" (PStr "doc1") (PInt 3) (PStr "sysA")
    (PStr "news")
    [mkSpan (PInt 9) (PInt 2) "major"; mkSpan (PInt 4) (PInt 4) "minor";
     mkSpan missing missing "minor"].

Definition line_without_spans : annotation :=
  mkAnnotation "hello" "t3" "en-cs" (PStr "doc1") (PInt 3) (PStr "sysA")
    (PStr "news") [].

Definition line_without_target : annotation :=
  mkAnnotation "bye" EmptyString "en-cs" (PStr "doc1") (PInt 4) (PStr "sysA")
    (PStr "news") [mkSpan (PInt 0) (PInt 1) "major"].

Definition example_lines : list annotation :=
  [line_unjoinable; line_with_spans; line_without_spans; line_without_target].

(** The final state of a run, or the initial one if the run raised. *)
Definition final_state (r : result pstate) : pstate :=
  match r with
  | Ok st => st
  | Raise _ => mkState ∅ ∅ []
  end.

Definition example_out (filter_on : bool) : pstate :=
  final_state (main example_corpus example_lines filter_on).

(** The record has no span. *)
Definition no_spans (datum : annotation) : bool :=
  match esa_spans datum with [] => true | _ => false end.

(** ** [random_valid_span]

    The generator of the [random] module is a parameter: a state [G]
    and [randrange n], which returns a number and the next state.  The
    [while] loop takes fuel, the number of times its body may run; no
    result within the fuel is [None]. *)

(** [while start_i == end_i: end_i = random.randrange(n)] *)
Fixpoint redraw_end {G : Type} (randrange : Z -> G -> Z * G) (fuel : nat)
    (n start_i end_i : Z) (g : G) : option (Z * G) :=
  if start_i =? end_i
  then match fuel with
       | O => None
       | S fuel =>
           let '(end_i, g) := randrange n g in
           redraw_end randrange fuel n start_i end_i g
       end
  else Some (end_i, g).

Definition random_valid_span {G : Type} (randrange : Z -> G -> Z * G)
    (fuel : nat) (hypothesis : string) (g : G)
    : option (Z * Z * string * G) :=
  let '(start_i, g) := randrange (len hypothesis + 1) g in
  let '(end_i, g) := randrange (len hypothesis + 1) g in
  match redraw_end randrange fuel (len hypothesis + 1) start_i end_i g with
  | None => None
  | Some (end_i, g) =>
      let '(start_i, end_i) :=
        if end_i <? start_i then (end_i, start_i) else (start_i, end_i) in
      let '(coin, g) := randrange 2 g in
      let error_type := if coin =? 0 then "major" else "minor" in
      Some (start_i, end_i, error_type, g)
  end.

(** A generator for the examples: the state is the list of numbers still
    to come, reduced into the requested range. *)
Definition list_randrange (n : Z) (g : list Z) : Z * list Z :=
  match g with
  | [] => (0, [])
  | x :: g => (x mod n, g)
  end.

(** The entries of the corpus that can serve as the reference of a
    source text. *)
Definition usable_for (s : string) (e : ref_entry) : bool :=
  negb (is_bad_source e) && String.eqb (source e) s.

(** The six target languages of [langs_to_wmt24pp_code]. *)
Definition target_langs : list string := ["cs"; "ja"; "zh"; "is"; "uk"; "ru"].

(** The source of the record has a reference. *)
Definition joinable (src_to_tgt : gmap string string) (datum : annotation)
    : bool :=
  match src_to_tgt !! src datum with Some _ => true | None => false end.

(** The records with a reference that the loop over a signature passes
    over before it reaches a qualifying one. *)
Fixpoint passed_over (filter_on : bool) (src_to_tgt : gmap string string)
    (datums : list annotation) : Z :=
  match datums with
  | [] => 0
  | d :: datums =>
      if qualifies filter_on src_to_tgt d then 0
      else (if joinable src_to_tgt d then 1 else 0)
           + passed_over filter_on src_to_tgt datums
  end.

(** The signatures of the supported language pairs, and the records
    passed over under them. *)
Definition supported_signatures (lines : list annotation) : Z :=
  zsum (map (fun e => match langs_to_wmt24pp_code !! fst e with
                      | Some _ => Z.of_nat (length (snd e))
                      | None => 0
                      end) (grouped lines)).

Definition passed_over_langs (load_dataset : string -> list ref_entry)
    (filter_on : bool) (e : string * list (string * list annotation)) : Z :=
  match langs_to_wmt24pp_code !! fst e with
  | Some _ => zsum (map (fun g => passed_over filter_on
                                    (ref_map load_dataset (fst e)) (snd g))
                        (snd e))
  | None => 0
  end.

(** The number of records filed in [langs_to_data]. *)
Definition filed (langs_to_data : list (string * list (string * list annotation)))
    : Z :=
  zsum (map (fun e => zsum (map (fun g => Z.of_nat (length (snd g))) (snd e)))
            langs_to_data).

(** The span loop stops at a span that fails the assertion or, under the
    filter, is invalid. *)
Definition stops_loop (filter_on : bool) (hypothesis : string) (sp : span)
    : bool :=
  negb (span_type_ok sp) || (filter_on && is_invalid_span sp hypothesis).

(** [langs_to_data] with every record replaced by its image under [g]. *)
Definition map_records (g : annotation -> annotation)
    (langs_to_data : list (string * list (string * list annotation)))
    : list (string * list (string * list annotation)) :=
  map (fun e => (fst e, map (fun gr => (fst gr, map g (snd gr))) (snd e)))
      langs_to_data.

(** An example of a change confined to unsupported language pairs: the
    spans of such a record are replaced by one ill-typed span. *)
Definition spoil_unsupported (d : annotation) : annotation :=
  match langs_to_wmt24pp_code !! langs d with
  | Some _ => d
  | None =>
      mkAnnotation (src d) (tgt d) (langs d) (doc_id d) (line_id d) (system d)
        (domain d) [mkSpan (PStr "abc") PNone "critical"]
  end.

Definition line_unsupported : annotation :=
  mkAnnotation "hello" "hallo" "en-de" (PStr "doc9") (PInt 1) (PStr "sysB")
    (PStr "news") [mkSpan (PInt 0) (PInt 2) "minor"].

(** The distinct elements of a list of keys, in the order of their first
    occurrence. *)
Definition add_key (keys : list string) (k : string) : list string :=
  if existsb (String.eqb k) keys then keys else keys ++ [k].

Definition first_occurrences (keys : list string) : list string :=
  fold_left add_key keys [].

(** * Properties *)

Example scenario_A :
  correct_span (mkSpan (PInt 5) (PInt 3) "critical") "0123456789"
  = Ok (mkSpan (PInt 3) (PInt 5) "major").
Proof. reflexivity. Qed.

(** ** The span helpers *)

Section SpanHelpers.

Implicit Types (s : span) (h : string) (a b : Z).

Lemma downgraded_not_critical sev :
  String.eqb (downgraded sev) "critical" = false.
Proof.
  unfold downgraded. destruct (String.eqb sev "critical") eqn:E; [reflexivity | exact E].
Qed.

Lemma downgraded_idem sev : downgraded (downgraded sev) = downgraded sev.
Proof.
  unfold downgraded at 1. now rewrite downgraded_not_critical.
Qed.

Lemma clamp_range a h : 0 <= clamp a h <= len h.
Proof. unfold clamp, len. lia. Qed.

Lemma clamp_fix a h : 0 <= a <= len h -> clamp a h = a.
Proof. unfold clamp. lia. Qed.

Lemma str_gt_irrefl t : str_gt t t = false.
Proof.
  unfold str_gt. pose proof (String.compare_antisym t t) as H.
  destruct (String.compare t t); cbn in H; congruence.
Qed.

Lemma str_gt_asym t u : str_gt t u = true -> str_gt u t = false.
Proof.
  unfold str_gt. rewrite (String.compare_antisym t u).
  destruct (String.compare u t); simpl; congruence.
Qed.

Lemma str_gt_neq t u : str_gt t u = true -> String.eqb u t = false.
Proof.
  intros H. apply String.eqb_neq. intros ->.
  rewrite str_gt_irrefl in H. discriminate.
Qed.

(** [correct_span] on two integer bounds, in closed form. *)
Lemma correct_span_ints a b sev h :
  correct_span (mkSpan (PInt a) (PInt b) sev) h =
  Ok (let lo := Z.min (clamp a h) (clamp b h) in
      let hi := Z.max (clamp a h) (clamp b h) in
      if lo =? hi then mkSpan missing missing (downgraded sev)
      else mkSpan (PInt lo) (PInt hi) (downgraded sev)).
Proof.
  unfold correct_span, downgraded. cbn [severity].
  destruct (String.eqb sev "critical");
    cbn -[clamp Z.min Z.max];
    generalize (clamp a h), (clamp b h); intros x y;
    (destruct (Z.gtb_spec x y) as [G|G]; cbn -[Z.min Z.max];
     [ rewrite (Z.min_r x y), (Z.max_l x y) by lia;
       now destruct (Z.eqb_spec y x)
     | rewrite (Z.min_l x y), (Z.max_r x y) by lia;
       now destruct (Z.eqb_spec x y) ]).
Qed.

(** [correct_span] on two string bounds, in closed form. *)
Lemma correct_span_strs t u sev h :
  correct_span (mkSpan (PStr t) (PStr u) sev) h =
  Ok (if str_gt t u then mkSpan (PStr u) (PStr t) (downgraded sev)
      else if String.eqb t u then mkSpan missing missing (downgraded sev)
      else mkSpan (PStr t) (PStr u) (downgraded sev)).
Proof.
  unfold correct_span, downgraded. cbn [severity].
  destruct (String.eqb sev "critical"); cbn -[String.eqb str_gt];
    destruct (str_gt t u) eqn:G; cbn -[String.eqb str_gt];
    rewrite ?(str_gt_neq _ _ G); try reflexivity;
    now destruct (String.eqb t u).
Qed.

(** On any other pairing of bounds the comparison raises. *)
Lemma correct_span_mixed s h :
  is_int (start_i s) && is_int (end_i s) = false ->
  is_str (start_i s) && is_str (end_i s) = false ->
  correct_span s h = Raise TypeError.
Proof.
  destruct s as [[a|t|] [b|u|] sev]; cbn; try discriminate; intros _ _;
    unfold correct_span; cbn; destruct (String.eqb sev "critical"); reflexivity.
Qed.

Lemma correct_span_severity s h s' :
  correct_span s h = Ok s' -> severity s' = downgraded (severity s).
Proof.
  destruct s as [[a|t|] [b|u|] sev]; cbn;
    rewrite ?correct_span_ints, ?correct_span_strs;
    try (rewrite correct_span_mixed by reflexivity; discriminate).
  - intros [= <-]. cbn. now destruct (_ =? _).
  - intros [= <-]. destruct (str_gt t u); [reflexivity|].
    now destruct (String.eqb t u).
Qed.

End SpanHelpers.

Lemma str_in_In x l : str_in x l = true <-> In x l.
Proof.
  unfold str_in. rewrite existsb_exists. split.
  - intros (y & Hy & E). apply String.eqb_eq in E. now subst.
  - intros H. exists x. split; [exact H | apply String.eqb_refl].
Qed.

Lemma str_in_not_In x l : str_in x l = false <-> ~ In x l.
Proof.
  rewrite <- str_in_In. destruct (str_in x l); split; congruence.
Qed.

Lemma is_invalid_span_orb s h :
  is_invalid_span s h =
  (is_str (start_i s) && negb (py_eq (start_i s) missing))
  || (is_str (end_i s) && negb (py_eq (end_i s) missing))
  || int_and (start_i s) (fun a => (a <? 0) || (len h <? a))
  || int_and (end_i s) (fun b => (b <? 0) || (len h <? b))
  || int_and (start_i s) (fun a => int_and (end_i s) (fun b => a >? b))
  || negb (str_in (severity s) ["major"; "minor"; "critical"]).
Proof.
  unfold is_invalid_span.
  repeat match goal with
         | |- context [if ?c then true else _] => destruct c
         end; reflexivity.
Qed.

Lemma bad_string_bound v :
  is_str v && negb (py_eq v missing) = true <->
  exists t, v = PStr t /\ t <> "missing".
Proof.
  destruct v as [a|t|]; cbn -[String.eqb].
  - split; [discriminate | intros (t & E & _); discriminate].
  - destruct (String.eqb_spec t "missing"); cbn; split; try discriminate.
    + intros (t' & [= <-] & N). contradiction.
    + intros _. eauto.
    + reflexivity.
  - split; [discriminate | intros (t & E & _); discriminate].
Qed.

Lemma bad_int_bound v h :
  int_and v (fun a => (a <? 0) || (len h <? a)) = true <->
  exists z, v = PInt z /\ (z < 0 \/ len h < z).
Proof.
  destruct v as [a|t|]; cbn -[len].
  - rewrite orb_true_iff, !Z.ltb_lt. split.
    + intros H. eauto.
    + intros (z & [= <-] & H). exact H.
  - split; [discriminate | intros (z & E & _); discriminate].
  - split; [discriminate | intros (z & E & _); discriminate].
Qed.

Lemma reversed_bounds v w :
  int_and v (fun a => int_and w (fun b => a >? b)) = true <->
  exists a b, v = PInt a /\ w = PInt b /\ a > b.
Proof.
  destruct v as [a|t|], w as [b|u|]; cbn;
    try (split; [discriminate | intros (x & y & E1 & E2 & _); discriminate]).
  rewrite Z.gtb_gt. split.
  - intros H. eauto.
  - intros (x & y & [= <-] & [= <-] & H). exact H.
Qed.

(** C2. [is_invalid_span] answers [True] exactly when a bound is a
    string other than "missing", or an integer bound lies outside
    [0, len(hypothesis)], or both bounds are integers with start > end,
    or the severity is not one of major, minor, critical; a span of
    severity "undecided" is therefore always invalid. *)
Theorem is_invalid_span_exact :
  (forall s h, is_invalid_span s h = true <-> invalid_reason s h)
  /\ (forall a b h, is_invalid_span (mkSpan a b "undecided") h = true).
Proof.
  split.
  - intros s h. rewrite is_invalid_span_orb. unfold invalid_reason.
    rewrite !orb_true_iff, !bad_string_bound, !bad_int_bound,
      reversed_bounds, negb_true_iff, str_in_not_In.
    split.
    + intros [[[[[(t & E & N) | (t & E & N)] | (z & E & R)] | (z & E & R)]
               | H] | H]; eauto 8.
    + intros [(t & [E|E] & N) | [(z & [E|E] & R) | [H | H]]]; eauto 10.
  - intros a b h. rewrite is_invalid_span_orb. cbn [severity].
    apply orb_true_iff. right. reflexivity.
Qed.

(** C3. On a span with two integer bounds [correct_span] returns a span
    whose bounds are integers with 0 <= start <= end <= len(hypothesis),
    or whose bounds are both "missing". *)
Theorem correct_span_int_bounds :
  forall (a b : Z) (sev h : string),
  exists s', correct_span (mkSpan (PInt a) (PInt b) sev) h = Ok s'
    /\ ((exists a' b', start_i s' = PInt a' /\ end_i s' = PInt b'
                       /\ 0 <= a' /\ a' <= b' /\ b' <= len h)
        \/ (start_i s' = missing /\ end_i s' = missing)).
Proof.
  intros a b sev h. rewrite correct_span_ints. eexists. split; [reflexivity|].
  pose proof (clamp_range a h). pose proof (clamp_range b h). cbv zeta.
  destruct (Z.eqb_spec (Z.min (clamp a h) (clamp b h))
                       (Z.max (clamp a h) (clamp b h))).
  - right. split; reflexivity.
  - left. do 2 eexists. cbn [start_i end_i]. repeat split; lia.
Qed.

(** What [correct_span] returns is a fixed point of [correct_span]. *)
Lemma correct_span_fixed s h s' :
  correct_span s h = Ok s' -> correct_span s' h = Ok s'.
Proof.
  assert (M : forall sev, correct_span (mkSpan missing missing (downgraded sev)) h
                          = Ok (mkSpan missing missing (downgraded sev))).
  { intros sev. unfold missing. rewrite correct_span_strs, downgraded_idem.
    reflexivity. }
  destruct s as [[a|t|] [b|u|] sev];
    rewrite ?correct_span_ints, ?correct_span_strs;
    try (rewrite correct_span_mixed by reflexivity; discriminate).
  - cbv zeta. pose proof (clamp_range a h). pose proof (clamp_range b h).
    revert H H0. generalize (clamp a h), (clamp b h). intros x y Hx Hy.
    destruct (Z.eqb_spec (Z.min x y) (Z.max x y)) as [E|E];
      intros [= <-]; [apply M|].
    rewrite correct_span_ints, downgraded_idem. cbv zeta.
    rewrite (clamp_fix (Z.min x y)), (clamp_fix (Z.max x y)) by lia.
    rewrite Z.min_l, Z.max_r by lia.
    destruct (Z.eqb_spec (Z.min x y) (Z.max x y)); [lia | reflexivity].
  - destruct (str_gt t u) eqn:G.
    + intros [= <-]. rewrite correct_span_strs, downgraded_idem.
      rewrite (str_gt_asym _ _ G), (str_gt_neq _ _ G). reflexivity.
    + destruct (String.eqb t u) eqn:E; intros [= <-]; [apply M|].
      rewrite correct_span_strs, downgraded_idem, G, E. reflexivity.
Qed.

(** C10. [correct_span] is idempotent wherever it is defined. *)
Theorem correct_span_idempotent :
  forall s h s1,
    correct_span s h = Ok s1 ->
    (s2 ← correct_span s h; correct_span s2 h) = correct_span s h.
Proof.
  intros s h s1 H. rewrite H. cbn. apply (correct_span_fixed _ _ _ H).
Qed.

Lemma correct_span_idempotent_witness :
  correct_span (mkSpan (PInt 9) (PInt (-2)) "critical") "abcde"
    = Ok (mkSpan (PInt 0) (PInt 5) "major")
  /\ (s2 ← correct_span (mkSpan (PInt 9) (PInt (-2)) "critical") "abcde";
      correct_span s2 "abcde")
     = correct_span (mkSpan (PInt 9) (PInt (-2)) "critical") "abcde".
Proof.
  split; [reflexivity|].
  apply (correct_span_idempotent _ _ (mkSpan (PInt 0) (PInt 5) "major")).
  reflexivity.
Defined.

(** ** [correct_span] and the store *)

Section Store.

Context (σ : gmap nat span) (l : nat) (x : span).

Lemma st_severity_insert :
  st_severity l (<[l := x]> σ)
  = <[l := if String.eqb (severity x) "critical"
           then set_severity "major" x else x]> σ.
Proof.
  unfold st_severity. rewrite lookup_total_insert_eq.
  destruct (String.eqb (severity x) "critical"); [|reflexivity].
  apply alter_insert_eq.
Qed.

Lemma st_clamp_insert h :
  st_clamp l h (<[l := x]> σ)
  = <[l := match start_i x, end_i x with
           | PInt s, PInt e =>
               set_end_i (PInt (clamp e h)) (set_start_i (PInt (clamp s h)) x)
           | _, _ => x
           end]> σ.
Proof.
  unfold st_clamp. rewrite lookup_total_insert_eq.
  destruct x as [[a|t|] [b|u|] sev]; cbn [start_i end_i]; try reflexivity.
  cbv zeta. rewrite !alter_insert_eq. reflexivity.
Qed.

Lemma st_swap_insert :
  st_swap l (<[l := x]> σ)
  = (gt ← py_gt (start_i x) (end_i x);
     Ok (<[l := if (gt : bool)
                then set_end_i (start_i x) (set_start_i (end_i x) x)
                else x]> σ)).
Proof.
  unfold st_swap. rewrite lookup_total_insert_eq.
  destruct (py_gt (start_i x) (end_i x)) as [[|]|e]; cbn; try reflexivity.
  rewrite !alter_insert_eq. reflexivity.
Qed.

Lemma st_collapse_insert :
  st_collapse l (<[l := x]> σ)
  = <[l := if py_eq (start_i x) (end_i x)
           then set_end_i missing (set_start_i missing x) else x]> σ.
Proof.
  unfold st_collapse. rewrite lookup_total_insert_eq.
  destruct (py_eq (start_i x) (end_i x)); [|reflexivity].
  rewrite !alter_insert_eq. reflexivity.
Qed.

End Store.

(** The store-level [correct_span] allocates one object at a fresh
    address, leaves every other address as it was, and returns what the
    value-level [correct_span] computes from the argument's value. *)
Lemma correct_span_st_spec (σ : gmap nat span) (l : nat) (s : span) (h : string) :
  σ !! l = Some s ->
  exists s1,
    correct_span_st l h σ
    = (<[fresh (dom σ) := s1]> σ,
       match correct_span s h with
       | Ok _ => Ok (fresh (dom σ))
       | Raise e => Raise e
       end)
    /\ (forall s', correct_span s h = Ok s' -> s1 = s').
Proof.
  intros Hl. unfold correct_span_st, deepcopy, correct_span.
  rewrite (lookup_total_correct _ _ _ Hl).
  rewrite st_severity_insert, st_clamp_insert, st_swap_insert.
  destruct (py_gt _ _) as [gt|e]; cbn -[clamp].
  - rewrite st_collapse_insert. eexists. split; [reflexivity|].
    now intros s' [= <-].
  - eexists. split; [reflexivity | discriminate].
Qed.

Lemma store_fresh_unchanged (σ : gmap nat span) (l : nat) (s s1 : span) :
  σ !! l = Some s -> <[fresh (dom σ) := s1]> σ !! l = Some s.
Proof.
  intros Hl. rewrite lookup_insert_ne; [exact Hl|].
  intros E. pose proof (is_fresh (dom σ)) as F. rewrite E in F.
  apply F. apply elem_of_dom. eauto.
Qed.

(** ** Insertion-ordered dictionaries *)

Section OrderedDict.

Context {V : Type}.
Implicit Types (d : list (string * V)) (k : string) (f : V -> V).

Lemma od_get_update k k' dflt f d :
  od_get k (od_update k' dflt f d)
  = if String.eqb k k' then Some (f (default dflt (od_get k' d)))
    else od_get k d.
Proof.
  induction d as [|[k0 v0] d IH]; cbn.
  - destruct (String.eqb k k'); reflexivity.
  - destruct (String.eqb_spec k' k0) as [->|N]; cbn.
    + destruct (String.eqb k k0); reflexivity.
    + destruct (String.eqb_spec k k0) as [->|N'].
      * destruct (String.eqb_spec k0 k'); [congruence | reflexivity].
      * exact IH.
Qed.

Lemma od_update_keys k dflt f d :
  map fst (od_update k dflt f d)
  = match od_get k d with
    | Some _ => map fst d
    | None => map fst d ++ [k]
    end.
Proof.
  induction d as [|[k0 v0] d IH]; cbn; [reflexivity|].
  destruct (String.eqb k k0); cbn; [reflexivity|].
  rewrite IH. now destruct (od_get k d).
Qed.

Lemma od_get_None k d : od_get k d = None -> ~ In k (map fst d).
Proof.
  induction d as [|[k0 v0] d IH]; cbn; [tauto|].
  destruct (String.eqb_spec k k0); [discriminate|].
  intros H [E|I]; [congruence | now apply IH].
Qed.

Lemma od_get_In k v d : od_get k d = Some v -> In (k, v) d.
Proof.
  induction d as [|[k0 v0] d IH]; cbn; [discriminate|].
  destruct (String.eqb_spec k k0) as [->|N].
  - intros [= ->]. now left.
  - intros H. right. now apply IH.
Qed.

Lemma od_update_NoDup k dflt f d :
  List.NoDup (map fst d) -> List.NoDup (map fst (od_update k dflt f d)).
Proof.
  intros ND. rewrite od_update_keys.
  destruct (od_get k d) eqn:G; [exact ND|].
  apply od_get_None in G.
  apply NoDup_rev in ND. rewrite <- (rev_involutive (map fst d ++ [k])).
  apply NoDup_rev. rewrite rev_app_distr. cbn.
  constructor; [|exact ND]. now rewrite <- in_rev.
Qed.

(** An invariant of all entries survives an update that respects it. *)
Lemma od_update_Forall (P : string -> V -> Prop) k dflt f d :
  Forall (fun kv => P (fst kv) (snd kv)) d ->
  P k (f dflt) ->
  (forall v, P k v -> P k (f v)) ->
  Forall (fun kv => P (fst kv) (snd kv)) (od_update k dflt f d).
Proof.
  intros HF Hd Hf. induction HF as [|[k0 v0] d H0 HF IH]; cbn.
  - constructor; [exact Hd | constructor].
  - destruct (String.eqb_spec k k0) as [->|N].
    + constructor; [apply Hf, H0 | exact HF].
    + constructor; [exact H0 | exact IH].
Qed.

(** With distinct keys, a concatenation over the entries that is
    empty away from [k] is the contribution of the entry at [k]. *)
Lemma flat_map_at_key {B : Type} (g : string * V -> list B) k d :
  List.NoDup (map fst d) ->
  (forall k' v, In (k', v) d -> k' <> k -> g (k', v) = []) ->
  flat_map g d = match od_get k d with
                 | Some v => g (k, v)
                 | None => []
                 end.
Proof.
  induction d as [|[k0 v0] d IH]; cbn; [reflexivity|].
  intros ND Hg. inversion ND as [|? ? Hnin ND']; subst.
  destruct (String.eqb_spec k k0) as [->|N].
  - assert (E : flat_map g d = []).
    { rewrite IH; [|exact ND'|intros; apply Hg; [now right | assumption]].
      destruct (od_get k0 d) eqn:G; [|reflexivity].
      apply od_get_In in G. exfalso. apply Hnin.
      change k0 with (fst (k0, v)). now apply in_map. }
    rewrite E. apply app_nil_r.
  - rewrite (Hg k0 v0); [|now left|congruence]. cbn.
    apply IH; [exact ND'|]. intros. apply Hg; [now right | assumption].
Qed.

End OrderedDict.

(** ** Counters *)

Lemma cget_cadd k n c k' :
  cget (cadd k n c) k' = cget c k' + (if String.eqb k k' then n else 0).
Proof.
  unfold cadd, cget. destruct (String.eqb_spec k k') as [->|N].
  - now rewrite lookup_insert_eq.
  - rewrite lookup_insert_ne by exact N. cbn. lia.
Qed.

Lemma cget_empty k : cget ∅ k = 0.
Proof. unfold cget. now rewrite lookup_empty. Qed.

(** ** Stage 1 *)

Section Ingest.

(** The first loop in closed form: it raises exactly when some line has
    an empty source, and otherwise counts the empty targets and groups
    the rest. *)
Lemma ingest_run lines :
  forall (lc : gmap string Z)
         (ltd : list (string * list (string * list annotation))),
  ingest lines lc ltd
  = if forallb has_src lines
    then Ok (fold_left (fun lc d => if has_tgt d then lc
                                    else cadd "target segment is empty" 1 lc)
                       lines lc,
             fold_left (fun ltd d => group_append d ltd) (kept lines) ltd)
    else Raise AssertionError.
Proof.
  induction lines as [|d lines IH]; intros lc ltd; [reflexivity|].
  cbn [ingest forallb fold_left]. unfold kept. cbn [List.filter].
  fold (has_src d). unfold has_tgt at 2 3.
  destruct (has_src d); cbn; [|reflexivity].
  destruct (len (tgt d) =? 0) eqn:E; cbn; apply IH.
Qed.

Lemma empty_target_count lines : forall (lc : gmap string Z) k,
  cget (fold_left (fun lc d => if has_tgt d then lc
                               else cadd "target segment is empty" 1 lc)
                  lines lc) k
  = cget lc k
    + (if String.eqb "target segment is empty" k
       then Z.of_nat (length (List.filter (fun d => negb (has_tgt d)) lines))
       else 0).
Proof.
  induction lines as [|d lines IH]; intros lc k; cbn [fold_left List.filter].
  - cbn [length]. destruct (String.eqb "target segment is empty" k); lia.
  - rewrite IH. destruct (has_tgt d) eqn:E; cbn [negb]; [reflexivity|].
    rewrite cget_cadd. cbn [length].
    destruct (String.eqb "target segment is empty" k); lia.
Qed.

Lemma group_append_well lines d ltd :
  In d lines -> has_tgt d = true ->
  well_grouped lines ltd -> well_grouped lines (group_append d ltd).
Proof.
  intros Hin Ht [ND HF]. split; [now apply od_update_NoDup|].
  unfold group_append.
  apply (od_update_Forall (group_ok lines)); [exact HF| |].
  - split; cbn; [repeat constructor; cbn; tauto|].
    repeat constructor; cbn; auto.
  - intros groups [NDg HFg]. split; [now apply od_update_NoDup|].
    apply (od_update_Forall
             (fun sg ds => Forall (fun d0 => langs d = langs d0
                                             /\ signature d0 = sg
                                             /\ In d0 lines
                                             /\ has_tgt d0 = true) ds));
      [exact HFg | repeat constructor; auto |].
    intros ds Hds. apply Forall_app. split; [exact Hds|].
    repeat constructor; auto.
Qed.

Lemma fold_group_append_well lines l : forall ltd,
  (forall d, In d l -> In d lines /\ has_tgt d = true) ->
  well_grouped lines ltd ->
  well_grouped lines (fold_left (fun ltd d => group_append d ltd) l ltd).
Proof.
  induction l as [|d l IH]; intros ltd Hl Hw; [exact Hw|].
  cbn. apply IH; [intros; apply Hl; now right|].
  destruct (Hl d) as [? ?]; [now left|]. now apply group_append_well.
Qed.

Lemma grouped_well lines : well_grouped lines (grouped lines).
Proof.
  apply fold_group_append_well.
  - intros d Hd. unfold kept in Hd. apply filter_In in Hd. exact Hd.
  - split; constructor.
Qed.

Lemma group_at_append lp sg d ltd :
  group_at lp sg (group_append d ltd)
  = group_at lp sg ltd ++ (if same_key lp sg d then [d] else []).
Proof.
  unfold group_at, group_append, same_key. rewrite od_get_update.
  rewrite (String.eqb_sym lp (langs d)).
  destruct (String.eqb_spec (langs d) lp) as [->|N]; cbn.
  - rewrite od_get_update. rewrite (String.eqb_sym sg (signature d)).
    destruct (String.eqb_spec (signature d) sg) as [->|N]; cbn.
    + destruct (od_get lp ltd) as [groups|]; cbn; [|reflexivity].
      now destruct (od_get sg groups).
    + rewrite app_nil_r. now destruct (od_get lp ltd).
  - now rewrite app_nil_r.
Qed.

Lemma group_at_fold lp sg l : forall ltd,
  group_at lp sg (fold_left (fun ltd d => group_append d ltd) l ltd)
  = group_at lp sg ltd ++ List.filter (same_key lp sg) l.
Proof.
  induction l as [|d l IH]; intros ltd; cbn [fold_left List.filter].
  - now rewrite app_nil_r.
  - rewrite IH, group_at_append, <- app_assoc.
    now destruct (same_key lp sg d).
Qed.

(** The list [langs_to_data[langs][signature]] after the first loop:
    the kept records with that key, in input order. *)
Lemma group_at_grouped lp sg lines :
  group_at lp sg (grouped lines) = List.filter (same_key lp sg) (kept lines).
Proof. unfold grouped. now rewrite group_at_fold. Qed.

End Ingest.

(** ** Stage 2 *)

Section Stage2.

Variable filter_on : bool.

Lemma assert_span_type_run sp :
  assert_span_type sp
  = if span_type_ok sp then Ok tt else Raise AssertionError.
Proof.
  unfold assert_span_type, span_type_ok, py_assert.
  destruct (is_int (start_i sp) || _); cbn; [|reflexivity].
  destruct (is_int (end_i sp) || _); cbn; reflexivity.
Qed.

(** The span loop, when it does not raise: it breaks exactly on a
    record with an invalid span under the filter, and otherwise has
    pushed every span. *)
Lemma span_loop_ok h spans : forall acc b acc',
  span_loop filter_on h spans acc = Ok (b, acc') ->
  b = negb (negb filter_on
            || forallb (fun sp => negb (is_invalid_span sp h)) spans)
  /\ (b = false ->
      forallb span_type_ok spans = true
      /\ acc' = fold_left (fun acc sp => push_span sp acc) spans acc).
Proof.
  induction spans as [|sp spans IH]; intros acc b acc'; cbn [span_loop].
  - intros [= <- <-]. cbn. rewrite orb_true_r. auto.
  - rewrite assert_span_type_run.
    destruct (span_type_ok sp) eqn:T; cbn; [|discriminate].
    destruct (filter_on && is_invalid_span sp h) eqn:C.
    + intros [= <- <-]. apply andb_true_iff in C as [-> ->]. cbn.
      split; [reflexivity | discriminate].
    + intros H. apply IH in H as [Hb Hacc]. split.
      * rewrite Hb. apply andb_false_iff in C as [->| ->]; reflexivity.
      * intros E. destruct (Hacc E) as [? ?]. rewrite T. cbn. auto.
Qed.

(** On spans of the asserted types the span loop does not raise. *)
Lemma span_loop_total h spans : forall acc,
  forallb span_type_ok spans = true ->
  exists b acc', span_loop filter_on h spans acc = Ok (b, acc').
Proof.
  induction spans as [|sp spans IH]; intros acc; cbn [span_loop forallb].
  - eauto.
  - intros [T Ts]%andb_true_iff. rewrite assert_span_type_run, T. cbn.
    destruct (filter_on && is_invalid_span sp h); eauto.
Qed.

Lemma sget_insert (stats : gmap string (gmap string Z)) lp c lp' k :
  sget (<[lp := c]> stats) lp' k
  = if String.eqb lp' lp then cget c k else sget stats lp' k.
Proof.
  unfold sget. destruct (String.eqb_spec lp' lp) as [->|N].
  - now rewrite lookup_insert_eq.
  - rewrite lookup_insert_ne by congruence. reflexivity.
Qed.

Lemma update_statistics_ok lp acc stats stats' :
  update_statistics lp acc stats = Ok stats' ->
  forall lp' k,
    sget stats' lp' k
    = sget stats lp' k + (if String.eqb lp' lp then acc_delta acc k else 0).
Proof.
  unfold update_statistics, acc_delta.
  destruct (error_types acc) as [|first rest]; [discriminate|].
  intros [= <-] lp' k. rewrite sget_insert. cbn [hd].
  destruct (String.eqb lp' lp) eqn:E; [|lia].
  apply String.eqb_eq in E. subst lp'.
  rewrite !cget_cadd. unfold sget.
  destruct (String.eqb first "no-error"); cbn [andb];
    rewrite ?cget_cadd;
    destruct (String.eqb "no-error" k); lia.
Qed.

Variable src_to_tgt : gmap string string.

Lemma make_row_ok d reference row :
  src_to_tgt !! src d = Some reference ->
  make_row d reference (add_sentinel (spans_acc (esa_spans d))) = Ok row ->
  row = row_of src_to_tgt d
  /\ (length (split_on "-" (langs d)) =? 2)%nat = true.
Proof.
  intros Href. unfold make_row, row_of. rewrite Href. cbn [default].
  destruct (split_on "-" (langs d)) as [|a [|b [|c parts]]];
    try discriminate.
  intros [= <-]. split; reflexivity.
Qed.

Lemma step_ok_refl lp st n : step_ok src_to_tgt lp [] st n st n.
Proof.
  unfold step_ok. cbn. rewrite app_nil_r.
  repeat split; try lia. intros. destruct (String.eqb lp' lp); lia.
Qed.

Lemma step_ok_trans lp sel1 sel2 st1 n1 st2 n2 st3 n3 :
  step_ok src_to_tgt lp sel1 st1 n1 st2 n2 -> step_ok src_to_tgt lp sel2 st2 n2 st3 n3 ->
  step_ok src_to_tgt lp (sel1 ++ sel2) st1 n1 st3 n3.
Proof.
  intros (E1 & D1 & S1 & N1 & L1) (E2 & D2 & S2 & N2 & L2).
  unfold step_ok. rewrite forallb_app, E1, E2, D2, D1, map_app, app_assoc.
  repeat split.
  - intros lp' k. rewrite S2, S1, map_app.
    destruct (String.eqb lp' lp); [|lia].
    unfold zsum. rewrite fold_right_app.
    induction (map (fun d => stat_delta d k) sel1) as [|z l IH]; cbn; lia.
  - rewrite length_app. lia.
  - intros k Hk. rewrite L2, L1 by exact Hk. reflexivity.
Qed.

Lemma datum_loop_ok lp ds : forall st n st' n',
  datum_loop filter_on src_to_tgt lp ds st n = Ok (st', n') ->
  step_ok src_to_tgt lp (chosen filter_on src_to_tgt ds) st n st' n'.
Proof.
  induction ds as [|d ds IH]; intros st n st' n'; cbn [datum_loop].
  - intros [= <- <-]. apply step_ok_refl.
  - unfold chosen. cbn [find]. unfold qualifies at 1.
    destruct (src_to_tgt !! src d) as [reference|] eqn:Href;
      [|intros H; apply IH in H; exact H].
    destruct (span_loop filter_on (tgt d) (esa_spans d) empty_acc)
      as [[b acc]|e] eqn:Hspans; cbn; [|discriminate].
    apply span_loop_ok in Hspans as [Hb Hacc].
    fold (no_invalid_span filter_on d) in Hb.
    destruct b.
    + symmetry in Hb. apply negb_true_iff in Hb. rewrite Hb.
      intros H. apply IH in H as (E & D & S & N & L).
      repeat split; auto.
      intros k Hk. rewrite L by exact Hk. cbn [log_counter].
      rewrite cget_cadd.
      destruct (String.eqb_spec "skip_datum_with_invalid_span" k);
        [congruence | lia].
    + symmetry in Hb. apply negb_false_iff in Hb. rewrite Hb.
      destruct (Hacc eq_refl) as [Ht ->]. fold (spans_acc (esa_spans d)).
      destruct (make_row d reference _) as [row|e] eqn:Hrow; cbn;
        [|discriminate].
      destruct (update_statistics lp _ (langs_to_statistics st))
        as [stats|e] eqn:Hstats; cbn; [|discriminate].
      intros [= <- <-]. cbn [data langs_to_statistics log_counter].
      apply (make_row_ok _ _ _ Href) in Hrow as [-> Hsplit].
      unfold step_ok. cbn [map length forallb zsum fold_right].
      unfold emit_ok. rewrite Ht, Hsplit. cbn.
      repeat split; try lia.
      intros lp' k. rewrite (update_statistics_ok _ _ _ _ Hstats).
      unfold stat_delta. destruct (String.eqb lp' lp); lia.
Qed.

Lemma signature_loop_ok lp groups : forall st n st' n',
  signature_loop filter_on src_to_tgt lp groups st n = Ok (st', n') ->
  step_ok src_to_tgt lp (chosen_groups filter_on src_to_tgt groups) st n st' n'.
Proof.
  induction groups as [|[sg ds] groups IH]; intros st n st' n';
    cbn [signature_loop].
  - intros [= <- <-]. apply step_ok_refl.
  - destruct (datum_loop filter_on src_to_tgt lp ds st n)
      as [[st1 n1]|e] eqn:Hd; cbn; [|discriminate].
    intros H. apply datum_loop_ok in Hd. apply IH in H.
    unfold chosen_groups. cbn [flat_map snd].
    exact (step_ok_trans _ _ _ _ _ _ _ _ _ Hd H).
Qed.

End Stage2.

Section Stage2Langs.

Variable load_dataset : string -> list ref_entry.
Variable filter_on : bool.

Lemma ref_map_some lp code :
  langs_to_wmt24pp_code !! lp = Some code ->
  ref_map load_dataset lp = build_src_to_tgt (load_dataset code).
Proof. unfold ref_map. now intros ->. Qed.

Lemma chosen_langs_some lp groups code :
  langs_to_wmt24pp_code !! lp = Some code ->
  chosen_langs load_dataset filter_on (lp, groups)
  = chosen_groups filter_on (build_src_to_tgt (load_dataset code)) groups.
Proof.
  intros H. unfold chosen_langs. cbn [fst snd].
  now rewrite (ref_map_some _ _ H), H.
Qed.

Lemma chosen_langs_none lp groups :
  langs_to_wmt24pp_code !! lp = None ->
  chosen_langs load_dataset filter_on (lp, groups) = [].
Proof. intros H. unfold chosen_langs. cbn [fst snd]. now rewrite H. Qed.

Lemma langs_loop_ok vsc ltd : forall st st',
  langs_loop load_dataset filter_on vsc ltd st = Ok st' ->
  stage2_ok load_dataset filter_on ltd st st'.
Proof.
  induction ltd as [|[lp groups] ltd IH]; intros st st'; cbn [langs_loop].
  - intros [= <-]. unfold stage2_ok. cbn. rewrite app_nil_r.
    repeat split; auto. intros; lia.
  - unfold stage2_ok. cbn [flat_map map zsum fold_right].
    unfold rows_langs at 1, langs_delta at 1. cbn [fst snd].
    destruct (langs_to_wmt24pp_code !! lp) as [code|] eqn:Hcode.
    + rewrite (chosen_langs_some _ _ _ Hcode), (ref_map_some _ _ Hcode).
      destruct (signature_loop filter_on _ lp groups st 0)
        as [[st1 n1]|e] eqn:Hs; cbn -[langs_to_wmt24pp_code];
        [|discriminate].
      intros H. apply IH in H as (E & D & S & L).
      apply signature_loop_ok in Hs as (E1 & D1 & S1 & _ & L1).
      cbn [data langs_to_statistics log_counter] in *.
      rewrite forallb_app, E1, E, D, D1, app_assoc.
      repeat split.
      * intros lp' k. rewrite S, S1. unfold zsum. lia.
      * intros k K1 K2. rewrite L by assumption. rewrite cget_cadd.
        rewrite L1 by assumption.
        destruct (String.eqb_spec "num_skipped_valid_signatures" k);
          [congruence | lia].
    + rewrite (chosen_langs_none _ _ Hcode).
      intros H. apply IH in H as (E & D & S & L).
      cbn -[langs_to_wmt24pp_code].
      repeat split; auto.
      intros lp' k. rewrite S. unfold zsum.
      destruct (String.eqb lp' lp); lia.
Qed.

End Stage2Langs.

(** ** Splitting and joining *)

Section SplitJoin.

Variable c : ascii.

Lemma split_on_nonempty s : split_on c s <> [].
Proof.
  destruct s as [|a s]; cbn -[Ascii.eqb]; [discriminate|].
  destruct (Ascii.eqb a c); [discriminate|].
  destruct (split_on c s); discriminate.
Qed.

Lemma concat_cons sep w l :
  l <> [] -> String.concat sep (w :: l) = w +:+ sep +:+ String.concat sep l.
Proof. destruct l; [congruence | reflexivity]. Qed.

(** [c.join(s.split(c)) == s] *)
Lemma join_split s : String.concat (String c EmptyString) (split_on c s) = s.
Proof.
  induction s as [|a s IH]; [reflexivity|]. cbn [split_on].
  destruct (Ascii.eqb_spec a c) as [->|N].
  - rewrite concat_cons by apply split_on_nonempty. cbn -[Ascii.eqb].
    now rewrite IH.
  - destruct (split_on c s) as [|w ws] eqn:E;
      [now apply split_on_nonempty in E|].
    rewrite <- IH. destruct ws; reflexivity.
Qed.

Lemma split_free s : free_of c s = true -> split_on c s = [s].
Proof.
  induction s as [|a s IH]; [reflexivity|]. cbn -[Ascii.eqb].
  intros [Ha Hs]%andb_true_iff. apply negb_true_iff in Ha.
  now rewrite Ha, (IH Hs).
Qed.

Lemma append_cons a w s : String a w +:+ s = String a (w +:+ s).
Proof. reflexivity. Qed.

Lemma append_nil_l s : EmptyString +:+ s = s.
Proof. reflexivity. Qed.

Lemma split_app_sep w s :
  free_of c w = true ->
  split_on c (w +:+ String c s) = w :: split_on c s.
Proof.
  induction w as [|a w IH].
  - intros _. change (EmptyString +:+ String c s) with (String c s).
    cbn [split_on]. now rewrite Ascii.eqb_refl.
  - cbn [free_of]. intros [Ha Hw]%andb_true_iff. apply negb_true_iff in Ha.
    rewrite append_cons. cbn [split_on]. now rewrite Ha, (IH Hw).
Qed.

(** [c.join(l).split(c) == l] for a non-empty list of words free of [c] *)
Lemma split_join l :
  l <> [] -> forallb (free_of c) l = true ->
  split_on c (String.concat (String c EmptyString) l) = l.
Proof.
  induction l as [|w l IH]; [congruence|]. intros _.
  cbn [forallb]. intros [Hw Hl]%andb_true_iff.
  destruct l as [|w' l]; [now apply split_free|].
  rewrite concat_cons by discriminate.
  rewrite (append_cons c EmptyString), append_nil_l.
  rewrite split_app_sep by exact Hw. f_equal. now apply IH.
Qed.

End SplitJoin.

(** ** Tokens of the row columns *)

Lemma pretty_N_char_not_space x : Ascii.eqb (pretty_N_char x) " " = false.
Proof. unfold pretty_N_char. repeat case_match; reflexivity. Qed.

Lemma pretty_N_go_free x : forall s,
  free_of " " s = true -> free_of " " (pretty_N_go x s) = true.
Proof.
  induction x as [x IH] using (well_founded_induction N.lt_wf_0).
  intros s Hs. destruct (N.eq_dec x 0%N) as [->|Hx].
  - now rewrite pretty_N_go_0.
  - rewrite pretty_N_go_step by lia. apply IH.
    + apply N.div_lt; lia.
    + cbn [free_of]. now rewrite pretty_N_char_not_space, Hs.
Qed.

Lemma pretty_N_free (x : N) : free_of " " (pretty x) = true.
Proof.
  unfold pretty, pretty_N. destruct (decide (x = 0%N)); [reflexivity|].
  now apply pretty_N_go_free.
Qed.

(** The decimal numeral of an integer has no space in it. *)
Lemma pretty_Z_free (z : Z) : free_of " " (pretty z) = true.
Proof.
  destruct z as [|q|q]; [reflexivity| |].
  - apply (pretty_N_free (N.pos q)).
  - change (pretty (Z.neg q)) with ("-" +:+ pretty (N.pos q)).
    rewrite append_cons, append_nil_l. cbn [free_of].
    now rewrite (pretty_N_free (N.pos q)).
Qed.

Lemma span_type_ok_bounds sp :
  span_type_ok sp = true ->
  (exists a b, start_i sp = PInt a /\ end_i sp = PInt b)
  \/ (start_i sp = missing /\ end_i sp = missing).
Proof.
  unfold span_type_ok. intros [[H1 H2]%andb_true_iff _]%andb_true_iff.
  destruct sp as [[a|t|] [b|u|] sev]; cbn -[String.eqb] in H1, H2 |- *;
    try rewrite andb_false_r in H1; try rewrite andb_false_r in H2;
    try discriminate.
  - left. eauto.
  - apply andb_true_iff in H1 as [E1%String.eqb_eq E2%String.eqb_eq].
    subst. now right.
Qed.

Lemma span_type_ok_severity sp :
  span_type_ok sp = true ->
  In (severity sp) ["major"; "minor"; "undecided"].
Proof.
  unfold span_type_ok. intros [_ H]%andb_true_iff. now apply str_in_In.
Qed.

Lemma span_type_ok_free sp :
  span_type_ok sp = true ->
  free_of " " (py_str (start_i sp)) = true
  /\ free_of " " (py_str (end_i sp)) = true
  /\ free_of " " (severity sp) = true.
Proof.
  intros H. pose proof (span_type_ok_severity _ H) as Hs.
  destruct (span_type_ok_bounds _ H) as [(a & b & -> & ->) | [-> ->]]; cbn [py_str];
    (repeat split; try apply pretty_Z_free; try reflexivity);
    cbn in Hs; destruct Hs as [<-|[<-|[<-|[]]]]; reflexivity.
Qed.

(** The locals of a completed span loop, column by column. *)
Lemma fold_push_columns spans : forall acc,
  let acc' := fold_left (fun acc sp => push_span sp acc) spans acc in
  start_indices acc' = start_indices acc ++ map (fun sp => py_str (start_i sp)) spans
  /\ end_indices acc' = end_indices acc ++ map (fun sp => py_str (end_i sp)) spans
  /\ error_types acc' = error_types acc ++ map severity spans.
Proof.
  induction spans as [|sp spans IH]; intros acc; cbn.
  - now rewrite !app_nil_r.
  - destruct (IH (push_span sp acc)) as (E1 & E2 & E3).
    rewrite E1, E2, E3. cbn. now rewrite <- !app_assoc.
Qed.

Lemma spans_acc_columns spans :
  start_indices (spans_acc spans) = map (fun sp => py_str (start_i sp)) spans
  /\ end_indices (spans_acc spans) = map (fun sp => py_str (end_i sp)) spans
  /\ error_types (spans_acc spans) = map severity spans.
Proof. apply (fold_push_columns spans empty_acc). Qed.

(** ** Rows *)

Lemma add_sentinel_spans spans :
  add_sentinel (spans_acc spans)
  = match spans with
    | [] => mkAcc ["-1"] ["-1"] ["no-error"] ∅
    | _ => spans_acc spans
    end.
Proof.
  unfold add_sentinel. destruct (spans_acc_columns spans) as (E & _ & _).
  rewrite E. destruct spans; reflexivity.
Qed.

(** The three span columns of a row: the sentinel for a record without
    spans, and otherwise one token per span, the raw bounds and severity
    printed as they are. *)
Lemma row_of_tokens m d :
  forallb span_type_ok (esa_spans d) = true ->
  match esa_spans d with
  | [] => OutputRow.start_indices (row_of m d) = "-1"
          /\ OutputRow.end_indices (row_of m d) = "-1"
          /\ OutputRow.error_types (row_of m d) = "no-error"
  | _ => tokens (OutputRow.start_indices (row_of m d))
         = map (fun sp => py_str (start_i sp)) (esa_spans d)
         /\ tokens (OutputRow.end_indices (row_of m d))
            = map (fun sp => py_str (end_i sp)) (esa_spans d)
         /\ tokens (OutputRow.error_types (row_of m d)) = map severity (esa_spans d)
  end.
Proof.
  intros Ht. unfold row_of. cbn [OutputRow.start_indices OutputRow.end_indices OutputRow.error_types].
  rewrite add_sentinel_spans.
  destruct (esa_spans d) as [|sp spans] eqn:E; [repeat split|].
  destruct (spans_acc_columns (sp :: spans)) as (-> & -> & ->).
  assert (F : Forall (fun sp => span_type_ok sp = true) (sp :: spans)).
  { apply List.Forall_forall. intros x Hx. rewrite forallb_forall in Ht.
    now apply Ht. }
  unfold tokens, join_sp.
  repeat split; apply split_join; try discriminate;
    apply forallb_forall; intros w Hw; apply in_map_iff in Hw as (x & <- & Hx);
    rewrite List.Forall_forall in F; apply F in Hx;
    destruct (span_type_ok_free _ Hx) as (? & ? & ?); assumption.
Qed.

Lemma row_of_signature m d : row_signature (row_of m d) = signature d.
Proof. reflexivity. Qed.

Lemma row_of_langs m d : emit_ok d = true -> row_langs (row_of m d) = langs d.
Proof.
  unfold emit_ok. intros [_ H]%andb_true_iff. apply Nat.eqb_eq in H.
  unfold row_langs, row_of. cbn [OutputRow.source_lang OutputRow.target_lang].
  rewrite <- (join_split "-" (langs d)) at 3.
  destruct (split_on "-" (langs d)) as [|a [|b [|x parts]]]; try discriminate.
  reflexivity.
Qed.

(** ** The chosen records *)

Lemma chosen_In filter_on m ds d :
  In d (chosen filter_on m ds) -> In d ds /\ qualifies filter_on m d = true.
Proof.
  unfold chosen. destruct (find _ ds) as [d'|] eqn:F; [|intros []].
  intros [<-|[]]. now apply find_some in F.
Qed.

Lemma chosen_groups_In filter_on m groups d :
  In d (chosen_groups filter_on m groups) ->
  exists g, In g groups /\ In d (snd g) /\ qualifies filter_on m d = true.
Proof.
  unfold chosen_groups. intros (g & Hg & Hd)%in_flat_map.
  apply chosen_In in Hd as [? ?]. eauto.
Qed.

Lemma filter_flat_map {A B : Type} (p : B -> bool) (g : A -> list B) l :
  List.filter p (flat_map g l) = flat_map (fun x => List.filter p (g x)) l.
Proof.
  induction l as [|x l IH]; [reflexivity|]. cbn.
  now rewrite List.filter_app, IH.
Qed.

Lemma filter_all {A : Type} (p : A -> bool) l :
  (forall x, In x l -> p x = true) -> List.filter p l = l.
Proof.
  induction l as [|x l IH]; [reflexivity|]. intros H. cbn.
  rewrite (H x) by now left. f_equal. apply IH. intros; apply H; now right.
Qed.

Lemma filter_none {A : Type} (p : A -> bool) l :
  (forall x, In x l -> p x = false) -> List.filter p l = [].
Proof.
  induction l as [|x l IH]; [reflexivity|]. intros H. cbn.
  rewrite (H x) by now left. apply IH. intros; apply H; now right.
Qed.

Lemma zsum_at_key {V : Type} (g : string * V -> Z) k (d : list (string * V)) :
  List.NoDup (map fst d) ->
  (forall k' v, In (k', v) d -> k' <> k -> g (k', v) = 0) ->
  zsum (map g d) = match od_get k d with
                   | Some v => g (k, v)
                   | None => 0
                   end.
Proof.
  induction d as [|[k0 v0] d IH]; cbn; [reflexivity|].
  intros ND Hg. inversion ND as [|? ? Hnin ND']; subst.
  destruct (String.eqb_spec k k0) as [->|N].
  - assert (E : zsum (map g d) = 0).
    { rewrite IH; [|exact ND'|intros; apply Hg; [now right | assumption]].
      destruct (od_get k0 d) eqn:G; [|reflexivity].
      apply od_get_In in G. exfalso. apply Hnin.
      change k0 with (fst (k0, v)). now apply in_map. }
    unfold zsum in E. rewrite E. lia.
  - rewrite (Hg k0 v0); [|now left|congruence].
    rewrite <- IH; [reflexivity | exact ND' |].
    intros. apply Hg; [now right | assumption].
Qed.

(** ** The per-record counter *)

Lemma count_if_cons {A : Type} (p : A -> bool) x l :
  count_if p (x :: l) = (if p x then 1 else 0) + count_if p l.
Proof.
  unfold count_if. cbn [List.filter]. destruct (p x); cbn [length]; lia.
Qed.

Lemma count_if_ext {A : Type} (p q : A -> bool) l :
  (forall x, In x l -> p x = q x) -> count_if p l = count_if q l.
Proof.
  intros H. unfold count_if. now rewrite (filter_ext_in p q l H).
Qed.

Lemma fold_push_counter spans : forall acc k,
  cget (esa_counter (fold_left (fun acc sp => push_span sp acc) spans acc)) k
  = cget (esa_counter acc) k
    + count_if (fun sp => String.eqb (bucket sp) k) spans.
Proof.
  induction spans as [|sp spans IH]; intros acc k; cbn [fold_left].
  - unfold count_if. cbn. lia.
  - rewrite IH, count_if_cons. unfold push_span, bucket. cbn [esa_counter].
    destruct (py_eq (start_i sp) (end_i sp)); rewrite cget_cadd; lia.
Qed.

Lemma spans_acc_counter spans k :
  cget (esa_counter (spans_acc spans)) k
  = count_if (fun sp => String.eqb (bucket sp) k) spans.
Proof.
  unfold spans_acc. rewrite fold_push_counter. cbn [esa_counter empty_acc].
  rewrite cget_empty. lia.
Qed.

Lemma sentinel_counter spans k :
  cget (esa_counter (add_sentinel (spans_acc spans))) k
  = count_if (fun sp => String.eqb (bucket sp) k) spans.
Proof.
  rewrite add_sentinel_spans. destruct spans as [|sp spans].
  - cbn [esa_counter]. now rewrite cget_empty.
  - apply spans_acc_counter.
Qed.

Lemma acc_delta_missing acc :
  acc_delta acc "missing" = cget (esa_counter acc) "missing".
Proof.
  unfold acc_delta.
  change (String.eqb "no-error" "missing") with false.
  change (String.eqb "major" "missing") with false.
  change (String.eqb "minor" "missing") with false.
  change (String.eqb "missing" "missing") with true.
  rewrite andb_false_r. lia.
Qed.

Lemma acc_delta_minor acc :
  acc_delta acc "minor" = cget (esa_counter acc) "minor".
Proof.
  unfold acc_delta.
  change (String.eqb "no-error" "minor") with false.
  change (String.eqb "major" "minor") with false.
  change (String.eqb "minor" "minor") with true.
  change (String.eqb "missing" "minor") with false.
  rewrite andb_false_r. lia.
Qed.

(** What a chosen record adds to the "missing" bucket: the spans whose
    start equals their end. *)
Lemma stat_delta_missing d :
  forallb span_type_ok (esa_spans d) = true ->
  stat_delta d "missing"
  = count_if (fun sp => py_eq (start_i sp) (end_i sp)) (esa_spans d).
Proof.
  intros Ht. unfold stat_delta. rewrite acc_delta_missing, sentinel_counter.
  apply count_if_ext. intros sp Hsp. rewrite forallb_forall in Ht.
  pose proof (span_type_ok_severity _ (Ht sp Hsp)) as Hs.
  unfold bucket. destruct (py_eq (start_i sp) (end_i sp)); [reflexivity|].
  cbn in Hs. destruct Hs as [<-|[<-|[<-|[]]]]; reflexivity.
Qed.

(** What it adds to the "minor" bucket: the minor spans whose start
    differs from their end. *)
Lemma stat_delta_minor d :
  stat_delta d "minor"
  = count_if (fun sp => negb (py_eq (start_i sp) (end_i sp))
                        && String.eqb (severity sp) "minor") (esa_spans d).
Proof.
  unfold stat_delta. rewrite acc_delta_minor, sentinel_counter.
  apply count_if_ext. intros sp _. unfold bucket.
  now destruct (py_eq (start_i sp) (end_i sp)).
Qed.

(** What it adds to the "no-error" counter: one if it has no span. *)
Lemma stat_delta_no_error d :
  forallb span_type_ok (esa_spans d) = true ->
  stat_delta d "no-error" = match esa_spans d with [] => 1 | _ => 0 end.
Proof.
  intros Ht. unfold stat_delta, acc_delta. rewrite add_sentinel_spans.
  destruct (esa_spans d) as [|sp spans]; [reflexivity|].
  destruct (spans_acc_columns (sp :: spans)) as (_ & _ & ->).
  cbn [map hd forallb] in *. apply andb_true_iff in Ht as [Ht _].
  pose proof (span_type_ok_severity _ Ht) as Hs.
  cbn in Hs. destruct Hs as [<-|[<-|[<-|[]]]]; reflexivity.
Qed.

Lemma map_over_flat_map {A B C : Type} (f : B -> C) (g : A -> list B) l :
  map f (flat_map g l) = flat_map (fun x => map f (g x)) l.
Proof.
  induction l as [|x l IH]; [reflexivity|]. cbn. now rewrite map_app, IH.
Qed.

(** ** A run of [main] that does not raise *)

Section Main.

Variable load_dataset : string -> list ref_entry.
Variable filter_on : bool.
Variable lines : list annotation.
Variable out : pstate.
Hypothesis Hmain : main load_dataset lines filter_on = Ok out.

Lemma main_stage2 :
  forallb has_src lines = true
  /\ exists lc,
       stage2_ok load_dataset filter_on (grouped lines) (mkState lc ∅ []) out
       /\ forall k,
            cget lc k
            = if String.eqb "target segment is empty" k
              then Z.of_nat (length (List.filter (fun d => negb (has_tgt d)) lines))
              else 0.
Proof.
  revert Hmain. unfold main. rewrite ingest_run.
  destruct (forallb has_src lines); cbn -[langs_loop String.eqb];
    [|discriminate].
  intros H. apply langs_loop_ok in H. split; [reflexivity|].
  eexists. split; [exact H|].
  intros k. rewrite empty_target_count, cget_empty. lia.
Qed.

Lemma main_has_src : forallb has_src lines = true.
Proof. apply main_stage2. Qed.

Lemma main_emit_ok :
  forallb emit_ok (flat_map (chosen_langs load_dataset filter_on) (grouped lines))
  = true.
Proof. destruct main_stage2 as (_ & lc & (E & _) & _). exact E. Qed.

Lemma main_data :
  data out = flat_map (rows_langs load_dataset filter_on) (grouped lines).
Proof. destruct main_stage2 as (_ & lc & (_ & D & _) & _). exact D. Qed.

Lemma main_stats lp k :
  sget (langs_to_statistics out) lp k
  = zsum (map (langs_delta load_dataset filter_on lp k) (grouped lines)).
Proof.
  destruct main_stage2 as (_ & lc & (_ & _ & S & _) & _). rewrite S.
  cbn [langs_to_statistics]. unfold sget at 1. rewrite lookup_empty. cbn.
  rewrite cget_empty. lia.
Qed.

Lemma main_empty_targets :
  cget (log_counter out) "target segment is empty"
  = Z.of_nat (length (List.filter (fun d => negb (has_tgt d)) lines)).
Proof.
  destruct main_stage2 as (_ & lc & (_ & _ & _ & L) & Hlc).
  rewrite L by discriminate. cbn [log_counter]. now rewrite Hlc.
Qed.

(** What is known of a record chosen under an entry of the grouped
    input. *)
Lemma chosen_langs_facts e d :
  In e (grouped lines) -> In d (chosen_langs load_dataset filter_on e) ->
  langs d = fst e /\ In d lines /\ has_tgt d = true /\ emit_ok d = true
  /\ qualifies filter_on (ref_map load_dataset (fst e)) d = true
  /\ exists g, In g (snd e) /\ In d (snd g) /\ signature d = fst g.
Proof.
  intros He Hd.
  assert (Hok : emit_ok d = true).
  { pose proof main_emit_ok as E. rewrite forallb_forall in E. apply E.
    apply in_flat_map. eauto. }
  unfold chosen_langs in Hd.
  destruct (langs_to_wmt24pp_code !! fst e); [|destruct Hd].
  apply chosen_groups_In in Hd as (g & Hg & Hdg & Hq).
  destruct (grouped_well lines) as [_ HF].
  rewrite List.Forall_forall in HF. destruct (HF e He) as [_ HG].
  rewrite List.Forall_forall in HG. specialize (HG g Hg).
  rewrite List.Forall_forall in HG. destruct (HG d Hdg) as (E1 & E2 & E3 & E4).
  repeat split; eauto.
Qed.

Lemma emitted_facts lp d :
  In d (emitted load_dataset filter_on lines lp) ->
  langs d = lp /\ In d lines /\ has_tgt d = true /\ emit_ok d = true
  /\ qualifies filter_on (ref_map load_dataset lp) d = true.
Proof.
  unfold emitted. destruct (od_get lp (grouped lines)) as [groups|] eqn:G;
    [|intros []].
  intros Hd. apply od_get_In in G.
  destruct (chosen_langs_facts _ _ G Hd) as (? & ? & ? & ? & ? & _).
  auto.
Qed.

(** The rows of one language pair are the rows of its chosen records. *)
Lemma rows_by_langs lp :
  List.filter (fun r => String.eqb (row_langs r) lp) (data out)
  = map (row_of (ref_map load_dataset lp))
        (emitted load_dataset filter_on lines lp).
Proof.
  rewrite main_data, filter_flat_map.
  destruct (grouped_well lines) as [ND _].
  rewrite (flat_map_at_key _ lp _ ND).
  - unfold emitted. destruct (od_get lp (grouped lines)) as [groups|] eqn:G;
      [|reflexivity].
    apply od_get_In in G. unfold rows_langs. cbn [fst].
    apply filter_all. intros r (d & <- & Hd)%in_map_iff.
    destruct (chosen_langs_facts _ _ G Hd) as (E & _ & _ & Hok & _).
    rewrite (row_of_langs _ _ Hok), E. apply String.eqb_refl.
  - intros lp' groups He N. apply filter_none.
    unfold rows_langs. intros r (d & <- & Hd)%in_map_iff.
    destruct (chosen_langs_facts _ _ He Hd) as (E & _ & _ & Hok & _).
    rewrite (row_of_langs _ _ Hok), E. now apply String.eqb_neq.
Qed.

(** The statistics of one language pair are the sums over its chosen
    records. *)
Lemma stats_by_langs lp k :
  sget (langs_to_statistics out) lp k
  = zsum (map (fun d => stat_delta d k)
              (emitted load_dataset filter_on lines lp)).
Proof.
  rewrite main_stats. destruct (grouped_well lines) as [ND _].
  rewrite (zsum_at_key _ lp _ ND).
  - unfold emitted, langs_delta. cbn [fst].
    destruct (od_get lp (grouped lines)); [|reflexivity].
    now rewrite String.eqb_refl.
  - intros lp' groups _ N. unfold langs_delta. cbn [fst].
    destruct (String.eqb_spec lp lp'); [congruence | reflexivity].
Qed.

(** The rows of one language pair and signature: the row of the first
    qualifying record of that key, if the pair is supported and there
    is such a record, and nothing otherwise. *)
Lemma rows_by_signature lp sg :
  List.filter (fun r => String.eqb (row_signature r) sg)
    (List.filter (fun r => String.eqb (row_langs r) lp) (data out))
  = map (row_of (ref_map load_dataset lp))
        (match langs_to_wmt24pp_code !! lp with
         | Some _ => chosen filter_on (ref_map load_dataset lp)
                       (List.filter (same_key lp sg) (kept lines))
         | None => []
         end).
Proof.
  rewrite rows_by_langs, <- group_at_grouped. unfold emitted, group_at.
  destruct (od_get lp (grouped lines)) as [groups|] eqn:G; cbn [mbind option_bind default];
    [|now destruct (langs_to_wmt24pp_code !! lp)].
  apply od_get_In in G as Hin.
  unfold chosen_langs. cbn [fst snd].
  destruct (langs_to_wmt24pp_code !! lp) eqn:T; [|reflexivity].
  destruct (grouped_well lines) as [_ HF].
  rewrite List.Forall_forall in HF. destruct (HF _ Hin) as [NDg HG].
  cbn [fst snd] in NDg, HG. rewrite List.Forall_forall in HG.
  assert (Hsig : forall g d, In g groups ->
                             In d (chosen filter_on (ref_map load_dataset lp) (snd g)) ->
                             signature d = fst g).
  { intros g d Hg Hd. apply chosen_In in Hd as [Hd _].
    specialize (HG g Hg). rewrite List.Forall_forall in HG.
    now destruct (HG d Hd) as (_ & ? & _). }
  unfold chosen_groups. rewrite map_over_flat_map, filter_flat_map.
  rewrite (flat_map_at_key _ sg _ NDg).
  - destruct (od_get sg groups) as [ds|] eqn:Gs; cbn [default]; [|reflexivity].
    apply od_get_In in Gs. cbn [snd].
    apply filter_all. intros r (d & <- & Hd)%in_map_iff.
    rewrite row_of_signature, (Hsig (sg, ds) d Gs Hd). apply String.eqb_refl.
  - intros sg' ds' Hg N. apply filter_none.
    intros r (d & <- & Hd)%in_map_iff.
    rewrite row_of_signature, (Hsig (sg', ds') d Hg Hd).
    now apply String.eqb_neq.
Qed.

(** Every row of the table is the row of a chosen input record. *)
Lemma row_origin r :
  In r (data out) ->
  exists d, In d lines /\ has_tgt d = true /\ emit_ok d = true
            /\ qualifies filter_on (ref_map load_dataset (langs d)) d = true
            /\ r = row_of (ref_map load_dataset (langs d)) d.
Proof.
  rewrite main_data. intros (e & He & Hr)%in_flat_map.
  unfold rows_langs in Hr. apply in_map_iff in Hr as (d & <- & Hd).
  destruct (chosen_langs_facts _ _ He Hd) as (E & ? & ? & ? & ? & _).
  exists d. rewrite E. auto.
Qed.

End Main.

(** ** Records after the chosen one, and records without a target *)

Section Independence.

Variable filter_on : bool.

(** Once a record qualifies, the loop over its signature never looks
    at the records behind it. *)
Lemma datum_loop_break m lp pre d post post' : forall st n,
  qualifies filter_on m d = true ->
  datum_loop filter_on m lp (pre ++ d :: post) st n
  = datum_loop filter_on m lp (pre ++ d :: post') st n.
Proof.
  intros st n Hq. revert st n.
  induction pre as [|x pre IH]; intros st n; cbn [app datum_loop].
  - unfold qualifies in Hq. destruct (m !! src d); [|discriminate].
    destruct (span_loop filter_on (tgt d) (esa_spans d) empty_acc)
      as [[b acc]|e] eqn:E; cbn -[String.eqb]; [|reflexivity].
    apply span_loop_ok in E as [Hb _].
    fold (no_invalid_span filter_on d) in Hb. rewrite Hq in Hb.
    subst b. reflexivity.
  - destruct (m !! src x); [|apply IH].
    destruct (span_loop filter_on (tgt x) (esa_spans x) empty_acc)
      as [[[|] acc]|e]; cbn -[String.eqb]; auto.
Qed.

Variable c : Z.

Lemma datum_loop_agree m lp ds : forall st1 st2 n,
  agree_upto c st1 st2 ->
  agree_res (agree_pair c)
    (datum_loop filter_on m lp ds st1 n) (datum_loop filter_on m lp ds st2 n).
Proof.
  induction ds as [|d ds IH]; intros st1 st2 n H; cbn [datum_loop].
  - split; [exact H | reflexivity].
  - destruct (m !! src d) as [reference|]; [|now apply IH].
    destruct (span_loop filter_on (tgt d) (esa_spans d) empty_acc)
      as [[[|] acc]|e]; cbn -[String.eqb]; [| |reflexivity].
    + apply IH. destruct H as (D & S & L). repeat split; cbn -[String.eqb]; auto.
      intros k. rewrite !cget_cadd, L. lia.
    + destruct H as (D & S & L). rewrite S, D.
      destruct (make_row d reference (add_sentinel acc)); cbn -[String.eqb]; [|reflexivity].
      destruct (update_statistics lp (add_sentinel acc) (langs_to_statistics st2));
        cbn -[String.eqb]; [|reflexivity].
      repeat split; cbn -[String.eqb]; auto.
Qed.

Lemma signature_loop_agree m lp groups : forall st1 st2 n,
  agree_upto c st1 st2 ->
  agree_res (agree_pair c)
    (signature_loop filter_on m lp groups st1 n)
    (signature_loop filter_on m lp groups st2 n).
Proof.
  induction groups as [|[sg ds] groups IH]; intros st1 st2 n H;
    cbn [signature_loop].
  - split; [exact H | reflexivity].
  - pose proof (datum_loop_agree m lp ds st1 st2 n H) as Hd.
    destruct (datum_loop filter_on m lp ds st1 n) as [[a1 n1]|e1],
             (datum_loop filter_on m lp ds st2 n) as [[a2 n2]|e2];
      cbn -[String.eqb] in Hd |- *; try contradiction; [|exact Hd].
    destruct Hd as [Ha Hn]. cbn -[String.eqb] in Ha, Hn. subst n2. now apply IH.
Qed.

Lemma langs_loop_agree load_dataset vsc ltd : forall st1 st2,
  agree_upto c st1 st2 ->
  agree_res (agree_upto c)
    (langs_loop load_dataset filter_on vsc ltd st1)
    (langs_loop load_dataset filter_on vsc ltd st2).
Proof.
  induction ltd as [|[lp groups] ltd IH]; intros st1 st2 H; cbn [langs_loop].
  - exact H.
  - destruct (langs_to_wmt24pp_code !! lp) as [code|]; [|now apply IH].
    pose proof (signature_loop_agree (build_src_to_tgt (load_dataset code))
                  lp groups st1 st2 0 H) as Hs.
    destruct (signature_loop filter_on _ lp groups st1 0) as [[a1 n1]|e1],
             (signature_loop filter_on _ lp groups st2 0) as [[a2 n2]|e2];
      cbn -[langs_to_wmt24pp_code String.eqb] in Hs |- *; try contradiction; [|exact Hs].
    destruct Hs as [(D & S & L) Hn]. cbn -[String.eqb] in D, S, L, Hn. subst n2.
    apply IH. repeat split; cbn -[String.eqb]; auto.
    intros k. rewrite !cget_cadd, L. lia.
Qed.

End Independence.

Lemma kept_idem lines : kept (kept lines) = kept lines.
Proof.
  unfold kept. induction lines as [|d lines IH]; [reflexivity|]. cbn.
  destruct (has_tgt d) eqn:E; cbn; [rewrite E; f_equal|]; exact IH.
Qed.

Lemma kept_has_src lines :
  forallb has_src lines = true -> forallb has_src (kept lines) = true.
Proof.
  rewrite !forallb_forall. intros H d Hd. apply H.
  unfold kept in Hd. now apply filter_In in Hd.
Qed.

Lemma kept_no_empty_target lines :
  List.filter (fun d => negb (has_tgt d)) (kept lines) = [].
Proof.
  apply filter_none. intros d Hd. unfold kept in Hd.
  apply filter_In in Hd as [_ ->]. reflexivity.
Qed.

(** Dropping the lines without a target changes nothing but the counter
    of such lines. *)
Lemma main_without_empty_targets load_dataset filter_on lines :
  forallb has_src lines = true ->
  agree_res (agree_upto (count_if (fun d => negb (has_tgt d)) lines))
    (main load_dataset lines filter_on)
    (main load_dataset (kept lines) filter_on).
Proof.
  intros Hs. unfold main. rewrite !ingest_run, Hs, (kept_has_src _ Hs), kept_idem.
  cbn -[langs_loop String.eqb].
  apply langs_loop_agree. repeat split. cbn [log_counter].
  intros k. rewrite !empty_target_count, kept_no_empty_target, !cget_empty.
  unfold count_if. cbn [length].
  destruct (String.eqb "target segment is empty" k); lia.
Qed.

(** ** Runs that do not raise *)

Lemma supported_split lp code :
  langs_to_wmt24pp_code !! lp = Some code ->
  (length (split_on "-" lp) =? 2)%nat = true.
Proof.
  unfold langs_to_wmt24pp_code. cbn [list_to_map foldr uncurry fst snd].
  rewrite !lookup_insert, lookup_empty.
  repeat case_decide; subst; try discriminate; intros _; reflexivity.
Qed.

Section Totality.

Variable filter_on : bool.

Lemma update_statistics_total lp spans stats :
  exists stats',
    update_statistics lp (add_sentinel (spans_acc spans)) stats = Ok stats'.
Proof.
  unfold update_statistics. rewrite add_sentinel_spans.
  destruct spans as [|sp spans]; [cbn [error_types]; eauto|].
  destruct (spans_acc_columns (sp :: spans)) as (_ & _ & ->). cbn [map]. eauto.
Qed.

Lemma make_row_total d reference acc :
  (length (split_on "-" (langs d)) =? 2)%nat = true ->
  exists row, make_row d reference acc = Ok row.
Proof.
  intros H. apply Nat.eqb_eq in H. unfold make_row.
  destruct (split_on "-" (langs d)) as [|a [|b [|x parts]]];
    try discriminate. eauto.
Qed.

Lemma datum_loop_total m lp ds : forall st n,
  (forall d, In d ds -> emit_ok d = true) ->
  exists st' n', datum_loop filter_on m lp ds st n = Ok (st', n').
Proof.
  induction ds as [|d ds IH]; intros st n Hds; cbn [datum_loop]; [eauto|].
  assert (Hrest : forall x, In x ds -> emit_ok x = true)
    by (intros; apply Hds; now right).
  destruct (m !! src d) as [reference|]; [|now apply IH].
  pose proof (Hds d (or_introl eq_refl)) as Hd. unfold emit_ok in Hd.
  apply andb_true_iff in Hd as [Ht Hsplit].
  destruct (span_loop_total filter_on (tgt d) (esa_spans d) empty_acc Ht)
    as (b & acc & E).
  rewrite E. cbn. destruct (span_loop_ok _ _ _ _ _ _ E) as [_ Hacc].
  destruct b; [now apply IH|].
  destruct (Hacc eq_refl) as [_ ->]. fold (spans_acc (esa_spans d)).
  destruct (make_row_total d reference
              (add_sentinel (spans_acc (esa_spans d))) Hsplit) as [row ->].
  destruct (update_statistics_total lp (esa_spans d) (langs_to_statistics st))
    as [stats ->].
  cbn. eauto.
Qed.

Lemma signature_loop_total m lp groups : forall st n,
  (forall g d, In g groups -> In d (snd g) -> emit_ok d = true) ->
  exists st' n', signature_loop filter_on m lp groups st n = Ok (st', n').
Proof.
  induction groups as [|[sg ds] groups IH]; intros st n H;
    cbn [signature_loop]; [eauto|].
  destruct (datum_loop_total m lp ds st n) as (st1 & n1 & ->).
  { intros d Hd. apply (H (sg, ds)); [now left | exact Hd]. }
  cbn. apply IH. intros g d Hg. apply H. now right.
Qed.

(** The second stage does not raise when the records under every
    supported language pair have spans of the asserted types and carry
    that pair as their [langs]. *)
Lemma langs_loop_total load_dataset vsc ltd : forall st,
  (forall e g d, In e ltd -> In g (snd e) -> In d (snd g) ->
                 langs d = fst e
                 /\ forallb span_type_ok (esa_spans d) = true) ->
  exists st', langs_loop load_dataset filter_on vsc ltd st = Ok st'.
Proof.
  induction ltd as [|[lp groups] ltd IH]; intros st H; cbn [langs_loop];
    [eauto|].
  assert (Hrest : forall e g d, In e ltd -> In g (snd e) -> In d (snd g) ->
                                langs d = fst e
                                /\ forallb span_type_ok (esa_spans d) = true)
    by (intros e g d He; apply H; now right).
  destruct (langs_to_wmt24pp_code !! lp) as [code|] eqn:Hcode;
    [|now apply IH].
  destruct (signature_loop_total (build_src_to_tgt (load_dataset code))
              lp groups st 0) as (st1 & n1 & ->).
  { intros g d Hg Hd.
    destruct (H (lp, groups) g d (or_introl eq_refl) Hg Hd) as [E Ht].
    cbn [fst] in E. unfold emit_ok.
    now rewrite Ht, E, (supported_split _ _ Hcode). }
  cbn -[langs_to_wmt24pp_code]. now apply IH.
Qed.

End Totality.

(** [main] returns whenever every line has a source and every span has
    the types that [assert_span_type] asserts. *)
Lemma main_total load_dataset filter_on lines :
  forallb has_src lines = true ->
  (forall d, In d lines -> forallb span_type_ok (esa_spans d) = true) ->
  exists out, main load_dataset lines filter_on = Ok out.
Proof.
  intros Hs Ht. unfold main. rewrite ingest_run, Hs.
  cbn -[langs_loop String.eqb]. fold (grouped lines).
  apply langs_loop_total. intros e g d He Hg Hd.
  destruct (grouped_well lines) as [_ HF].
  rewrite List.Forall_forall in HF. destruct (HF e He) as [_ HG].
  rewrite List.Forall_forall in HG. specialize (HG g Hg).
  rewrite List.Forall_forall in HG. destruct (HG d Hd) as (E1 & _ & E3 & _).
  split; [now symmetry | now apply Ht].
Qed.

(** * The claims *)

Lemma example_runs filter_on :
  main example_corpus example_lines filter_on = Ok (example_out filter_on).
Proof. destruct filter_on; vm_compute; reflexivity. Qed.

Lemma py_eq_eq v w : py_eq v w = true -> v = w.
Proof.
  destruct v, w; cbn -[String.eqb]; try discriminate.
  - now intros ->%Z.eqb_eq.
  - now intros ->%String.eqb_eq.
  - reflexivity.
Qed.

Lemma filter_length_le {A : Type} (p : A -> bool) l :
  (length (List.filter p l) <= length l)%nat.
Proof.
  induction l as [|x l IH]; cbn; [lia|]. destruct (p x); cbn; lia.
Qed.

Lemma filter_refines {A : Type} (p q : A -> bool) l :
  (forall x, p x = true -> q x = true) ->
  List.filter p l = List.filter p (List.filter q l).
Proof.
  intros H. induction l as [|x l IH]; [reflexivity|]. cbn.
  destruct (p x) eqn:P.
  - rewrite (H x P). cbn. rewrite P. now f_equal.
  - destruct (q x); cbn; [rewrite P|]; exact IH.
Qed.

(** C1. In a run of [main] that does not raise, the rows of a language
    pair and signature are at most one, and that row is the row of the
    first record, in input order among the records of that key with a
    target, whose source has a reference and which passes the filter;
    the same bound holds for the rows of a (doc_id, line_id, system)
    triple; the loop over a signature's records does not depend on the
    records behind a qualifying one; and the list the first loop files
    under a key is the list of those records in input order. *)
Theorem first_qualifying_record_wins :
  forall load_dataset filter_on lines out,
    main load_dataset lines filter_on = Ok out ->
    (forall lp sg,
       let rows :=
         List.filter (fun r => String.eqb (row_signature r) sg)
           (List.filter (fun r => String.eqb (row_langs r) lp) (data out)) in
       (length rows <= 1)%nat
       /\ rows = map (row_of (ref_map load_dataset lp))
                     (match langs_to_wmt24pp_code !! lp with
                      | Some _ =>
                          match find (qualifies filter_on (ref_map load_dataset lp))
                                  (List.filter (same_key lp sg) (kept lines)) with
                          | Some d => [d]
                          | None => []
                          end
                      | None => []
                      end))
    /\ (forall lp a b c,
          (length (List.filter (row_has_triple a b c)
                     (List.filter (fun r => String.eqb (row_langs r) lp)
                        (data out))) <= 1)%nat)
    /\ (forall m lp pre d post post' st n,
          qualifies filter_on m d = true ->
          datum_loop filter_on m lp (pre ++ d :: post) st n
          = datum_loop filter_on m lp (pre ++ d :: post') st n)
    /\ (exists lc, ingest lines ∅ [] = Ok (lc, grouped lines))
    /\ (forall lp sg,
          group_at lp sg (grouped lines)
          = List.filter (same_key lp sg) (kept lines)).
Proof.
  intros ld f lines out Hmain.
  assert (H1 : forall lp sg,
             (length (List.filter (fun r => String.eqb (row_signature r) sg)
                        (List.filter (fun r => String.eqb (row_langs r) lp)
                           (data out))) <= 1)%nat).
  { intros lp sg. rewrite (rows_by_signature _ _ _ _ Hmain), length_map.
    destruct (langs_to_wmt24pp_code !! lp); [|cbn; lia].
    unfold chosen. destruct (find _ _); cbn; lia. }
  repeat split.
  - apply H1.
  - apply (rows_by_signature _ _ _ _ Hmain).
  - intros lp a b c.
    rewrite (filter_refines (row_has_triple a b c)
               (fun r => String.eqb (row_signature r)
                           (py_str a +:+ "-" +:+ py_str b +:+ "-" +:+ py_str c))).
    + etransitivity; [apply filter_length_le | apply H1].
    + intros r. unfold row_has_triple, row_signature.
      intros [[E1%py_eq_eq E2%py_eq_eq]%andb_true_iff E3%py_eq_eq]%andb_true_iff.
      rewrite E1, E2, E3. apply String.eqb_refl.
  - intros. now apply datum_loop_break.
  - rewrite ingest_run, (main_has_src _ _ _ _ Hmain). eexists. reflexivity.
  - intros lp sg. apply group_at_grouped.
Qed.

Lemma first_qualifying_record_wins_witness :
  main example_corpus example_lines true = Ok (example_out true)
  /\ List.filter (fun r => String.eqb (row_signature r) "doc1-3-sysA")
       (List.filter (fun r => String.eqb (row_langs r) "en-cs")
          (data (example_out true)))
     = [row_of (ref_map example_corpus "en-cs") line_without_spans].
Proof.
  split; [apply example_runs|].
  destruct (first_qualifying_record_wins example_corpus true example_lines
              (example_out true) (example_runs true)) as (H & _).
  destruct (H "en-cs" "doc1-3-sysA") as [_ E]. rewrite E.
  vm_compute. reflexivity.
Defined.

Lemma uniform_bounds_cases s :
  uniform_bounds s = true ->
  (exists a b, start_i s = PInt a /\ end_i s = PInt b)
  \/ (exists t u, start_i s = PStr t /\ end_i s = PStr u).
Proof.
  unfold uniform_bounds. destruct (start_i s), (end_i s); cbn;
    try discriminate; eauto.
Qed.

Lemma correct_span_total s h :
  uniform_bounds s = true -> exists s', correct_span s h = Ok s'.
Proof.
  intros H. destruct s as [sa sb sev].
  destruct (uniform_bounds_cases _ H) as [(a & b & E1 & E2)|(t & u & E1 & E2)];
    cbn in E1, E2; subst.
  - rewrite correct_span_ints. eauto.
  - rewrite correct_span_strs. eauto.
Qed.

(** C4, as the code has it.  [correct_span] never changes an object that
    exists when it is called, its argument included, whether it returns
    or raises; on a span whose bounds are both integers or both strings
    it returns, at a fresh address, the span that the value-level
    function computes; and on every other span, so on every span with
    one integer bound and one string bound, the comparison of the bounds
    raises [TypeError], at the value level and over the store. *)
Theorem correct_span_copies_its_argument :
  forall (σ : gmap nat span) (l : nat) (s : span) (h : string),
    σ !! l = Some s ->
    (forall k, is_Some (σ !! k) -> fst (correct_span_st l h σ) !! k = σ !! k)
    /\ (uniform_bounds s = true ->
        exists l' s',
          snd (correct_span_st l h σ) = Ok l'
          /\ σ !! l' = None
          /\ fst (correct_span_st l h σ) !! l' = Some s'
          /\ correct_span s h = Ok s')
    /\ (uniform_bounds s = false ->
        correct_span s h = Raise TypeError
        /\ snd (correct_span_st l h σ) = Raise TypeError)
    /\ (forall a t,
          (start_i s = PInt a /\ end_i s = PStr t)
          \/ (start_i s = PStr t /\ end_i s = PInt a) ->
          correct_span s h = Raise TypeError
          /\ snd (correct_span_st l h σ) = Raise TypeError).
Proof.
  intros σ l s h Hl.
  destruct (correct_span_st_spec σ l s h Hl) as (s1 & E & Hs1).
  rewrite E. cbn [fst snd].
  assert (Hmixed : uniform_bounds s = false ->
                   correct_span s h = Raise TypeError
                   /\ match correct_span s h with
                      | Ok _ => Ok (fresh (dom σ))
                      | Raise e => Raise e
                      end = Raise TypeError).
  { unfold uniform_bounds. intros [H1 H2]%orb_false_iff.
    rewrite (correct_span_mixed s h H1 H2). now split. }
  split; [|split; [|split]].
  - intros k [x Hk]. rewrite Hk. now apply store_fresh_unchanged.
  - intros Hu. destruct (correct_span_total s h Hu) as [s' Hs'].
    exists (fresh (dom σ)), s'. rewrite Hs'. repeat split.
    + apply not_elem_of_dom, is_fresh.
    + rewrite lookup_insert_eq. f_equal. now apply Hs1.
  - exact Hmixed.
  - intros a t Hb. apply Hmixed. unfold uniform_bounds.
    destruct Hb as [[-> ->]|[-> ->]]; reflexivity.
Qed.

Lemma correct_span_copies_its_argument_witness :
  let σ : gmap nat span := {[ 0%nat := mkSpan (PInt 5) (PInt 3) "critical" ]} in
  let τ : gmap nat span := {[ 0%nat := mkSpan (PStr "abc") (PInt 2) "major" ]} in
  σ !! 0%nat = Some (mkSpan (PInt 5) (PInt 3) "critical")
  /\ fst (correct_span_st 0 "0123456789" σ) !! 0%nat
     = Some (mkSpan (PInt 5) (PInt 3) "critical")
  /\ τ !! 0%nat = Some (mkSpan (PStr "abc") (PInt 2) "major")
  /\ uniform_bounds (mkSpan (PStr "abc") (PInt 2) "major") = false
  /\ correct_span (mkSpan (PStr "abc") (PInt 2) "major") "0123456789"
     = Raise TypeError
  /\ snd (correct_span_st 0 "0123456789" τ) = Raise TypeError
  /\ fst (correct_span_st 0 "0123456789" τ) !! 0%nat
     = Some (mkSpan (PStr "abc") (PInt 2) "major").
Proof.
  cbv zeta.
  assert (H0 : ({[ 0%nat := mkSpan (PInt 5) (PInt 3) "critical" ]}
                  : gmap nat span) !! 0%nat
               = Some (mkSpan (PInt 5) (PInt 3) "critical"))
    by (vm_compute; reflexivity).
  assert (H1 : ({[ 0%nat := mkSpan (PStr "abc") (PInt 2) "major" ]}
                  : gmap nat span) !! 0%nat
               = Some (mkSpan (PStr "abc") (PInt 2) "major"))
    by (vm_compute; reflexivity).
  split; [exact H0|].
  split.
  { destruct (correct_span_copies_its_argument _ _ _ "0123456789" H0)
      as [H _].
    rewrite H; [exact H0 | eexists; exact H0]. }
  split; [exact H1|]. split; [reflexivity|].
  destruct (correct_span_copies_its_argument _ _ _ "0123456789" H1)
    as (Hsame & _ & Hraise & _).
  destruct (Hraise eq_refl) as [Hv Hst].
  split; [exact Hv|]. split; [exact Hst|].
  rewrite Hsame; [exact H1 | eexists; exact H1].
Defined.

(** C4, as stated, fails: on a span with an integer start and the
    string "missing" as end, the comparison of the bounds raises
    [TypeError], at the value level and over the store. *)
Lemma correct_span_raises_on_mixed_bounds :
  correct_span (mkSpan (PInt 3) (PStr "missing") "minor") "abcdef"
  = Raise TypeError
  /\ snd (correct_span_st 0 "abcdef"
            {[ 0%nat := mkSpan (PInt 3) (PStr "missing") "minor" ]})
     = Raise TypeError
  /\ ~ (forall s h, exists s', correct_span s h = Ok s').
Proof.
  split; [reflexivity|]. split; [vm_compute; reflexivity|].
  intros H.
  destruct (H (mkSpan (PInt 3) (PStr "missing") "minor") "abcdef") as [s' E].
  discriminate E.
Qed.

Lemma emit_ok_typed d :
  emit_ok d = true -> forallb span_type_ok (esa_spans d) = true.
Proof. unfold emit_ok. now intros [? _]%andb_true_iff. Qed.

(** C5. Every row of the table comes from an input record, and its
    three span columns hold, token by token, the bounds and the severity
    of that record's spans printed as they stand in the input:
    [correct_span] is not applied on the way.  With the filter off, a
    reversed and out-of-range span and a zero-length span reach the
    table unchanged. *)
Theorem rows_carry_raw_spans :
  (forall load_dataset filter_on lines out,
     main load_dataset lines filter_on = Ok out ->
     forall r, In r (data out) ->
     exists d,
       In d lines
       /\ r = row_of (ref_map load_dataset (langs d)) d
       /\ (esa_spans d <> [] ->
           tokens (OutputRow.start_indices r)
           = map (fun sp => py_str (start_i sp)) (esa_spans d)
           /\ tokens (OutputRow.end_indices r)
              = map (fun sp => py_str (end_i sp)) (esa_spans d)
           /\ tokens (OutputRow.error_types r) = map severity (esa_spans d)))
  /\ map (fun r => (OutputRow.start_indices r, OutputRow.end_indices r, OutputRow.error_types r))
         (data (example_out false))
     = [("9 4 missing", "2 4 missing", "major minor minor")].
Proof.
  split; [|vm_compute; reflexivity].
  intros ld f lines out Hmain r Hr.
  destruct (row_origin _ _ _ _ Hmain r Hr) as (d & Hd & _ & Hok & _ & ->).
  exists d. repeat split; [exact Hd|..];
    pose proof (row_of_tokens (ref_map ld (langs d)) d (emit_ok_typed _ Hok)) as T;
    destruct (esa_spans d); try congruence; apply T.
Qed.

Lemma rows_carry_raw_spans_witness :
  main example_corpus example_lines false = Ok (example_out false)
  /\ In (row_of (ref_map example_corpus "en-cs") line_with_spans)
        (data (example_out false))
  /\ exists d,
       In d example_lines
       /\ row_of (ref_map example_corpus "en-cs") line_with_spans
          = row_of (ref_map example_corpus (langs d)) d
       /\ (esa_spans d <> [] ->
           tokens (OutputRow.start_indices
                     (row_of (ref_map example_corpus "en-cs") line_with_spans))
           = map (fun sp => py_str (start_i sp)) (esa_spans d)
           /\ tokens (OutputRow.end_indices
                        (row_of (ref_map example_corpus "en-cs") line_with_spans))
              = map (fun sp => py_str (end_i sp)) (esa_spans d)
           /\ tokens (OutputRow.error_types
                        (row_of (ref_map example_corpus "en-cs") line_with_spans))
              = map severity (esa_spans d)).
Proof.
  assert (Hin : In (row_of (ref_map example_corpus "en-cs") line_with_spans)
                   (data (example_out false)))
    by (vm_compute; left; reflexivity).
  split; [apply example_runs|]. split; [exact Hin|].
  exact (proj1 rows_carry_raw_spans example_corpus false example_lines
           (example_out false) (example_runs false) _ Hin).
Defined.

Lemma zsum_indicator {A : Type} (p : A -> bool) (g : A -> Z) l :
  (forall x, In x l -> g x = if p x then 1 else 0) ->
  zsum (map g l) = count_if p l.
Proof.
  induction l as [|x l IH]; intros H; [reflexivity|].
  rewrite count_if_cons. cbn. rewrite (H x) by now left.
  unfold zsum in IH. rewrite IH; [reflexivity|].
  intros; apply H; now right.
Qed.

Lemma count_if_map {A B : Type} (p : B -> bool) (g : A -> B) l :
  count_if p (map g l) = count_if (fun x => p (g x)) l.
Proof.
  induction l as [|x l IH]; [reflexivity|].
  cbn [map]. now rewrite !count_if_cons, IH.
Qed.

Lemma row_no_error m d :
  forallb span_type_ok (esa_spans d) = true ->
  String.eqb (OutputRow.error_types (row_of m d)) "no-error" = no_spans d.
Proof.
  intros Ht. pose proof (row_of_tokens m d Ht) as T. unfold no_spans.
  destruct (esa_spans d) as [|sp spans] eqn:E.
  - destruct T as (_ & _ & ->). reflexivity.
  - destruct T as (_ & _ & T). apply String.eqb_neq. intros N.
    rewrite N in T. cbn in T. injection T as T _.
    cbn [forallb] in Ht. apply andb_true_iff in Ht as [Ht _].
    pose proof (span_type_ok_severity _ Ht) as Hs. rewrite <- T in Hs.
    cbn in Hs. destruct Hs as [?|[?|[?|[]]]]; discriminate.
Qed.

(** C6. In every row the three span columns have the same number of
    tokens; the row of a record without spans carries the sentinel -1,
    -1, no-error; and the "no-error" counter of a language pair is the
    number of its rows that carry the sentinel, that is, of its chosen
    records without spans. *)
Theorem span_columns_aligned :
  forall load_dataset filter_on lines out,
    main load_dataset lines filter_on = Ok out ->
    (forall r, In r (data out) ->
       length (tokens (OutputRow.start_indices r)) = length (tokens (OutputRow.end_indices r))
       /\ length (tokens (OutputRow.end_indices r))
          = length (tokens (OutputRow.error_types r)))
    /\ (forall r, In r (data out) ->
        exists d,
          In d lines /\ r = row_of (ref_map load_dataset (langs d)) d
          /\ (esa_spans d = [] ->
              OutputRow.start_indices r = "-1" /\ OutputRow.end_indices r = "-1"
              /\ OutputRow.error_types r = "no-error"))
    /\ (forall lp,
          sget (langs_to_statistics out) lp "no-error"
          = count_if (fun r => String.eqb (OutputRow.error_types r) "no-error")
              (List.filter (fun r => String.eqb (row_langs r) lp) (data out))
          /\ sget (langs_to_statistics out) lp "no-error"
             = count_if no_spans (emitted load_dataset filter_on lines lp)).
Proof.
  intros ld f lines out Hmain. split; [|split].
  - intros r Hr.
    destruct (row_origin _ _ _ _ Hmain r Hr) as (d & _ & _ & Hok & _ & ->).
    pose proof (row_of_tokens (ref_map ld (langs d)) d (emit_ok_typed _ Hok)) as T.
    destruct (esa_spans d); destruct T as (-> & -> & ->);
      [split; reflexivity | now rewrite !length_map].
  - intros r Hr.
    destruct (row_origin _ _ _ _ Hmain r Hr) as (d & Hd & _ & Hok & _ & ->).
    exists d. split; [exact Hd|]. split; [reflexivity|]. intros E.
    pose proof (row_of_tokens (ref_map ld (langs d)) d (emit_ok_typed _ Hok)) as T.
    rewrite E in T. exact T.
  - intros lp. split.
    + rewrite (rows_by_langs _ _ _ _ Hmain), count_if_map,
        (stats_by_langs _ _ _ _ Hmain).
      apply zsum_indicator. intros d Hd.
      apply (emitted_facts _ _ _ _ Hmain) in Hd as (_ & _ & _ & Hok & _).
      apply emit_ok_typed in Hok.
      rewrite (row_no_error _ _ Hok), (stat_delta_no_error _ Hok).
      unfold no_spans. now destruct (esa_spans d).
    + rewrite (stats_by_langs _ _ _ _ Hmain).
      apply zsum_indicator. intros d Hd.
      apply (emitted_facts _ _ _ _ Hmain) in Hd as (_ & _ & _ & Hok & _).
      apply emit_ok_typed in Hok. rewrite (stat_delta_no_error _ Hok).
      unfold no_spans. now destruct (esa_spans d).
Qed.

Lemma span_columns_aligned_witness :
  main example_corpus example_lines true = Ok (example_out true)
  /\ sget (langs_to_statistics (example_out true)) "en-cs" "no-error"
     = count_if (fun r => String.eqb (OutputRow.error_types r) "no-error")
         (List.filter (fun r => String.eqb (row_langs r) "en-cs")
            (data (example_out true)))
  /\ sget (langs_to_statistics (example_out true)) "en-cs" "no-error" = 1.
Proof.
  split; [apply example_runs|]. split; [|vm_compute; reflexivity].
  destruct (span_columns_aligned example_corpus true example_lines
              (example_out true) (example_runs true)) as (_ & _ & H).
  apply (H "en-cs").
Defined.

(** C7, as the code has it.  On a span of severity "critical" whose
    bounds are both integers or both strings, [correct_span] returns a
    span of severity "major"; and no row of the table has "critical"
    among its error-type tokens. *)
Theorem critical_never_in_output :
  (forall s h,
     uniform_bounds s = true -> severity s = "critical" ->
     exists s', correct_span s h = Ok s' /\ severity s' = "major")
  /\ (forall load_dataset filter_on lines out,
        main load_dataset lines filter_on = Ok out ->
        forall r, In r (data out) ->
                  ~ In "critical" (tokens (OutputRow.error_types r))).
Proof.
  split.
  - intros s h Hu Hs. destruct (correct_span_total s h Hu) as [s' E].
    exists s'. split; [exact E|].
    rewrite (correct_span_severity _ _ _ E), Hs. reflexivity.
  - intros ld f lines out Hmain r Hr.
    destruct (row_origin _ _ _ _ Hmain r Hr) as (d & _ & _ & Hok & _ & ->).
    apply emit_ok_typed in Hok.
    pose proof (row_of_tokens (ref_map ld (langs d)) d Hok) as T.
    destruct (esa_spans d) as [|sp spans] eqn:E.
    + destruct T as (_ & _ & ->). cbn. intros [?|[]]. discriminate.
    + destruct T as (_ & _ & ->). intros (x & Hx & Hin)%in_map_iff.
      rewrite forallb_forall in Hok.
      pose proof (span_type_ok_severity _ (Hok x Hin)) as Hs.
      rewrite Hx in Hs. cbn in Hs. destruct Hs as [?|[?|[?|[]]]]; discriminate.
Qed.

Lemma critical_never_in_output_witness :
  uniform_bounds (mkSpan (PInt 5) (PInt 3) "critical") = true
  /\ severity (mkSpan (PInt 5) (PInt 3) "critical") = "critical"
  /\ exists s', correct_span (mkSpan (PInt 5) (PInt 3) "critical") "0123456789"
                = Ok s'
                /\ severity s' = "major".
Proof.
  split; [reflexivity|]. split; [reflexivity|].
  apply (proj1 critical_never_in_output); reflexivity.
Defined.

(** C7, as stated, fails: on a critical span with an integer start and
    the string "missing" as end, [correct_span] raises [TypeError] and
    returns no span. *)
Lemma critical_span_with_mixed_bounds_raises :
  correct_span (mkSpan (PInt 3) (PStr "missing") "critical") "abcdef"
  = Raise TypeError
  /\ ~ (forall s h,
          severity s = "critical" ->
          exists s', correct_span s h = Ok s' /\ severity s' = "major").
Proof.
  split; [reflexivity|]. intros H.
  destruct (H (mkSpan (PInt 3) (PStr "missing") "critical") "abcdef" eq_refl)
    as (s' & E & _).
  discriminate E.
Qed.

(** C8. The span {4, 4, minor} normalizes to {missing, missing, minor}
    on every hypothesis; and in a run of [main] the "missing" bucket of
    a language pair counts the spans of its emitted records whose start
    equals their end, the "minor" bucket only minor spans whose start
    differs from their end. *)
Theorem zero_length_span_counts_as_missing :
  (forall h, correct_span (mkSpan (PInt 4) (PInt 4) "minor") h
             = Ok (mkSpan missing missing "minor"))
  /\ (forall load_dataset filter_on lines out,
        main load_dataset lines filter_on = Ok out ->
        forall lp,
          List.filter (fun r => String.eqb (row_langs r) lp) (data out)
          = map (row_of (ref_map load_dataset lp))
                (emitted load_dataset filter_on lines lp)
          /\ sget (langs_to_statistics out) lp "missing"
             = zsum (map (fun d => count_if (fun sp => py_eq (start_i sp) (end_i sp))
                                            (esa_spans d))
                         (emitted load_dataset filter_on lines lp))
          /\ sget (langs_to_statistics out) lp "minor"
             = zsum (map (fun d => count_if
                                     (fun sp => negb (py_eq (start_i sp) (end_i sp))
                                                && String.eqb (severity sp) "minor")
                                     (esa_spans d))
                         (emitted load_dataset filter_on lines lp))).
Proof.
  split.
  - intros h. rewrite correct_span_ints. cbv zeta.
    rewrite Z.min_id, Z.max_id, Z.eqb_refl. reflexivity.
  - intros ld f lines out Hmain lp.
    split; [apply (rows_by_langs _ _ _ _ Hmain)|].
    rewrite !(stats_by_langs _ _ _ _ Hmain). split; f_equal; apply map_ext_in.
    + intros d Hd.
      apply (emitted_facts _ _ _ _ Hmain) in Hd as (_ & _ & _ & Hok & _).
      apply stat_delta_missing. now apply emit_ok_typed.
    + intros d _. apply stat_delta_minor.
Qed.

Lemma zero_length_span_counts_as_missing_witness :
  main example_corpus example_lines false = Ok (example_out false)
  /\ emitted example_corpus false example_lines "en-cs" = [line_with_spans]
  /\ sget (langs_to_statistics (example_out false)) "en-cs" "missing" = 2
  /\ sget (langs_to_statistics (example_out false)) "en-cs" "minor" = 0.
Proof.
  split; [apply example_runs|]. split; [vm_compute; reflexivity|].
  destruct (proj2 zero_length_span_counts_as_missing example_corpus false
              example_lines (example_out false) (example_runs false) "en-cs")
    as (_ & E1 & E2).
  rewrite E1, E2. split; vm_compute; reflexivity.
Defined.

Lemma has_tgt_nonempty d : has_tgt d = true -> tgt d <> EmptyString.
Proof.
  unfold has_tgt. intros H E. rewrite E in H. discriminate H.
Qed.

(** C9. When no line has an empty source, the first loop counts every
    line with an empty target once under "target segment is empty" and
    puts none of them in a group; a run on the whole input and a run on
    the input without those lines end alike but for that counter; and
    no row has an empty hypothesis. *)
Theorem empty_target_lines_skipped :
  forall load_dataset filter_on lines,
    forallb has_src lines = true ->
    (exists lc,
        ingest lines ∅ [] = Ok (lc, grouped lines)
        /\ cget lc "target segment is empty"
           = count_if (fun d => negb (has_tgt d)) lines)
    /\ (forall e g d,
          In e (grouped lines) -> In g (snd e) -> In d (snd g) ->
          In d lines /\ tgt d <> EmptyString)
    /\ agree_res (agree_upto (count_if (fun d => negb (has_tgt d)) lines))
         (main load_dataset lines filter_on)
         (main load_dataset (kept lines) filter_on)
    /\ (forall out,
          main load_dataset lines filter_on = Ok out ->
          cget (log_counter out) "target segment is empty"
          = count_if (fun d => negb (has_tgt d)) lines
          /\ forall r, In r (data out) -> OutputRow.hypothesis_segment r <> EmptyString).
Proof.
  intros ld f lines Hs. split; [|split; [|split]].
  - rewrite ingest_run, Hs. eexists. split; [reflexivity|].
    rewrite empty_target_count, cget_empty. reflexivity.
  - intros e g d He Hg Hd. destruct (grouped_well lines) as [_ HF].
    rewrite List.Forall_forall in HF. destruct (HF e He) as [_ HG].
    rewrite List.Forall_forall in HG. specialize (HG g Hg).
    rewrite List.Forall_forall in HG. destruct (HG d Hd) as (_ & _ & ? & ?).
    split; [assumption | now apply has_tgt_nonempty].
  - now apply main_without_empty_targets.
  - intros out Hmain. split; [apply (main_empty_targets _ _ _ _ Hmain)|].
    intros r Hr.
    destruct (row_origin _ _ _ _ Hmain r Hr) as (d & _ & Ht & _ & _ & ->).
    now apply has_tgt_nonempty.
Qed.

Lemma empty_target_lines_skipped_witness :
  forallb has_src example_lines = true
  /\ count_if (fun d => negb (has_tgt d)) example_lines = 1
  /\ agree_res (agree_upto (count_if (fun d => negb (has_tgt d)) example_lines))
       (main example_corpus example_lines true)
       (main example_corpus (kept example_lines) true).
Proof.
  split; [reflexivity|]. split; [reflexivity|].
  apply (empty_target_lines_skipped example_corpus true example_lines).
  reflexivity.
Defined.

(** * Further properties *)

(** ** The span checks *)

Lemma span_type_ok_iff sp :
  span_type_ok sp = true <->
  ((exists a b, start_i sp = PInt a /\ end_i sp = PInt b)
   \/ (start_i sp = missing /\ end_i sp = missing))
  /\ In (severity sp) ["major"; "minor"; "undecided"].
Proof.
  split.
  - intros H. split; [now apply span_type_ok_bounds
                     | now apply span_type_ok_severity].
  - intros [Hb Hs]. apply str_in_In in Hs. unfold span_type_ok. rewrite Hs.
    destruct Hb as [(a & b & -> & ->) | [-> ->]]; reflexivity.
Qed.

(** X1. [assert_span_type] passes exactly on the spans whose bounds are
    both integers or both "missing" and whose severity is major, minor
    or undecided; on every other span it raises [AssertionError], so a
    span of severity "critical" never passes. *)
Theorem assert_span_type_exact :
  forall sp,
    (assert_span_type sp = Ok tt <->
     ((exists a b, start_i sp = PInt a /\ end_i sp = PInt b)
      \/ (start_i sp = missing /\ end_i sp = missing))
     /\ In (severity sp) ["major"; "minor"; "undecided"])
    /\ (assert_span_type sp <> Ok tt ->
        assert_span_type sp = Raise AssertionError)
    /\ (severity sp = "critical" ->
        assert_span_type sp = Raise AssertionError).
Proof.
  intros sp. rewrite assert_span_type_run, <- span_type_ok_iff.
  destruct (span_type_ok sp) eqn:T; repeat split; try congruence.
  intros Hc. apply span_type_ok_severity in T. rewrite Hc in T.
  cbn in T. destruct T as [?|[?|[?|[]]]]; discriminate.
Qed.

Lemma assert_span_type_exact_witness :
  assert_span_type (mkSpan (PInt 3) missing "minor") <> Ok tt
  /\ assert_span_type (mkSpan (PInt 3) missing "minor") = Raise AssertionError
  /\ assert_span_type (mkSpan (PInt 0) (PInt 2) "critical")
     = Raise AssertionError.
Proof.
  assert (N : assert_span_type (mkSpan (PInt 3) missing "minor") <> Ok tt)
    by (intros H; vm_compute in H; discriminate H).
  split; [exact N|]. split.
  - destruct (assert_span_type_exact (mkSpan (PInt 3) missing "minor"))
      as (_ & H & _).
    exact (H N).
  - destruct (assert_span_type_exact (mkSpan (PInt 0) (PInt 2) "critical"))
      as (_ & _ & H).
    exact (H eq_refl).
Defined.

(** X2. On a span that passed [assert_span_type], [is_invalid_span]
    answers [True] only for an integer bound out of range, for reversed
    integer bounds, or for the severity "undecided": its two tests on
    string bounds cannot fire behind the assertion. *)
Theorem is_invalid_span_after_assert :
  forall sp h,
    assert_span_type sp = Ok tt ->
    (is_invalid_span sp h = true <->
     severity sp = "undecided"
     \/ exists a b, start_i sp = PInt a /\ end_i sp = PInt b
                    /\ (a < 0 \/ len h < a \/ b < 0 \/ len h < b \/ b < a)).
Proof.
  intros sp h Ha. rewrite assert_span_type_run in Ha.
  destruct (span_type_ok sp) eqn:T; [clear Ha | discriminate].
  apply span_type_ok_iff in T as [Hb Hs].
  rewrite is_invalid_span_orb.
  destruct sp as [sa sb sev]. cbn [start_i end_i severity] in *.
  destruct Hb as [(a & b & -> & ->) | [-> ->]];
    cbn [is_str is_int int_and andb orb py_eq missing negb].
  - rewrite !orb_true_iff, !Z.ltb_lt, Z.gtb_gt, negb_true_iff, str_in_not_In.
    split.
    + intros [[[[R|R]|[R|R]]|R]|N];
        try (right; exists a, b; repeat split; lia).
      left. cbn in Hs, N. destruct Hs as [<-|[<-|[<-|[]]]]; tauto.
    + intros [-> | (x & y & [= <-] & [= <-] & R)].
      * right. cbn. intros [?|[?|[?|[]]]]; discriminate.
      * left. lia.
  - change (String.eqb "missing" "missing") with true. cbn [negb orb].
    rewrite negb_true_iff, str_in_not_In. split.
    + intros N. left. cbn in Hs, N. destruct Hs as [<-|[<-|[<-|[]]]]; tauto.
    + intros [-> | (x & y & E & _)]; [|discriminate].
      cbn. intros [?|[?|[?|[]]]]; discriminate.
Qed.

Lemma is_invalid_span_after_assert_witness :
  assert_span_type (mkSpan (PInt 7) (PInt 2) "major") = Ok tt
  /\ (is_invalid_span (mkSpan (PInt 7) (PInt 2) "major") "abcde" = true <->
      severity (mkSpan (PInt 7) (PInt 2) "major") = "undecided"
      \/ exists a b,
           start_i (mkSpan (PInt 7) (PInt 2) "major") = PInt a
           /\ end_i (mkSpan (PInt 7) (PInt 2) "major") = PInt b
           /\ (a < 0 \/ len "abcde" < a \/ b < 0 \/ len "abcde" < b \/ b < a)).
Proof.
  split; [reflexivity|].
  apply is_invalid_span_after_assert. reflexivity.
Defined.

(** ** More on [correct_span] *)

Lemma downgraded_valid sev :
  In sev ["major"; "minor"; "critical"] ->
  downgraded sev = "major" \/ downgraded sev = "minor".
Proof.
  cbn. intros [<-|[<-|[<-|[]]]]; cbn; auto.
Qed.

(** X3. On a span whose bounds are both integers or both "missing" and
    whose severity is major, minor or critical, what [correct_span]
    returns passes [assert_span_type] and is not invalid for
    [is_invalid_span]. *)
Theorem correct_span_output_is_valid :
  forall s h,
    ((exists a b, start_i s = PInt a /\ end_i s = PInt b)
     \/ (start_i s = missing /\ end_i s = missing)) ->
    In (severity s) ["major"; "minor"; "critical"] ->
    exists s',
      correct_span s h = Ok s'
      /\ assert_span_type s' = Ok tt
      /\ is_invalid_span s' h = false.
Proof.
  intros [sa sb sev] h Hb Hs. cbn [start_i end_i severity] in *.
  pose proof (downgraded_valid _ Hs) as Hd.
  assert (M : assert_span_type (mkSpan missing missing (downgraded sev)) = Ok tt
              /\ is_invalid_span (mkSpan missing missing (downgraded sev)) h
                 = false).
  { destruct Hd as [-> | ->]; split; reflexivity. }
  destruct Hb as [(a & b & -> & ->) | [-> ->]].
  - rewrite correct_span_ints. eexists. split; [reflexivity|]. cbv zeta.
    pose proof (clamp_range a h). pose proof (clamp_range b h).
    revert H H0. generalize (clamp a h), (clamp b h). intros x y Hx Hy.
    destruct (Z.eqb_spec (Z.min x y) (Z.max x y)) as [E|E]; [exact M|].
    split.
    + rewrite assert_span_type_run.
      destruct Hd as [-> | ->]; reflexivity.
    + rewrite is_invalid_span_orb.
      cbn [start_i end_i severity is_str is_int int_and andb orb].
      assert (L1 : (Z.min x y <? 0) = false) by (apply Z.ltb_ge; lia).
      assert (L2 : (len h <? Z.min x y) = false) by (apply Z.ltb_ge; lia).
      assert (L3 : (Z.max x y <? 0) = false) by (apply Z.ltb_ge; lia).
      assert (L4 : (len h <? Z.max x y) = false) by (apply Z.ltb_ge; lia).
      assert (L5 : (Z.min x y >? Z.max x y) = false).
      { destruct (Z.gtb_spec (Z.min x y) (Z.max x y)); [lia | reflexivity]. }
      rewrite L1, L2, L3, L4, L5.
      destruct Hd as [-> | ->]; reflexivity.
  - unfold missing at 1 2. rewrite correct_span_strs.
    change (str_gt "missing" "missing") with false.
    change (String.eqb "missing" "missing") with true. cbv iota.
    eexists. split; [reflexivity | exact M].
Qed.

Lemma correct_span_output_is_valid_witness :
  In (severity (mkSpan (PInt 12) (PInt (-4)) "critical"))
     ["major"; "minor"; "critical"]
  /\ exists s',
       correct_span (mkSpan (PInt 12) (PInt (-4)) "critical") "abcde" = Ok s'
       /\ assert_span_type s' = Ok tt
       /\ is_invalid_span s' "abcde" = false.
Proof.
  assert (H : In (severity (mkSpan (PInt 12) (PInt (-4)) "critical"))
                 ["major"; "minor"; "critical"])
    by (cbn; tauto).
  split; [exact H|].
  apply correct_span_output_is_valid; [|exact H].
  left. exists 12, (-4). split; reflexivity.
Defined.

Lemma downgraded_fixed sev : downgraded sev = sev <-> sev <> "critical".
Proof.
  unfold downgraded. destruct (String.eqb_spec sev "critical") as [->|N].
  - split; [discriminate | congruence].
  - tauto.
Qed.

Lemma compare_Lt_facts t u :
  String.compare t u = Lt -> str_gt t u = false /\ String.eqb t u = false.
Proof.
  intros C. split.
  - unfold str_gt. now rewrite C.
  - apply String.eqb_neq. intros ->.
    pose proof (String.compare_antisym u u) as A. rewrite C in A.
    discriminate.
Qed.

(** X4. The spans that [correct_span] returns unchanged are exactly the
    spans of a severity other than "critical" whose bounds are integers
    with 0 <= start < end <= len(hypothesis), or both "missing", or two
    strings in strictly increasing order. *)
Theorem correct_span_fixed_points :
  forall s h,
    correct_span s h = Ok s <->
    severity s <> "critical"
    /\ ((exists a b, start_i s = PInt a /\ end_i s = PInt b
                     /\ 0 <= a /\ a < b /\ b <= len h)
        \/ (start_i s = missing /\ end_i s = missing)
        \/ (exists t u, start_i s = PStr t /\ end_i s = PStr u
                        /\ String.compare t u = Lt)).
Proof.
  intros s h. split.
  - intros H. pose proof (correct_span_severity _ _ _ H) as Hs.
    symmetry in Hs. apply downgraded_fixed in Hs. split; [exact Hs|].
    destruct s as [[a|t|] [b|u|] sev]; cbn [start_i end_i severity] in *;
      rewrite ?correct_span_ints, ?correct_span_strs in H;
      try (rewrite correct_span_mixed in H by reflexivity; discriminate H).
    + cbv zeta in H. pose proof (clamp_range a h). pose proof (clamp_range b h).
      destruct (Z.eqb_spec (Z.min (clamp a h) (clamp b h))
                           (Z.max (clamp a h) (clamp b h))) as [E|E];
        [discriminate H|].
      injection H as E1 E2 _. left. exists a, b.
      unfold clamp in *. repeat split; lia.
    + destruct (str_gt t u) eqn:G.
      * injection H as E1 E2 _. subst u.
        rewrite str_gt_irrefl in G. discriminate G.
      * destruct (String.eqb_spec t u) as [->|Hne].
        -- injection H as E1 _. right. left. unfold missing. now rewrite E1.
        -- right. right. exists t, u. repeat split.
           unfold str_gt in G. destruct (String.compare t u) eqn:C;
             [apply String.compare_eq_iff in C; congruence | reflexivity
             | discriminate G].
  - intros [N Hshape]. apply downgraded_fixed in N.
    destruct s as [sa sb sev]. cbn [start_i end_i severity] in *.
    destruct Hshape as [(a & b & -> & -> & R) | [[-> ->] | (t & u & -> & -> & C)]].
    + rewrite correct_span_ints, N. cbv zeta. rewrite !clamp_fix by lia.
      rewrite Z.min_l, Z.max_r by lia.
      destruct (Z.eqb_spec a b); [lia | reflexivity].
    + unfold missing. rewrite correct_span_strs, N. reflexivity.
    + rewrite correct_span_strs, N.
      destruct (compare_Lt_facts _ _ C) as [-> ->]. reflexivity.
Qed.

(** X5. On two integer bounds [correct_span] returns the "missing"
    sentinel exactly when the bounds are equal, or both at most 0, or
    both at least len(hypothesis), or the hypothesis is empty; otherwise
    it returns the smaller and the larger bound, each clamped into
    [0, len(hypothesis)]. *)
Theorem correct_span_collapse :
  forall a b sev h,
    ((a = b \/ (a <= 0 /\ b <= 0) \/ (len h <= a /\ len h <= b)
      \/ len h = 0) ->
     correct_span (mkSpan (PInt a) (PInt b) sev) h
     = Ok (mkSpan missing missing (downgraded sev)))
    /\ (~ (a = b \/ (a <= 0 /\ b <= 0) \/ (len h <= a /\ len h <= b)
           \/ len h = 0) ->
        correct_span (mkSpan (PInt a) (PInt b) sev) h
        = Ok (mkSpan (PInt (clamp (Z.min a b) h)) (PInt (clamp (Z.max a b) h))
                     (downgraded sev))).
Proof.
  intros a b sev h. rewrite correct_span_ints. cbv zeta.
  assert (Hn : 0 <= len h) by (unfold len; lia).
  destruct (Z.eqb_spec (Z.min (clamp a h) (clamp b h))
                       (Z.max (clamp a h) (clamp b h))) as [E|E];
    unfold clamp in *; split; intros C.
  - reflexivity.
  - exfalso. lia.
  - exfalso. lia.
  - do 2 f_equal; f_equal; lia.
Qed.

Lemma correct_span_collapse_witness :
  (12 = 15 \/ (12 <= 0 /\ 15 <= 0)
   \/ (len "0123456789" <= 12 /\ len "0123456789" <= 15)
   \/ len "0123456789" = 0)
  /\ correct_span (mkSpan (PInt 12) (PInt 15) "minor") "0123456789"
     = Ok (mkSpan missing missing "minor").
Proof.
  assert (H : 12 = 15 \/ (12 <= 0 /\ 15 <= 0)
              \/ (len "0123456789" <= 12 /\ len "0123456789" <= 15)
              \/ len "0123456789" = 0)
    by (right; right; left; split; apply Z.leb_le; reflexivity).
  split; [exact H|].
  exact (proj1 (correct_span_collapse 12 15 "minor" "0123456789") H).
Defined.

(** ** [random_valid_span] *)

Lemma correct_span_in_range a b sev h :
  sev <> "critical" -> 0 <= a -> a < b -> b <= len h ->
  correct_span (mkSpan (PInt a) (PInt b) sev) h
  = Ok (mkSpan (PInt a) (PInt b) sev).
Proof.
  intros N%downgraded_fixed Ha Hab Hb.
  rewrite correct_span_ints, N. cbv zeta. rewrite !clamp_fix by lia.
  rewrite Z.min_l, Z.max_r by lia.
  destruct (Z.eqb_spec a b); [lia | reflexivity].
Qed.

Lemma list_randrange_range n g :
  0 < n -> 0 <= fst (list_randrange n g) < n.
Proof.
  intros Hn. destruct g as [|x g]; cbn [list_randrange fst]; [lia|].
  now apply Z.mod_pos_bound.
Qed.

Section RandomSpan.

Variable G : Type.
Variable randrange : Z -> G -> Z * G.
Hypothesis randrange_range : forall n g, 0 < n -> 0 <= fst (randrange n g) < n.

Lemma redraw_end_some fuel n start_i : forall end_i g e g',
  0 < n -> 0 <= end_i < n ->
  redraw_end randrange fuel n start_i end_i g = Some (e, g') ->
  e <> start_i /\ 0 <= e < n.
Proof.
  induction fuel as [|fuel IH]; intros end_i g e g' Hn He; cbn [redraw_end];
    destruct (Z.eqb_spec start_i end_i) as [E|E]; try discriminate;
    try (intros [= <- <-]; split; [congruence | exact He]).
  pose proof (randrange_range n g Hn) as R.
  destruct (randrange n g) as [e1 g1]. cbn [fst] in R.
  now apply IH.
Qed.

(** With a hypothesis of length 0 every draw is 0 and the loop never
    ends. *)
Lemma redraw_end_stuck fuel : forall g,
  redraw_end randrange fuel 1 0 0 g = None.
Proof.
  induction fuel as [|fuel IH]; intros g; cbn [redraw_end Z.eqb];
    [reflexivity|].
  pose proof (randrange_range 1 g eq_refl) as R.
  destruct (randrange 1 g) as [e1 g1]. cbn [fst] in R.
  replace e1 with 0 by lia. apply IH.
Qed.

Lemma redraw_end_more_fuel fuel n start_i : forall end_i g r,
  redraw_end randrange fuel n start_i end_i g = Some r ->
  redraw_end randrange (S fuel) n start_i end_i g = Some r.
Proof.
  induction fuel as [|fuel IH]; intros end_i g r.
  - cbn [redraw_end]. destruct (start_i =? end_i); [discriminate | auto].
  - intros H. cbn [redraw_end] in H. change (redraw_end randrange (S (S fuel)) n start_i end_i g)
      with (if start_i =? end_i
            then let '(e, g1) := randrange n g in
                 redraw_end randrange (S fuel) n start_i e g1
            else Some (end_i, g)).
    destruct (start_i =? end_i); [|exact H].
    destruct (randrange n g) as [e1 g1]. now apply IH.
Qed.

End RandomSpan.

(** Without entering its loop when the first two draws differ; and a
    result found with some fuel is found again with more. *)
Lemma random_valid_span_progress :
  forall (G : Type) (randrange : Z -> G -> Z * G) h g,
    (fst (randrange (len h + 1) g)
     <> fst (randrange (len h + 1) (snd (randrange (len h + 1) g))) ->
     exists r, random_valid_span randrange 0 h g = Some r)
    /\ (forall fuel r,
          random_valid_span randrange fuel h g = Some r ->
          random_valid_span randrange (S fuel) h g = Some r).
Proof.
  intros G rr h g. unfold random_valid_span.
  destruct (rr (len h + 1) g) as [s0 g1]. cbn [fst snd].
  destruct (rr (len h + 1) g1) as [e0 g2]. cbn [fst]. split.
  - intros Hne. cbn [redraw_end].
    destruct (Z.eqb_spec s0 e0) as [E|_]; [contradiction|].
    destruct (e0 <? s0), (rr 2 g2) as [coin g3]; eauto.
  - intros fuel r H.
    destruct (redraw_end rr fuel (len h + 1) s0 e0 g2) as [[e1 g3]|] eqn:D;
      [|discriminate].
    now rewrite (redraw_end_more_fuel G rr _ _ _ _ _ _ D).
Qed.


Lemma random_valid_span_result (G : Type) (randrange : Z -> G -> Z * G) :
  (forall n g, 0 < n -> 0 <= fst (randrange n g) < n) ->
  forall fuel h g start_i end_i error_type g',
    random_valid_span randrange fuel h g
    = Some (start_i, end_i, error_type, g') ->
    (0 <= start_i /\ start_i < end_i /\ end_i <= len h)
    /\ (error_type = "major" \/ error_type = "minor")
    /\ assert_span_type (mkSpan (PInt start_i) (PInt end_i) error_type) = Ok tt
    /\ is_invalid_span (mkSpan (PInt start_i) (PInt end_i) error_type) h = false
    /\ correct_span (mkSpan (PInt start_i) (PInt end_i) error_type) h
       = Ok (mkSpan (PInt start_i) (PInt end_i) error_type).
Proof.
  intros Hr fuel h g s e t g' H. rename randrange into rr. unfold random_valid_span in H.
  assert (Hn : 0 < len h + 1) by (unfold len; lia).
  pose proof (Hr _ g Hn) as R1. destruct (rr (len h + 1) g) as [s0 g1].
  pose proof (Hr _ g1 Hn) as R2. destruct (rr (len h + 1) g1) as [e0 g2].
  cbn [fst] in R1, R2.
  destruct (redraw_end rr fuel (len h + 1) s0 e0 g2) as [[e1 g3]|] eqn:D;
    [|discriminate].
  destruct (redraw_end_some G rr Hr _ _ _ _ _ _ _ Hn R2 D) as [Hne He1].
  destruct (rr 2 g3) as [coin g4].
  assert (B : 0 <= s /\ s < e /\ e <= len h).
  { destruct (Z.ltb_spec e1 s0); injection H as <- <- _ _; lia. }
  assert (T : t = "major" \/ t = "minor").
  { destruct (e1 <? s0), (coin =? 0); injection H as _ _ <- _; auto. }
  clear H. split; [exact B|]. split; [exact T|].
  assert (N : t <> "critical") by (destruct T as [-> | ->]; discriminate).
  split; [|split].
  - rewrite assert_span_type_run. destruct T as [-> | ->]; reflexivity.
  - rewrite is_invalid_span_orb.
    cbn [start_i end_i severity is_str is_int int_and andb orb].
    assert (L1 : (s <? 0) = false) by (apply Z.ltb_ge; lia).
    assert (L2 : (len h <? s) = false) by (apply Z.ltb_ge; lia).
    assert (L3 : (e <? 0) = false) by (apply Z.ltb_ge; lia).
    assert (L4 : (len h <? e) = false) by (apply Z.ltb_ge; lia).
    assert (L5 : (s >? e) = false).
    { destruct (Z.gtb_spec s e); [lia | reflexivity]. }
    rewrite L1, L2, L3, L4, L5. destruct T as [-> | ->]; reflexivity.
  - apply correct_span_in_range; [exact N | lia..].
Qed.

(** X6. Whatever the generator draws, a triple that [random_valid_span]
    returns has 0 <= start < end <= len(hypothesis) and the type major or
    minor; as a span it passes [assert_span_type], is not invalid for
    [is_invalid_span], and is left unchanged by [correct_span].  The
    function returns without entering its loop when its first two draws
    differ. *)
Theorem random_valid_span_is_valid :
  forall (G : Type) (randrange : Z -> G -> Z * G),
    (forall n g, 0 < n -> 0 <= fst (randrange n g) < n) ->
    forall h g,
      (forall fuel start_i end_i error_type g',
         random_valid_span randrange fuel h g
         = Some (start_i, end_i, error_type, g') ->
         (0 <= start_i /\ start_i < end_i /\ end_i <= len h)
         /\ (error_type = "major" \/ error_type = "minor")
         /\ assert_span_type (mkSpan (PInt start_i) (PInt end_i) error_type)
            = Ok tt
         /\ is_invalid_span (mkSpan (PInt start_i) (PInt end_i) error_type) h
            = false
         /\ correct_span (mkSpan (PInt start_i) (PInt end_i) error_type) h
            = Ok (mkSpan (PInt start_i) (PInt end_i) error_type))
      /\ (fst (randrange (len h + 1) g)
          <> fst (randrange (len h + 1) (snd (randrange (len h + 1) g))) ->
          exists r, random_valid_span randrange 0 h g = Some r)
      /\ (forall fuel r,
            random_valid_span randrange fuel h g = Some r ->
            random_valid_span randrange (S fuel) h g = Some r).
Proof.
  intros G rr Hr h g. split; [|apply random_valid_span_progress].
  intros fuel s e t g'. now apply random_valid_span_result.
Qed.

Lemma random_valid_span_is_valid_witness :
  (forall n g, 0 < n -> 0 <= fst (list_randrange n g) < n)
  /\ random_valid_span list_randrange 5 "abcde" [3; 3; 9; 1; 0]
     = Some (1, 3, "major", [])
  /\ is_invalid_span (mkSpan (PInt 1) (PInt 3) "major") "abcde" = false.
Proof.
  split; [exact list_randrange_range|].
  assert (H : random_valid_span list_randrange 5 "abcde" [3; 3; 9; 1; 0]
              = Some (1, 3, "major", []))
    by (vm_compute; reflexivity).
  split; [exact H|].
  apply (proj1 (random_valid_span_is_valid _ _ list_randrange_range
                  "abcde" [3; 3; 9; 1; 0]) _ _ _ _ _ H).
Defined.

(** X7. On an empty hypothesis [random_valid_span] never returns: both
    draws are 0 and the loop that redraws the end goes on for ever,
    whatever the generator and however much fuel. *)
Theorem random_valid_span_empty_hypothesis :
  forall (G : Type) (randrange : Z -> G -> Z * G),
    (forall n g, 0 < n -> 0 <= fst (randrange n g) < n) ->
    forall fuel h g,
      len h = 0 -> random_valid_span randrange fuel h g = None.
Proof.
  intros G rr Hr fuel h g Hh. unfold random_valid_span. rewrite Hh.
  change (0 + 1) with 1.
  pose proof (Hr 1 g eq_refl) as R1. destruct (rr 1 g) as [s0 g1].
  pose proof (Hr 1 g1 eq_refl) as R2. destruct (rr 1 g1) as [e0 g2].
  cbn [fst] in R1, R2.
  replace s0 with 0 by lia. replace e0 with 0 by lia.
  now rewrite (redraw_end_stuck G rr Hr).
Qed.

Lemma random_valid_span_empty_hypothesis_witness :
  (forall n g, 0 < n -> 0 <= fst (list_randrange n g) < n)
  /\ len EmptyString = 0
  /\ random_valid_span list_randrange 1000 EmptyString [4; 7; 1; 8] = None.
Proof.
  split; [exact list_randrange_range|]. split; [reflexivity|].
  apply (random_valid_span_empty_hypothesis _ _ list_randrange_range).
  reflexivity.
Defined.

(** ** How [main] fails *)

Section OnlyAssertions.

Variable filter_on : bool.

Lemma span_loop_raises h spans : forall acc e,
  span_loop filter_on h spans acc = Raise e -> e = AssertionError.
Proof.
  induction spans as [|sp spans IH]; intros acc e; cbn [span_loop];
    [discriminate|].
  rewrite assert_span_type_run.
  destruct (span_type_ok sp); cbn; [|now intros [= <-]].
  destruct (filter_on && is_invalid_span sp h); [discriminate | apply IH].
Qed.

Lemma datum_loop_raises m lp ds : forall st n e,
  (forall d, In d ds -> (length (split_on "-" (langs d)) =? 2)%nat = true) ->
  datum_loop filter_on m lp ds st n = Raise e -> e = AssertionError.
Proof.
  induction ds as [|d ds IH]; intros st n e Hds; cbn [datum_loop];
    [discriminate|].
  assert (Hrest : forall x, In x ds ->
                            (length (split_on "-" (langs x)) =? 2)%nat = true)
    by (intros; apply Hds; now right).
  destruct (m !! src d) as [reference|]; [|now apply IH].
  destruct (span_loop filter_on (tgt d) (esa_spans d) empty_acc)
    as [[b acc]|e'] eqn:E; cbn.
  - destruct (span_loop_ok _ _ _ _ _ _ E) as [_ Hacc].
    destruct b; [now apply IH|].
    destruct (Hacc eq_refl) as [_ ->]. fold (spans_acc (esa_spans d)).
    destruct (make_row_total d reference
                (add_sentinel (spans_acc (esa_spans d)))
                (Hds d (or_introl eq_refl))) as [row ->].
    destruct (update_statistics_total lp (esa_spans d) (langs_to_statistics st))
      as [stats ->].
    discriminate.
  - intros [= <-]. now apply span_loop_raises in E.
Qed.

Lemma signature_loop_raises m lp groups : forall st n e,
  (forall g d, In g groups -> In d (snd g) ->
               (length (split_on "-" (langs d)) =? 2)%nat = true) ->
  signature_loop filter_on m lp groups st n = Raise e -> e = AssertionError.
Proof.
  induction groups as [|[sg ds] groups IH]; intros st n e H;
    cbn [signature_loop]; [discriminate|].
  destruct (datum_loop filter_on m lp ds st n) as [[st1 n1]|e'] eqn:E; cbn.
  - apply IH. intros g d Hg. apply H. now right.
  - intros [= <-]. apply (datum_loop_raises _ _ _ _ _ _ (fun d Hd => H (sg, ds) d (or_introl eq_refl) Hd) E).
Qed.

Lemma langs_loop_raises load_dataset vsc ltd : forall st e,
  (forall x g d, In x ltd -> In g (snd x) -> In d (snd g) -> langs d = fst x) ->
  langs_loop load_dataset filter_on vsc ltd st = Raise e -> e = AssertionError.
Proof.
  induction ltd as [|[lp groups] ltd IH]; intros st e H; cbn [langs_loop];
    [discriminate|].
  assert (Hrest : forall x g d, In x ltd -> In g (snd x) -> In d (snd g) ->
                                langs d = fst x)
    by (intros x g d Hx; apply H; now right).
  destruct (langs_to_wmt24pp_code !! lp) as [code|] eqn:Hcode;
    [|now apply IH].
  destruct (signature_loop filter_on _ lp groups st 0) as [[st1 n1]|e'] eqn:E;
    cbn -[langs_to_wmt24pp_code].
  - now apply IH.
  - intros [= <-]. apply (signature_loop_raises _ _ _ _ _ _) in E; [exact E|].
    intros g d Hg Hd.
    rewrite (H (lp, groups) g d (or_introl eq_refl) Hg Hd). cbn [fst].
    exact (supported_split _ _ Hcode).
Qed.

End OnlyAssertions.

(** X8. [main] fails in one way only, with [AssertionError]: never with
    the [ValueError] of unpacking [langs.split("-")] nor with an
    [IndexError] on [error_types[0]].  It does so as soon as one line has
    an empty source, whatever else the input holds; and it returns when
    every line has a source and every span has the types that
    [assert_span_type] asserts. *)
Theorem main_fails_only_by_assertion :
  forall load_dataset filter_on lines,
    (forall e, main load_dataset lines filter_on = Raise e ->
               e = AssertionError)
    /\ (forallb has_src lines = false ->
        main load_dataset lines filter_on = Raise AssertionError)
    /\ (forallb has_src lines = true ->
        (forall d, In d lines -> forallb span_type_ok (esa_spans d) = true) ->
        exists out, main load_dataset lines filter_on = Ok out).
Proof.
  intros ld f lines. split; [|split].
  - intros e. unfold main. rewrite ingest_run.
    destruct (forallb has_src lines); cbn -[langs_loop String.eqb];
      [|now intros [= <-]].
    fold (grouped lines). apply langs_loop_raises.
    intros x g d Hx Hg Hd. destruct (grouped_well lines) as [_ HF].
    rewrite List.Forall_forall in HF. destruct (HF x Hx) as [_ HG].
    rewrite List.Forall_forall in HG. specialize (HG g Hg).
    rewrite List.Forall_forall in HG. now destruct (HG d Hd) as (-> & _).
  - intros Hs. unfold main. now rewrite ingest_run, Hs.
  - apply main_total.
Qed.

Lemma main_fails_only_by_assertion_witness :
  forallb has_src
    [line_with_spans;
     mkAnnotation EmptyString EmptyString "xx-yy" PNone PNone PNone PNone []]
  = false
  /\ main example_corpus
       [line_with_spans;
        mkAnnotation EmptyString EmptyString "xx-yy" PNone PNone PNone PNone []]
       false
     = Raise AssertionError.
Proof.
  split; [reflexivity|].
  apply (main_fails_only_by_assertion example_corpus false). reflexivity.
Defined.

(** ** Rows under the filter *)

Lemma typed_valid_shape sp h :
  span_type_ok sp = true -> is_invalid_span sp h = false ->
  (severity sp = "major" \/ severity sp = "minor")
  /\ ((start_i sp = missing /\ end_i sp = missing)
      \/ exists a b, start_i sp = PInt a /\ end_i sp = PInt b
                     /\ 0 <= a /\ a <= b /\ b <= len h).
Proof.
  intros [Hb Hs]%span_type_ok_iff Hv. rewrite is_invalid_span_orb in Hv.
  repeat (apply orb_false_iff in Hv as [Hv ?]).
  match goal with H : negb _ = false |- _ =>
    apply negb_false_iff, str_in_In in H; rename H into Hsev end.
  split.
  - cbn in Hs, Hsev.
    destruct Hs as [E|[E|[E|[]]]], Hsev as [E'|[E'|[E'|[]]]];
      try (rewrite <- E in E'; discriminate E'); auto.
  - destruct Hb as [(a & b & Ea & Eb) | Hm]; [right | now left].
    rewrite Ea, Eb in *. cbn [int_and] in *.
    repeat match goal with
           | H : _ || _ = false |- _ => apply orb_false_iff in H as [? ?]
           | H : (_ <? _) = false |- _ => apply Z.ltb_ge in H
           end.
    exists a, b. repeat split; lia.
Qed.

(** X9. With the filter on, the record behind every row has only spans
    of severity major or minor whose bounds are both "missing" or
    integers with 0 <= start <= end <= len(target): a span of severity
    "undecided" never reaches the table, a zero-length span does. *)
Theorem filtered_rows_have_valid_spans :
  forall load_dataset lines out,
    main load_dataset lines true = Ok out ->
    forall r, In r (data out) ->
    exists d,
      In d lines
      /\ r = row_of (ref_map load_dataset (langs d)) d
      /\ (forall sp, In sp (esa_spans d) ->
            (severity sp = "major" \/ severity sp = "minor")
            /\ ((start_i sp = missing /\ end_i sp = missing)
                \/ exists a b, start_i sp = PInt a /\ end_i sp = PInt b
                               /\ 0 <= a /\ a <= b /\ b <= len (tgt d)))
      /\ (forall t, In t (tokens (OutputRow.error_types r)) ->
                    In t ["major"; "minor"; "no-error"]).
Proof.
  intros ld lines out Hmain r Hr.
  destruct (row_origin _ _ _ _ Hmain r Hr) as (d & Hd & _ & Hok & Hq & ->).
  exists d. split; [exact Hd|]. split; [reflexivity|].
  pose proof (emit_ok_typed _ Hok) as Ht.
  assert (Hsp : forall sp, In sp (esa_spans d) ->
            (severity sp = "major" \/ severity sp = "minor")
            /\ ((start_i sp = missing /\ end_i sp = missing)
                \/ exists a b, start_i sp = PInt a /\ end_i sp = PInt b
                               /\ 0 <= a /\ a <= b /\ b <= len (tgt d))).
  { intros sp Hin. unfold qualifies in Hq.
    destruct (ref_map ld (langs d) !! src d); [|discriminate].
    unfold no_invalid_span in Hq. cbn [negb orb] in Hq.
    rewrite forallb_forall in Hq, Ht.
    apply typed_valid_shape; [now apply Ht|].
    apply negb_true_iff. now apply Hq. }
  split; [exact Hsp|].
  pose proof (row_of_tokens (ref_map ld (langs d)) d Ht) as T.
  destruct (esa_spans d) as [|sp spans] eqn:E.
  - destruct T as (_ & _ & ->). cbn. intros t [<-|[]]. auto.
  - destruct T as (_ & _ & ->). intros t (x & <- & Hx)%in_map_iff.
    destruct (Hsp x Hx) as [[-> | ->] _]; cbn; auto.
Qed.

Lemma filtered_rows_have_valid_spans_witness :
  main example_corpus example_lines true = Ok (example_out true)
  /\ In (row_of (ref_map example_corpus "en-cs") line_without_spans)
        (data (example_out true))
  /\ exists d,
       In d example_lines
       /\ row_of (ref_map example_corpus "en-cs") line_without_spans
          = row_of (ref_map example_corpus (langs d)) d.
Proof.
  assert (Hin : In (row_of (ref_map example_corpus "en-cs") line_without_spans)
                   (data (example_out true)))
    by (vm_compute; left; reflexivity).
  split; [apply example_runs|]. split; [exact Hin|].
  destruct (filtered_rows_have_valid_spans example_corpus example_lines
              (example_out true) (example_runs true) _ Hin)
    as (d & Hd & E & _).
  exists d. split; assumption.
Defined.

(** ** The reference lookup and the fixed columns *)

Lemma build_fold wmt s : forall m : gmap string string,
  fold_left (fun m datum =>
               if is_bad_source datum then m
               else <[source datum := target datum]> m) wmt m !! s
  = match last (List.filter (usable_for s) wmt) with
    | Some e => Some (target e)
    | None => m !! s
    end.
Proof.
  induction wmt as [|e wmt IH]; intros m; cbn [fold_left List.filter];
    [reflexivity|].
  rewrite IH. unfold usable_for at 2.
  destruct (is_bad_source e); cbn [negb andb]; [reflexivity|].
  destruct (String.eqb_spec (source e) s) as [<-|N].
  - rewrite last_cons. fold (usable_for (source e)).
    destruct (last _); [reflexivity|]. apply lookup_insert_eq.
  - fold (usable_for s). destruct (last _); [reflexivity|].
    now apply lookup_insert_ne.
Qed.

(** X10. The lookup built from the corpus maps a source text to the
    target of the last entry that has this source and is not flagged as a
    bad source, and has no key for a text without such an entry: a bad
    entry neither adds a key nor removes an earlier one. *)
Theorem src_to_tgt_last_usable_entry :
  forall wmt24pp s,
    build_src_to_tgt wmt24pp !! s
    = target <$> last (List.filter (usable_for s) wmt24pp).
Proof.
  intros wmt s. unfold build_src_to_tgt. rewrite build_fold, lookup_empty.
  now destruct (last _).
Qed.

Lemma supported_cases lp code :
  langs_to_wmt24pp_code !! lp = Some code ->
  In lp ["en-cs"; "en-ja"; "en-zh"; "en-is"; "en-uk"; "en-ru"].
Proof.
  unfold langs_to_wmt24pp_code. cbn [list_to_map foldr uncurry fst snd].
  rewrite !lookup_insert, lookup_empty.
  repeat case_decide; subst; try discriminate; intros _; cbn; tauto.
Qed.

Lemma ref_map_supported load_dataset lp s reference :
  ref_map load_dataset lp !! s = Some reference ->
  exists code, langs_to_wmt24pp_code !! lp = Some code.
Proof.
  unfold ref_map. destruct (langs_to_wmt24pp_code !! lp) as [code|]; [eauto|].
  rewrite lookup_empty. discriminate.
Qed.

Lemma has_src_nonempty d : has_src d = true -> src d <> EmptyString.
Proof.
  unfold has_src. intros H E. rewrite E in H. discriminate H.
Qed.

(** X11. Every row has the set id "official" and the method "ESA"; its
    source language is "en" and its target language one of the six of
    the table, so that rows exist for supported language pairs only; its
    reference is what the lookup of its language pair holds for its
    source segment; and neither its source nor its hypothesis is
    empty. *)
Theorem rows_are_joined_and_supported :
  forall load_dataset filter_on lines out,
    main load_dataset lines filter_on = Ok out ->
    forall r, In r (data out) ->
      OutputRow.set_id r = "official"
      /\ OutputRow.method r = "ESA"
      /\ OutputRow.source_lang r = "en"
      /\ In (OutputRow.target_lang r) target_langs
      /\ is_Some (langs_to_wmt24pp_code !! row_langs r)
      /\ ref_map load_dataset (row_langs r) !! OutputRow.source_segment r
         = Some (OutputRow.reference_segment r)
      /\ OutputRow.source_segment r <> EmptyString
      /\ OutputRow.hypothesis_segment r <> EmptyString.
Proof.
  intros ld f lines out Hmain r Hr.
  destruct (row_origin _ _ _ _ Hmain r Hr) as (d & Hd & Ht & Hok & Hq & ->).
  rewrite (row_of_langs _ _ Hok).
  unfold qualifies in Hq.
  destruct (ref_map ld (langs d) !! src d) as [reference|] eqn:Href;
    [|discriminate].
  destruct (ref_map_supported _ _ _ _ Href) as [code Hcode].
  pose proof (main_has_src _ _ _ _ Hmain) as Hs.
  rewrite forallb_forall in Hs.
  split; [reflexivity|]. split; [reflexivity|].
  split; [|split; [|split; [|split; [|split]]]].
  - unfold row_of. cbn [OutputRow.source_lang].
    apply supported_cases in Hcode. cbn in Hcode.
    destruct Hcode as [<-|[<-|[<-|[<-|[<-|[<-|[]]]]]]]; reflexivity.
  - unfold row_of. cbn [OutputRow.target_lang].
    apply supported_cases in Hcode. cbn in Hcode.
    destruct Hcode as [<-|[<-|[<-|[<-|[<-|[<-|[]]]]]]]; cbn; tauto.
  - eauto.
  - unfold row_of. cbn [OutputRow.source_segment OutputRow.reference_segment].
    now rewrite Href.
  - apply has_src_nonempty, Hs, Hd.
  - now apply has_tgt_nonempty.
Qed.

Lemma rows_are_joined_and_supported_witness :
  main example_corpus example_lines false = Ok (example_out false)
  /\ In (row_of (ref_map example_corpus "en-cs") line_with_spans)
        (data (example_out false))
  /\ OutputRow.reference_segment
       (row_of (ref_map example_corpus "en-cs") line_with_spans) = "ahoj"
  /\ ref_map example_corpus
       (row_langs (row_of (ref_map example_corpus "en-cs") line_with_spans))
     !! OutputRow.source_segment
          (row_of (ref_map example_corpus "en-cs") line_with_spans)
     = Some (OutputRow.reference_segment
               (row_of (ref_map example_corpus "en-cs") line_with_spans)).
Proof.
  assert (Hin : In (row_of (ref_map example_corpus "en-cs") line_with_spans)
                   (data (example_out false)))
    by (vm_compute; left; reflexivity).
  split; [apply example_runs|]. split; [exact Hin|].
  split; [vm_compute; reflexivity|].
  apply (rows_are_joined_and_supported example_corpus false example_lines
           (example_out false) (example_runs false) _ Hin).
Defined.

(** ** What the statistics add up to *)

Lemma acc_delta_major acc :
  acc_delta acc "major" = cget (esa_counter acc) "major".
Proof.
  unfold acc_delta.
  change (String.eqb "no-error" "major") with false.
  change (String.eqb "major" "major") with true.
  change (String.eqb "minor" "major") with false.
  change (String.eqb "missing" "major") with false.
  rewrite andb_false_r. lia.
Qed.

Lemma acc_delta_other acc k :
  ~ In k ["no-error"; "missing"; "major"; "minor"] -> acc_delta acc k = 0.
Proof.
  intros N. unfold acc_delta.
  destruct (String.eqb_spec "no-error" k) as [E|_]; [exfalso; apply N; cbn; auto|].
  destruct (String.eqb_spec "major" k) as [E|_]; [exfalso; apply N; cbn; auto|].
  destruct (String.eqb_spec "minor" k) as [E|_]; [exfalso; apply N; cbn; auto|].
  destruct (String.eqb_spec "missing" k) as [E|_]; [exfalso; apply N; cbn; auto|].
  rewrite andb_false_r. reflexivity.
Qed.

Lemma stat_delta_major d :
  stat_delta d "major"
  = count_if (fun sp => negb (py_eq (start_i sp) (end_i sp))
                        && String.eqb (severity sp) "major") (esa_spans d).
Proof.
  unfold stat_delta. rewrite acc_delta_major, sentinel_counter.
  apply count_if_ext. intros sp _. unfold bucket.
  now destruct (py_eq (start_i sp) (end_i sp)).
Qed.

Lemma zsum_map_add {A : Type} (f g : A -> Z) l :
  zsum (map (fun x => f x + g x) l) = zsum (map f l) + zsum (map g l).
Proof.
  induction l as [|x l IH]; [reflexivity|]. cbn. unfold zsum in IH. lia.
Qed.

(** The spans of the asserted types fall into four classes. *)
Lemma spans_partition spans :
  forallb span_type_ok spans = true ->
  count_if (fun sp => py_eq (start_i sp) (end_i sp)) spans
  + count_if (fun sp => negb (py_eq (start_i sp) (end_i sp))
                        && String.eqb (severity sp) "major") spans
  + count_if (fun sp => negb (py_eq (start_i sp) (end_i sp))
                        && String.eqb (severity sp) "minor") spans
  + count_if (fun sp => negb (py_eq (start_i sp) (end_i sp))
                        && String.eqb (severity sp) "undecided") spans
  = Z.of_nat (length spans).
Proof.
  induction spans as [|sp spans IH]; [reflexivity|].
  cbn [forallb]. intros [T Ts]%andb_true_iff. specialize (IH Ts).
  rewrite !count_if_cons. cbn [length].
  apply span_type_ok_severity in T. cbn in T.
  destruct (py_eq (start_i sp) (end_i sp)); cbn [negb andb]; [lia|].
  destruct T as [E|[E|[E|[]]]]; rewrite <- E;
    cbn -[count_if Z.of_nat]; lia.
Qed.

(** X12. For every language pair the statistics hold nothing under a key
    other than no-error, missing, major and minor; the major bucket
    counts the major spans of the emitted records whose start differs
    from their end; and the three span buckets together count every span
    of the emitted records but the undecided ones of non-zero length,
    which are emitted and counted nowhere. *)
Theorem statistics_account_for_spans :
  forall load_dataset filter_on lines out,
    main load_dataset lines filter_on = Ok out ->
    forall lp,
      (forall k, ~ In k ["no-error"; "missing"; "major"; "minor"] ->
                 sget (langs_to_statistics out) lp k = 0)
      /\ sget (langs_to_statistics out) lp "major"
         = zsum (map (fun d => count_if
                                 (fun sp => negb (py_eq (start_i sp) (end_i sp))
                                            && String.eqb (severity sp) "major")
                                 (esa_spans d))
                     (emitted load_dataset filter_on lines lp))
      /\ sget (langs_to_statistics out) lp "missing"
         + sget (langs_to_statistics out) lp "major"
         + sget (langs_to_statistics out) lp "minor"
         + zsum (map (fun d => count_if
                                 (fun sp => negb (py_eq (start_i sp) (end_i sp))
                                            && String.eqb (severity sp) "undecided")
                                 (esa_spans d))
                     (emitted load_dataset filter_on lines lp))
         = zsum (map (fun d => Z.of_nat (length (esa_spans d)))
                     (emitted load_dataset filter_on lines lp)).
Proof.
  intros ld f lines out Hmain lp. split; [|split].
  - intros k Hk. rewrite (stats_by_langs _ _ _ _ Hmain).
    induction (emitted ld f lines lp) as [|d l IH]; [reflexivity|].
    cbn. unfold stat_delta at 1. rewrite (acc_delta_other _ _ Hk).
    unfold zsum in IH. rewrite IH. reflexivity.
  - rewrite (stats_by_langs _ _ _ _ Hmain). f_equal.
    apply map_ext. intros d. apply stat_delta_major.
  - rewrite !(stats_by_langs _ _ _ _ Hmain), <- !zsum_map_add.
    f_equal. apply map_ext_in. intros d Hd.
    apply (emitted_facts _ _ _ _ Hmain) in Hd as (_ & _ & _ & Hok & _).
    apply emit_ok_typed in Hok.
    rewrite (stat_delta_missing _ Hok), stat_delta_major, stat_delta_minor.
    now apply spans_partition.
Qed.

Lemma statistics_account_for_spans_witness :
  main example_corpus example_lines false = Ok (example_out false)
  /\ sget (langs_to_statistics (example_out false)) "en-cs" "missing"
     + sget (langs_to_statistics (example_out false)) "en-cs" "major"
     + sget (langs_to_statistics (example_out false)) "en-cs" "minor"
     = 3
  /\ sget (langs_to_statistics (example_out false)) "en-cs" "undecided" = 0.
Proof.
  split; [apply example_runs|].
  destruct (statistics_account_for_spans example_corpus false example_lines
              (example_out false) (example_runs false) "en-cs")
    as (H0 & _ & _).
  split; [vm_compute; reflexivity|].
  apply H0. cbn. intros [?|[?|[?|[?|[]]]]]; discriminate.
Defined.

(** ** The log counters of the second stage *)

Lemma vsc_fold_other lp
    (ltd : list (string * list (string * list annotation))) :
  forall c : gmap string Z,
  ~ In lp (map fst ltd) ->
  fold_left (fun c '(langs, groups) =>
               <[langs := Z.of_nat (length groups)]> c) ltd c !! lp
  = c !! lp.
Proof.
  induction ltd as [|[k groups] ltd IH]; intros c N; [reflexivity|].
  cbn [fold_left]. rewrite IH by (intros H; apply N; now right).
  apply lookup_insert_ne. intros ->. apply N. now left.
Qed.

Lemma vsc_get (ltd : list (string * list (string * list annotation))) lp groups :
  List.NoDup (map fst ltd) -> In (lp, groups) ltd ->
  cget (valid_signature_counter ltd) lp = Z.of_nat (length groups).
Proof.
  unfold valid_signature_counter, cget. generalize (∅ : gmap string Z).
  induction ltd as [|[k v] ltd IH]; intros c ND Hin; [destruct Hin|].
  inversion ND as [|? ? Hnin ND']; subst. cbn [fold_left].
  destruct Hin as [[= -> ->] | Hin].
  - rewrite vsc_fold_other by exact Hnin. now rewrite lookup_insert_eq.
  - now apply IH.
Qed.

Lemma chosen_groups_length filter_on m groups :
  (length (chosen_groups filter_on m groups) <= length groups)%nat.
Proof.
  unfold chosen_groups. induction groups as [|g groups IH]; [cbn; lia|].
  cbn [flat_map]. rewrite length_app. unfold chosen at 1.
  destruct (find _ (snd g)); cbn [length]; lia.
Qed.

Section LogCounters.

Variable filter_on : bool.

Lemma datum_loop_skipped m lp ds : forall st n st' n',
  datum_loop filter_on m lp ds st n = Ok (st', n') ->
  cget (log_counter st') "skip_datum_with_invalid_span"
  = cget (log_counter st) "skip_datum_with_invalid_span"
    + passed_over filter_on m ds.
Proof.
  induction ds as [|d ds IH]; intros st n st' n';
    cbn [datum_loop passed_over].
  - intros [= <- <-]. lia.
  - unfold qualifies, joinable.
    destruct (m !! src d) as [reference|];
      [|intros H; apply IH in H; rewrite H; lia].
    destruct (span_loop filter_on (tgt d) (esa_spans d) empty_acc)
      as [[b acc]|e] eqn:Hspans; cbn -[String.eqb]; [|discriminate].
    apply span_loop_ok in Hspans as [Hb _].
    fold (no_invalid_span filter_on d) in Hb. destruct b.
    + symmetry in Hb. apply negb_true_iff in Hb. rewrite Hb.
      intros H. apply IH in H. rewrite H. cbn [log_counter].
      rewrite cget_cadd, String.eqb_refl. lia.
    + symmetry in Hb. apply negb_false_iff in Hb. rewrite Hb.
      destruct (make_row d reference (add_sentinel acc)); cbn -[String.eqb];
        [|discriminate].
      destruct (update_statistics lp (add_sentinel acc) (langs_to_statistics st));
        cbn -[String.eqb]; [|discriminate].
      intros [= <- <-]. cbn [log_counter]. lia.
Qed.

Lemma signature_loop_skipped m lp groups : forall st n st' n',
  signature_loop filter_on m lp groups st n = Ok (st', n') ->
  cget (log_counter st') "skip_datum_with_invalid_span"
  = cget (log_counter st) "skip_datum_with_invalid_span"
    + zsum (map (fun g => passed_over filter_on m (snd g)) groups).
Proof.
  induction groups as [|[sg ds] groups IH]; intros st n st' n';
    cbn [signature_loop].
  - intros [= <- <-]. cbn. lia.
  - destruct (datum_loop filter_on m lp ds st n) as [[st1 n1]|e] eqn:Hd;
      cbn -[String.eqb]; [|discriminate].
    intros H. apply IH in H. apply datum_loop_skipped in Hd.
    rewrite H, Hd. cbn [map snd]. unfold zsum. cbn [fold_right]. lia.
Qed.

Variable load_dataset : string -> list ref_entry.

Lemma langs_loop_counters vsc ltd : forall st st',
  langs_loop load_dataset filter_on vsc ltd st = Ok st' ->
  cget (log_counter st') "skip_datum_with_invalid_span"
  = cget (log_counter st) "skip_datum_with_invalid_span"
    + zsum (map (passed_over_langs load_dataset filter_on) ltd)
  /\ cget (log_counter st') "num_skipped_valid_signatures"
     = cget (log_counter st) "num_skipped_valid_signatures"
       + zsum (map (fun e =>
                      match langs_to_wmt24pp_code !! fst e with
                      | Some _ =>
                          cget vsc (fst e)
                          - Z.of_nat (length (chosen_langs load_dataset
                                                filter_on e))
                      | None => 0
                      end) ltd).
Proof.
  induction ltd as [|[lp groups] ltd IH]; intros st st'; cbn [langs_loop].
  - intros [= <-]. cbn. lia.
  - cbn [map]. unfold passed_over_langs at 1. cbn [fst snd].
    destruct (langs_to_wmt24pp_code !! lp) as [code|] eqn:Hcode.
    + rewrite (chosen_langs_some _ _ _ _ _ Hcode), (ref_map_some _ _ _ Hcode).
      destruct (signature_loop filter_on _ lp groups st 0)
        as [[st1 n1]|e] eqn:Hs; cbn -[langs_to_wmt24pp_code String.eqb];
        [|discriminate].
      intros H. apply IH in H as [H1 H2].
      pose proof (signature_loop_skipped _ _ _ _ _ _ _ Hs) as S1.
      apply signature_loop_ok in Hs as (_ & _ & _ & Hn & L1).
      cbn [log_counter] in H1, H2. rewrite !cget_cadd in H1, H2.
      change (String.eqb "num_skipped_valid_signatures"
                         "skip_datum_with_invalid_span") with false in H1.
      rewrite String.eqb_refl in H2.
      rewrite L1 in H2 by discriminate.
      rewrite H1, H2, S1, Hn. unfold zsum. cbn [fold_right]. split; lia.
    + intros H. apply IH in H as [H1 H2]. rewrite H1, H2.
      unfold zsum. cbn [fold_right]. split; lia.
Qed.

End LogCounters.

Lemma main_second_stage load_dataset filter_on lines out :
  main load_dataset lines filter_on = Ok out ->
  exists lc,
    langs_loop load_dataset filter_on (valid_signature_counter (grouped lines))
      (grouped lines) (mkState lc ∅ []) = Ok out
    /\ forall k, k <> "target segment is empty" -> cget lc k = 0.
Proof.
  unfold main. rewrite ingest_run.
  destruct (forallb has_src lines); cbn -[langs_loop String.eqb];
    [|discriminate].
  intros H. eexists. split; [exact H|].
  intros k Hk. rewrite empty_target_count, cget_empty.
  destruct (String.eqb_spec "target segment is empty" k); [congruence | lia].
Qed.

Lemma zsum_ext_in {A : Type} (f g : A -> Z) l :
  (forall x, In x l -> f x = g x) -> zsum (map f l) = zsum (map g l).
Proof. intros H. now rewrite (map_ext_in f g l H). Qed.

Lemma zsum_nonneg {A : Type} (f : A -> Z) l :
  (forall x, In x l -> 0 <= f x) -> 0 <= zsum (map f l).
Proof.
  induction l as [|x l IH]; intros H; cbn; [lia|].
  assert (0 <= f x) by (apply H; now left).
  assert (0 <= zsum (map f l)) by (apply IH; intros; apply H; now right).
  unfold zsum in *. lia.
Qed.

Lemma flat_map_length {A B : Type} (g : A -> list B) l :
  Z.of_nat (length (flat_map g l))
  = zsum (map (fun x => Z.of_nat (length (g x))) l).
Proof.
  induction l as [|x l IH]; [reflexivity|]. cbn [flat_map map].
  rewrite length_app. unfold zsum in *. cbn [fold_right]. lia.
Qed.

(** X13. At the end of a run the counter "num_skipped_valid_signatures"
    and the number of rows add up to the number of signatures of the
    supported language pairs: every such signature gave one row or was
    counted as skipped once, and the counter is never negative. *)
Theorem skipped_signatures_and_rows :
  forall load_dataset filter_on lines out,
    main load_dataset lines filter_on = Ok out ->
    cget (log_counter out) "num_skipped_valid_signatures"
    + Z.of_nat (length (data out))
    = supported_signatures lines
    /\ 0 <= cget (log_counter out) "num_skipped_valid_signatures".
Proof.
  intros ld f lines out Hmain.
  destruct (main_second_stage _ _ _ _ Hmain) as (lc & Hloop & Hlc).
  apply langs_loop_counters in Hloop as [_ H]. cbn [log_counter] in H.
  rewrite Hlc in H by discriminate.
  destruct (grouped_well lines) as [ND _].
  assert (E : cget (log_counter out) "num_skipped_valid_signatures"
              = zsum (map (fun e =>
                             match langs_to_wmt24pp_code !! fst e with
                             | Some _ =>
                                 Z.of_nat (length (snd e))
                                 - Z.of_nat (length (chosen_langs ld f e))
                             | None => 0
                             end) (grouped lines))).
  { rewrite H, Z.add_0_l. apply zsum_ext_in. intros [lp groups] He.
    cbn [fst snd]. destruct (langs_to_wmt24pp_code !! lp); [|reflexivity].
    now rewrite (vsc_get _ _ _ ND He). }
  split.
  - rewrite E, (main_data _ _ _ _ Hmain), flat_map_length.
    unfold supported_signatures. rewrite <- zsum_map_add.
    apply zsum_ext_in. intros e _. unfold rows_langs. rewrite length_map.
    unfold chosen_langs.
    destruct (langs_to_wmt24pp_code !! fst e); cbn [length]; lia.
  - rewrite E. apply zsum_nonneg. intros e _. unfold chosen_langs.
    destruct (langs_to_wmt24pp_code !! fst e); [|lia].
    pose proof (chosen_groups_length f (ref_map ld (fst e)) (snd e)). lia.
Qed.

Lemma skipped_signatures_and_rows_witness :
  main example_corpus example_lines true = Ok (example_out true)
  /\ supported_signatures example_lines = 1
  /\ cget (log_counter (example_out true)) "num_skipped_valid_signatures"
     + Z.of_nat (length (data (example_out true)))
     = supported_signatures example_lines.
Proof.
  split; [apply example_runs|]. split; [vm_compute; reflexivity|].
  apply (skipped_signatures_and_rows example_corpus true example_lines
           (example_out true) (example_runs true)).
Defined.

Lemma passed_over_filter_off m ds : passed_over false m ds = 0.
Proof.
  induction ds as [|d ds IH]; [reflexivity|]. cbn [passed_over].
  unfold qualifies, joinable, no_invalid_span. cbn [negb orb].
  destruct (m !! src d); [reflexivity | exact IH].
Qed.

Lemma passed_over_langs_filter_off load_dataset ltd :
  zsum (map (passed_over_langs load_dataset false) ltd) = 0.
Proof.
  induction ltd as [|e l IH]; [reflexivity|].
  cbn [map]. unfold passed_over_langs at 1.
  assert (Z0 : zsum (map (fun g => passed_over false
                                     (ref_map load_dataset (fst e)) (snd g))
                         (snd e)) = 0).
  { induction (snd e) as [|g gs IHg]; [reflexivity|].
    cbn [map]. unfold zsum in *. cbn [fold_right].
    rewrite passed_over_filter_off, IHg. reflexivity. }
  unfold zsum in *. cbn [fold_right]. rewrite IH.
  destruct (langs_to_wmt24pp_code !! fst e); [rewrite Z0|]; reflexivity.
Qed.

(** X14. The counter "skip_datum_with_invalid_span" is the number of
    records with a reference that the loops passed over, under a
    supported language pair, before the record chosen for their
    signature; with the filter off it stays 0, and the record chosen for
    a signature is then its first record with a reference. *)
Theorem skipped_records_counter :
  forall load_dataset filter_on lines out,
    main load_dataset lines filter_on = Ok out ->
    cget (log_counter out) "skip_datum_with_invalid_span"
    = zsum (map (passed_over_langs load_dataset filter_on) (grouped lines))
    /\ (filter_on = false ->
        cget (log_counter out) "skip_datum_with_invalid_span" = 0
        /\ forall m d, qualifies filter_on m d = joinable m d).
Proof.
  intros ld f lines out Hmain.
  destruct (main_second_stage _ _ _ _ Hmain) as (lc & Hloop & Hlc).
  apply langs_loop_counters in Hloop as [H _]. cbn [log_counter] in H.
  rewrite Hlc in H by discriminate. rewrite Z.add_0_l in H.
  split; [exact H|]. intros ->. split.
  - rewrite H. apply passed_over_langs_filter_off.
  - intros m d. unfold qualifies, joinable, no_invalid_span. cbn [negb orb].
    reflexivity.
Qed.

Lemma skipped_records_counter_witness :
  main example_corpus example_lines true = Ok (example_out true)
  /\ cget (log_counter (example_out true)) "skip_datum_with_invalid_span" = 1
  /\ zsum (map (passed_over_langs example_corpus true) (grouped example_lines))
     = 1.
Proof.
  split; [apply example_runs|].
  destruct (skipped_records_counter example_corpus true example_lines
              (example_out true) (example_runs true)) as [H _].
  split; [rewrite H|]; vm_compute; reflexivity.
Defined.

(** ** What the first loop keeps *)

Lemma od_update_weight {V : Type} (w : V -> Z) k dflt f (d : list (string * V))
    (delta : Z) :
  w dflt = 0 -> (forall v, w (f v) = w v + delta) ->
  zsum (map (fun kv => w (snd kv)) (od_update k dflt f d))
  = zsum (map (fun kv => w (snd kv)) d) + delta.
Proof.
  intros H0 Hf. induction d as [|[k0 v0] d IH]; cbn [od_update].
  - cbn. rewrite Hf, H0. lia.
  - destruct (String.eqb k k0); cbn [map snd]; unfold zsum in *;
      cbn [fold_right]; [rewrite Hf | rewrite IH]; lia.
Qed.

Lemma filed_group_append d ltd : filed (group_append d ltd) = filed ltd + 1.
Proof.
  unfold filed, group_append.
  apply (od_update_weight
           (fun groups => zsum (map (fun g => Z.of_nat (length (snd g))) groups)));
    [reflexivity|].
  intros groups.
  apply (od_update_weight (fun ds : list annotation => Z.of_nat (length ds)));
    [reflexivity|].
  intros ds. rewrite length_app. cbn [length]. lia.
Qed.

Lemma filed_fold l : forall ltd,
  filed (fold_left (fun ltd d => group_append d ltd) l ltd)
  = filed ltd + Z.of_nat (length l).
Proof.
  induction l as [|d l IH]; intros ltd; cbn [fold_left length]; [lia|].
  rewrite IH, filed_group_append. lia.
Qed.

Lemma filter_split_length {A : Type} (p : A -> bool) l :
  Z.of_nat (length l)
  = Z.of_nat (length (List.filter p l))
    + Z.of_nat (length (List.filter (fun x => negb (p x)) l)).
Proof.
  induction l as [|x l IH]; [reflexivity|]. cbn [List.filter length].
  destruct (p x); cbn [negb length]; lia.
Qed.

(** X15. When the first loop of [main] ends, every line has been either
    counted under "target segment is empty" or filed in
    [langs_to_data], once: the counter and the number of filed records
    add up to the number of lines; and no language pair and, within a
    pair, no signature is keyed twice, each record sitting under its own
    language pair and signature. *)
Theorem ingest_files_every_line_once :
  forall lines lc ltd,
    ingest lines ∅ [] = Ok (lc, ltd) ->
    Z.of_nat (length lines) = cget lc "target segment is empty" + filed ltd
    /\ well_grouped lines ltd
    /\ forall lp sg,
         group_at lp sg ltd = List.filter (same_key lp sg) (kept lines).
Proof.
  intros lines lc ltd. rewrite ingest_run.
  destruct (forallb has_src lines); [|discriminate].
  intros [= <- <-]. fold (grouped lines). split; [|split].
  - rewrite empty_target_count, cget_empty. cbn [String.eqb Ascii.eqb Bool.eqb].
    unfold grouped. rewrite filed_fold. unfold kept.
    rewrite (filter_split_length has_tgt lines). cbn. lia.
  - apply grouped_well.
  - intros lp sg. apply group_at_grouped.
Qed.

Lemma ingest_files_every_line_once_witness :
  ingest example_lines ∅ []
  = Ok ({[ "target segment is empty" := 1 ]}, grouped example_lines)
  /\ Z.of_nat (length example_lines)
     = cget ({[ "target segment is empty" := 1 ]} : gmap string Z)
         "target segment is empty"
       + filed (grouped example_lines).
Proof.
  assert (H : ingest example_lines ∅ []
              = Ok ({[ "target segment is empty" := 1 ]}, grouped example_lines))
    by (vm_compute; reflexivity).
  split; [exact H|].
  apply (ingest_files_every_line_once _ _ _ H).
Defined.

(** ** Where the span loop stops *)

(** X16. The loop over the spans of a record is decided by the first
    span that fails the assertion or, under the filter, is invalid.  If
    that span fails the assertion the loop raises [AssertionError], also
    when the span is invalid as well; if it passes, the loop breaks with
    [has_invalid_span] set and looks at no later span; if there is no
    such span, every span is pushed. *)
Theorem span_loop_first_stop :
  forall filter_on h spans acc,
    match find (stops_loop filter_on h) spans with
    | Some sp =>
        if span_type_ok sp
        then exists acc', span_loop filter_on h spans acc = Ok (true, acc')
        else span_loop filter_on h spans acc = Raise AssertionError
    | None =>
        span_loop filter_on h spans acc
        = Ok (false, fold_left (fun acc sp => push_span sp acc) spans acc)
    end.
Proof.
  intros f h spans. induction spans as [|sp spans IH]; intros acc;
    cbn [find span_loop fold_left]; [reflexivity|].
  rewrite assert_span_type_run. unfold stops_loop at 1.
  destruct (span_type_ok sp) eqn:T; cbn [negb orb]; [|now rewrite T].
  destruct (f && is_invalid_span sp h) eqn:C; cbn.
  - rewrite T. eauto.
  - apply IH.
Qed.

(** ** Lines of unsupported language pairs *)

Lemma od_update_map {V : Type} (hf : V -> V) k dflt (f f' : V -> V)
    (d : list (string * V)) :
  (forall v, hf (f v) = f' (hf v)) ->
  map (fun kv => (fst kv, hf (snd kv))) (od_update k dflt f d)
  = od_update k (hf dflt) f' (map (fun kv => (fst kv, hf (snd kv))) d).
Proof.
  intros H. induction d as [|[k0 v0] d IH]; cbn [od_update map fst snd].
  - now rewrite H.
  - destruct (String.eqb k k0); cbn [map fst snd]; [now rewrite H|].
    now rewrite IH.
Qed.

Section Unsupported.

Variable g : annotation -> annotation.
Hypothesis g_src : forall d, src (g d) = src d.
Hypothesis g_tgt : forall d, tgt (g d) = tgt d.
Hypothesis g_langs : forall d, langs (g d) = langs d.
Hypothesis g_signature : forall d, signature (g d) = signature d.
Hypothesis g_supported :
  forall d, is_Some (langs_to_wmt24pp_code !! langs d) -> g d = d.

Lemma group_append_map d ltd :
  group_append (g d) (map_records g ltd) = map_records g (group_append d ltd).
Proof.
  unfold group_append, map_records. rewrite g_langs, g_signature.
  symmetry.
  exact (od_update_map
           (fun groups => map (fun gr => (fst gr, map g (snd gr))) groups)
           (langs d) []
           (od_update (signature d) [] (fun l => l ++ [d]))
           (od_update (signature d) [] (fun l => l ++ [g d]))
           ltd
           (fun groups =>
              od_update_map (map g) (signature d) []
                (fun l => l ++ [d]) (fun l => l ++ [g d]) groups
                (fun ds => map_app g ds [d]))).
Qed.

Lemma has_tgt_map d : has_tgt (g d) = has_tgt d.
Proof. unfold has_tgt. now rewrite g_tgt. Qed.

Lemma kept_map lines : kept (map g lines) = map g (kept lines).
Proof.
  unfold kept. induction lines as [|d lines IH]; [reflexivity|].
  cbn [map List.filter]. rewrite has_tgt_map.
  destruct (has_tgt d); cbn [map]; now rewrite IH.
Qed.

Lemma grouped_map lines : grouped (map g lines) = map_records g (grouped lines).
Proof.
  unfold grouped. rewrite kept_map.
  change (@nil (string * list (string * list annotation)))
    with (map_records g []) at 1.
  generalize (@nil (string * list (string * list annotation))).
  induction (kept lines) as [|d l IH]; intros ltd; [reflexivity|].
  cbn [map fold_left]. rewrite group_append_map. apply IH.
Qed.

Lemma valid_signature_counter_map ltd :
  valid_signature_counter (map_records g ltd) = valid_signature_counter ltd.
Proof.
  unfold valid_signature_counter, map_records.
  generalize (∅ : gmap string Z).
  induction ltd as [|[lp groups] ltd IH]; intros c; [reflexivity|].
  cbn [map fold_left fst snd]. rewrite length_map. apply IH.
Qed.

Lemma langs_loop_map load_dataset filter_on vsc lines ltd : forall st,
  (forall e, In e ltd -> group_ok lines (fst e) (snd e)) ->
  langs_loop load_dataset filter_on vsc (map_records g ltd) st
  = langs_loop load_dataset filter_on vsc ltd st.
Proof.
  induction ltd as [|[lp groups] ltd IH]; intros st H; [reflexivity|].
  cbn [map_records map fst snd langs_loop].
  fold (map_records g ltd).
  assert (Hrest : forall e, In e ltd -> group_ok lines (fst e) (snd e))
    by (intros; apply H; now right).
  destruct (langs_to_wmt24pp_code !! lp) as [code|] eqn:Hcode;
    [|now apply IH].
  assert (E : map (fun gr => (fst gr, map g (snd gr))) groups = groups).
  { destruct (H (lp, groups) (or_introl eq_refl)) as [_ HG]. cbn [fst snd] in HG.
    clear IH H Hrest.
    induction HG as [|[sg ds] groups' Hds HG IHg]; [reflexivity|].
    cbn [map fst snd]. rewrite IHg. do 2 f_equal.
    cbn [snd] in Hds. clear IHg HG.
    induction Hds as [|d ds' Hd _ IHd]; [reflexivity|].
    destruct Hd as (Hd & _).
    cbn [map]. rewrite IHd. f_equal. apply g_supported.
    rewrite <- Hd, Hcode. eauto. }
  rewrite E.
  destruct (signature_loop filter_on _ lp groups st 0) as [[st1 n1]|e];
    cbn -[langs_to_wmt24pp_code String.eqb]; [|reflexivity].
  now apply IH.
Qed.

Lemma has_src_map lines : forallb has_src (map g lines) = forallb has_src lines.
Proof.
  induction lines as [|d lines IH]; [reflexivity|].
  cbn [map forallb]. unfold has_src at 1 3. now rewrite g_src, IH.
Qed.

Lemma empty_targets_map lines : forall c : gmap string Z,
  fold_left (fun lc d => if has_tgt d then lc
                         else cadd "target segment is empty" 1 lc)
    (map g lines) c
  = fold_left (fun lc d => if has_tgt d then lc
                           else cadd "target segment is empty" 1 lc)
      lines c.
Proof.
  induction lines as [|d lines IH]; intros c; [reflexivity|].
  cbn [map fold_left]. rewrite has_tgt_map. apply IH.
Qed.

Lemma main_map load_dataset filter_on lines :
  main load_dataset (map g lines) filter_on = main load_dataset lines filter_on.
Proof.
  unfold main. rewrite !ingest_run, has_src_map.
  destruct (forallb has_src lines); [|reflexivity].
  cbn -[langs_loop String.eqb]. fold (grouped (map g lines)) (grouped lines).
  rewrite empty_targets_map, grouped_map, valid_signature_counter_map.
  apply (langs_loop_map _ _ _ lines).
  intros e He. destruct (grouped_well lines) as [_ HF].
  rewrite List.Forall_forall in HF. now apply HF.
Qed.

End Unsupported.

Lemma spoil_unsupported_spec :
  (forall d, src (spoil_unsupported d) = src d)
  /\ (forall d, tgt (spoil_unsupported d) = tgt d)
  /\ (forall d, langs (spoil_unsupported d) = langs d)
  /\ (forall d, signature (spoil_unsupported d) = signature d)
  /\ (forall d, is_Some (langs_to_wmt24pp_code !! langs d) ->
                spoil_unsupported d = d).
Proof.
  unfold spoil_unsupported. repeat split; intros d;
    try (destruct (langs_to_wmt24pp_code !! langs d); reflexivity).
  intros [code ->]. reflexivity.
Qed.

(** X17. A line whose language pair is not in [langs_to_wmt24pp_code]
    influences a run only through its source, target and keys: changing
    anything else in such lines, their spans included, changes neither
    the outcome of [main] nor any counter, statistic or row. *)
Theorem unsupported_lines_are_not_examined :
  forall (g : annotation -> annotation),
    (forall d, src (g d) = src d) ->
    (forall d, tgt (g d) = tgt d) ->
    (forall d, langs (g d) = langs d) ->
    (forall d, signature (g d) = signature d) ->
    (forall d, is_Some (langs_to_wmt24pp_code !! langs d) -> g d = d) ->
    forall load_dataset filter_on lines,
      main load_dataset (map g lines) filter_on
      = main load_dataset lines filter_on.
Proof.
  intros g H1 H2 H3 H4 H5 ld f lines. now apply main_map.
Qed.

Lemma unsupported_lines_are_not_examined_witness :
  map spoil_unsupported (line_unsupported :: example_lines)
  <> line_unsupported :: example_lines
  /\ main example_corpus
       (map spoil_unsupported (line_unsupported :: example_lines)) false
     = main example_corpus (line_unsupported :: example_lines) false.
Proof.
  split; [intros H; vm_compute in H; discriminate H|].
  destruct spoil_unsupported_spec as (H1 & H2 & H3 & H4 & H5).
  exact (unsupported_lines_are_not_examined spoil_unsupported H1 H2 H3 H4 H5
           example_corpus false (line_unsupported :: example_lines)).
Defined.

(** ** The order of the rows *)

Lemma od_get_existsb {V : Type} k (d : list (string * V)) :
  existsb (String.eqb k) (map fst d)
  = match od_get k d with Some _ => true | None => false end.
Proof.
  induction d as [|[k0 v0] d IH]; [reflexivity|]. cbn.
  destruct (String.eqb k k0); [reflexivity | exact IH].
Qed.

Lemma od_update_add_key {V : Type} k dflt f (d : list (string * V)) :
  map fst (od_update k dflt f d) = add_key (map fst d) k.
Proof.
  rewrite od_update_keys. unfold add_key. rewrite od_get_existsb.
  now destruct (od_get k d).
Qed.

Lemma grouped_keys_fold l : forall ltd,
  map fst (fold_left (fun ltd d => group_append d ltd) l ltd)
  = fold_left add_key (map langs l) (map fst ltd).
Proof.
  induction l as [|d l IH]; intros ltd; [reflexivity|].
  cbn [fold_left map]. rewrite IH. unfold group_append.
  now rewrite od_update_add_key.
Qed.

Lemma od_get_of_In {V : Type} k v (d : list (string * V)) :
  List.NoDup (map fst d) -> In (k, v) d -> od_get k d = Some v.
Proof.
  induction d as [|[k0 v0] d IH]; intros ND Hin; [destruct Hin|].
  inversion ND as [|? ? Hnin ND']; subst. cbn [od_get].
  destruct Hin as [[= -> ->] | Hin]; [now rewrite String.eqb_refl|].
  destruct (String.eqb_spec k k0) as [->|_]; [|now apply IH].
  exfalso. apply Hnin. change k0 with (fst (k0, v)). now apply in_map.
Qed.

(** X18. The table is ordered by language pair, in the order in which
    the pairs first occur among the lines with a target; the rows of a
    pair are the rows of its chosen records, one block per pair. *)
Theorem rows_follow_first_occurrence :
  forall load_dataset filter_on lines out,
    main load_dataset lines filter_on = Ok out ->
    map fst (grouped lines) = first_occurrences (map langs (kept lines))
    /\ data out
       = flat_map (fun lp => map (row_of (ref_map load_dataset lp))
                                 (emitted load_dataset filter_on lines lp))
                  (first_occurrences (map langs (kept lines))).
Proof.
  intros ld f lines out Hmain.
  assert (K : map fst (grouped lines)
              = first_occurrences (map langs (kept lines))).
  { unfold grouped, first_occurrences. now rewrite grouped_keys_fold. }
  split; [exact K|].
  rewrite <- K, (main_data _ _ _ _ Hmain).
  destruct (grouped_well lines) as [ND _].
  assert (G : forall l,
             (forall e, In e l -> In e (grouped lines)) ->
             flat_map (rows_langs ld f) l
             = flat_map (fun lp => map (row_of (ref_map ld lp))
                                       (emitted ld f lines lp)) (map fst l)).
  { induction l as [|[lp groups] l IH]; intros Hl; [reflexivity|].
    cbn [flat_map map fst]. rewrite IH by (intros; apply Hl; now right).
    f_equal. unfold rows_langs, emitted. cbn [fst].
    now rewrite (od_get_of_In _ _ _ ND (Hl _ (or_introl eq_refl))). }
  apply G. auto.
Qed.

Lemma rows_follow_first_occurrence_witness :
  main example_corpus (line_unsupported :: example_lines) false
  = Ok (final_state (main example_corpus (line_unsupported :: example_lines)
                       false))
  /\ first_occurrences (map langs (kept (line_unsupported :: example_lines)))
     = ["en-de"; "en-cs"]
  /\ map fst (grouped (line_unsupported :: example_lines))
     = first_occurrences (map langs (kept (line_unsupported :: example_lines))).
Proof.
  assert (H : main example_corpus (line_unsupported :: example_lines) false
              = Ok (final_state (main example_corpus
                                   (line_unsupported :: example_lines) false)))
    by (vm_compute; reflexivity).
  split; [exact H|]. split; [vm_compute; reflexivity|].
  apply (rows_follow_first_occurrence _ _ _ _ H).
Defined.
